(** * TaskManager (src/TaskManager.js): a shallow embedding and its properties

    The class keeps an array of task objects and a counter [nextId] in memory
    and writes both to one JSON file after every change.  The embedding
    follows the source method by method:

    - JavaScript values are the inductive [JsValue]; a task is an object,
      a finite map from property names to values;
    - task objects and arrays of tasks live in a heap and are handled by
      reference, as in JavaScript: [this.tasks] is a reference to an array
      whose elements are references to task objects, [getTasks] returns a
      reference to a new array, [markAsCompleted] assigns through the
      references it finds;
    - every method is a computation in a state-and-exception monad [M] over
      [State], which holds the instance fields, the heap, the data file and
      the system clock; every [new Date()] takes the next reading of the
      clock, and the readings are arbitrary;
    - [async]/[await] is read sequentially (each call is awaited before the
      next one starts); [console.log] output is not recorded.

    Arguments have the types the source documents: an id is a number, the
    members of [filters] are strings, [taskData] and [updates] are objects
    with arbitrary properties.

    Runtime primitives are modelled from ECMAScript: [toISOString],
    [Number.prototype.toFixed] on IEEE doubles, the increment [nextId++]
    rounded to the nearest double, truthiness, [||], property
    keys, object spread, and [JSON.stringify] followed by [JSON.parse] at the
    level of the document the text denotes.  Two primitives are left to the
    engine by ECMAScript: [Date.parse], which is a parameter here, and the
    algorithm of [Array.prototype.sort], which is modelled as a stable
    insertion sort.  [String.prototype.toLowerCase], which follows the case
    tables of Unicode, and [parseInt] are parameters as well.  A write that
    fails leaves the file as it was.

    The menu of src/cli.js is embedded as a function of the lines the user
    types, each the answer to the next question; the session starts once
    the store has been initialised. *)

From Stdlib Require Import ZArith String Ascii List Sorted Floats Uint63 Lia.
From stdpp Require Import gmap strings list fin_maps pretty.

Local Open Scope string_scope.

(** ** JavaScript values *)

(** Numbers are the integer-valued ones (ids, counters, epoch milliseconds);
    a [Date] object carries its time value; arrays are arrays of strings
    (the [tags] of a task). *)
Inductive JsValue : Type :=
| VUndefined
| VNull
| VBool (b : bool)
| VNum (n : Z)
| VStr (s : string)
| VDate (t : Z)
| VArr (l : list string).

#[global] Instance JsValue_eq_dec : EqDecision JsValue.
Proof. solve_decision. Defined.

(** An object: own properties by name. *)
Abbreviation Obj := (gmap string JsValue).

(** [o.k]: a missing property reads as [undefined]. *)
Definition get (o : Obj) (k : string) : JsValue := default VUndefined (o !! k).

(** ToBoolean. *)
Definition truthy (v : JsValue) : bool :=
  match v with
  | VUndefined | VNull => false
  | VBool b => b
  | VNum n => negb (n =? 0)%Z
  | VStr s => negb (String.eqb s "")
  | VDate _ | VArr _ => true
  end.

(** [a || b]. *)
Definition or_else (a b : JsValue) : JsValue := if truthy a then a else b.

(** ToPropertyKey, used by [obj[v]].  The text of a [Date] object depends on
    the time zone and locale of the host and is not modelled. *)
Definition propertyKey (v : JsValue) : option string :=
  match v with
  | VUndefined => Some "undefined"
  | VNull => Some "null"
  | VBool true => Some "true"
  | VBool false => Some "false"
  | VNum n => Some (pretty n)
  | VStr s => Some s
  | VDate _ => None
  | VArr l => Some (String.concat "," l)
  end.

(** ** Dates *)

Definition digit (n : Z) : ascii := ascii_of_nat (48 + Z.to_nat (n mod 10)).

(** [n] in decimal on exactly [width] digits. *)
Fixpoint pad (width : nat) (n : Z) : string :=
  match width with
  | O => ""
  | S w => pad w (n / 10) ++ String (digit n) ""
  end.

Definition msPerDay : Z := 86400000.

(** Year, month and day of the proleptic Gregorian calendar for a day number
    counted from 1970-01-01 (ECMAScript YearFromTime, MonthFromTime,
    DateFromTime). *)
Definition civil_from_days (z : Z) : Z * Z * Z :=
  let z := (z + 719468)%Z in
  let era := (z / 146097)%Z in
  let doe := (z mod 146097)%Z in
  let yoe := ((doe - doe / 1460 + doe / 36524 - doe / 146096) / 365)%Z in
  let y := (yoe + era * 400)%Z in
  let doy := (doe - (365 * yoe + yoe / 4 - yoe / 100))%Z in
  let mp := ((5 * doy + 2) / 153)%Z in
  let d := (doy - (153 * mp + 2) / 5 + 1)%Z in
  let m := (if (mp <? 10)%Z then mp + 3 else mp - 9)%Z in
  ((if (m <=? 2)%Z then y + 1 else y)%Z, m, d).

Definition year_string (y : Z) : string :=
  if ((0 <=? y) && (y <=? 9999))%Z then pad 4 y
  else (if (y <? 0)%Z then "-" else "+") ++ pad 6 (Z.abs y).

(** [Date.prototype.toISOString] for the time value [t] (milliseconds since
    the epoch, UTC). *)
Definition toISOString (t : Z) : string :=
  let '(y, m, d) := civil_from_days (t / msPerDay) in
  let r := (t mod msPerDay)%Z in
  year_string y ++ "-" ++ pad 2 m ++ "-" ++ pad 2 d ++ "T" ++
  pad 2 (r / 3600000) ++ ":" ++ pad 2 (r / 60000 mod 60) ++ ":" ++
  pad 2 (r / 1000 mod 60) ++ "." ++ pad 3 (r mod 1000) ++ "Z".

(** ** The state: instance fields, heap, data file, clock *)

(** Heap addresses.  Task objects and arrays of task references have
    separate address spaces. *)
Abbreviation loc := nat.

(** What is thrown: [new Error(message)], a [TypeError] or the [SyntaxError]
    of [JSON.parse], or a file-system error with its [code]. *)
Inductive Error : Type :=
| Error_ (message : string)
| TypeError (message : string)
| SyntaxError (message : string)
| SystemError (code : string).

(** [error.code]: only file-system errors carry one. *)
Definition code (e : Error) : option string :=
  match e with SystemError c => Some c | _ => None end.

(** The JSON document in the data file: an object with the members
    [tasks], [nextId] and [lastSaved], each possibly absent. *)
Record Document : Type := {
  doc_tasks : option (list Obj);
  doc_nextId : option Z;
  doc_lastSaved : option string
}.

(** What [fs.readFile] yields: text that [JSON.parse] rejects, or the text
    of a document. *)
Inductive FileText : Type :=
| Malformed
| Json (d : Document).

(** The data file [data/tasks.json]: absent, present but unreadable (the
    read fails with the given code), or readable. *)
Inductive FileState : Type :=
| Missing
| Unreadable (code : string)
| Readable (text : FileText).

Record State : Type := {
  (* the TaskManager instance *)
  tasks : loc;                      (* this.tasks, a reference to an array *)
  nextId : Z;                       (* this.nextId *)
  (* the heap *)
  objs : gmap loc Obj;              (* task objects *)
  arrs : gmap loc (list loc);       (* arrays of references to task objects *)
  (* the environment *)
  file : FileState;
  mkdirError : option string;       (* the code fs.mkdir fails with, if it does *)
  writeError : option string;       (* the code fs.writeFile fails with, if it does *)
  clock : nat -> Z;                 (* successive readings of the system clock *)
  ticks : nat                       (* how many readings were taken *)
}.

Definition set_tasks (a : loc) (s : State) : State :=
  {| tasks := a; nextId := nextId s; objs := objs s; arrs := arrs s; file := file s;
     mkdirError := mkdirError s; writeError := writeError s; clock := clock s; ticks := ticks s |}.
Definition set_nextId (n : Z) (s : State) : State :=
  {| tasks := tasks s; nextId := n; objs := objs s; arrs := arrs s; file := file s;
     mkdirError := mkdirError s; writeError := writeError s; clock := clock s; ticks := ticks s |}.
Definition set_objs (h : gmap loc Obj) (s : State) : State :=
  {| tasks := tasks s; nextId := nextId s; objs := h; arrs := arrs s; file := file s;
     mkdirError := mkdirError s; writeError := writeError s; clock := clock s; ticks := ticks s |}.
Definition set_arrs (h : gmap loc (list loc)) (s : State) : State :=
  {| tasks := tasks s; nextId := nextId s; objs := objs s; arrs := h; file := file s;
     mkdirError := mkdirError s; writeError := writeError s; clock := clock s; ticks := ticks s |}.
Definition set_file (f : FileState) (s : State) : State :=
  {| tasks := tasks s; nextId := nextId s; objs := objs s; arrs := arrs s; file := f;
     mkdirError := mkdirError s; writeError := writeError s; clock := clock s; ticks := ticks s |}.
Definition set_ticks (n : nat) (s : State) : State :=
  {| tasks := tasks s; nextId := nextId s; objs := objs s; arrs := arrs s; file := file s;
     mkdirError := mkdirError s; writeError := writeError s; clock := clock s; ticks := n |}.

(** Dereferencing.  A reference the heap does not hold reads as an empty
    object, respectively an empty array. *)
Definition deref (s : State) (l : loc) : Obj := default ∅ (objs s !! l).
Definition array (s : State) (a : loc) : list loc := default [] (arrs s !! a).

(** The store's task references, and the task records they point to. *)
Definition this_tasks (s : State) : list loc := array s (tasks s).
Definition view (s : State) : list Obj := deref s <$> this_tasks s.

(** ** The monad of methods *)

Inductive Outcome (A : Type) : Type :=
| Return (a : A)
| Throw (e : Error).
Arguments Return {A} a.
Arguments Throw {A} e.

Definition M (A : Type) : Type := State -> Outcome A * State.

Definition ret {A} (a : A) : M A := fun s => (Return a, s).
Definition throw {A} (e : Error) : M A := fun s => (Throw e, s).
Definition bind {A B} (m : M A) (k : A -> M B) : M B :=
  fun s => match m s with
           | (Return a, s') => k a s'
           | (Throw e, s') => (Throw e, s')
           end.
(** [try { m } catch (e) { h e }]: what [m] did to the state before it threw
    stays done. *)
Definition try_catch {A} (m : M A) (h : Error -> M A) : M A :=
  fun s => match m s with
           | (Return a, s') => (Return a, s')
           | (Throw e, s') => h e s'
           end.
Definition gets {A} (f : State -> A) : M A := fun s => (Return (f s), s).
Definition modify (f : State -> State) : M unit := fun s => (Return tt, f s).

Notation "'let!' x := m 'in' k" := (bind m (fun x => k))
  (at level 10, x name, m at level 100, k at level 200).

(** The outcome and the final state of running a method. *)
Definition outcome {A} (r : Outcome A * State) : Outcome A := fst r.
Definition final {A} (r : Outcome A * State) : State := snd r.

(** ** Runtime primitives with effects *)

(** [new Date()]: the next reading of the clock. *)
Definition new_Date_now : M Z :=
  fun s => (Return (clock s (ticks s)), set_ticks (S (ticks s)) s).

(** [new Date().toISOString()]. *)
Definition now_ISO : M string := let! t := new_Date_now in ret (toISOString t).

(** Every task reference that occurs in some array. *)
Definition referenced (s : State) : gset loc :=
  ⋃ ((fun entry => list_to_set entry.2) <$> map_to_list (arrs s)).

(** Allocation of a task object: at an address that neither holds an object
    nor occurs in an array. *)
Definition new_object (o : Obj) : M loc :=
  fun s => let l := fresh (dom (objs s) ∪ referenced s) in
           (Return l, set_objs (<[l := o]> (objs s)) s).

(** Allocation of an array, at an address other than [this.tasks]. *)
Definition new_array (elems : list loc) : M loc :=
  fun s => let a := fresh (dom (arrs s) ∪ {[tasks s]}) in
           (Return a, set_arrs (<[a := elems]> (arrs s)) s).

(** [fs.mkdir(dataPath, { recursive: true })]. *)
Definition fs_mkdir : M unit :=
  fun s => match mkdirError s with
           | Some c => (Throw (SystemError c), s)
           | None => (Return tt, s)
           end.

(** [fs.readFile(filePath, "utf8")]. *)
Definition fs_readFile : M FileText :=
  fun s => match file s with
           | Missing => (Throw (SystemError "ENOENT"), s)
           | Unreadable c => (Throw (SystemError c), s)
           | Readable text => (Return text, s)
           end.

(** [fs.writeFile(filePath, text, "utf8")], the text being that of [d]. *)
Definition fs_writeFile (d : Document) : M unit :=
  fun s => match writeError s with
           | Some c => (Throw (SystemError c), s)
           | None => (Return tt, set_file (Readable (Json d)) s)
           end.

(** [JSON.parse]. *)
Definition JSON_parse (text : FileText) : M Document :=
  match text with
  | Malformed => throw (SyntaxError "Unexpected token in JSON")
  | Json d => ret d
  end.

(** What [JSON.stringify] writes for a property value, if anything: a
    property holding [undefined] is left out, a [Date] is written through
    its [toJSON], that is as its ISO string. *)
Definition json_value (v : JsValue) : option JsValue :=
  match v with
  | VUndefined => None
  | VDate t => Some (VStr (toISOString t))
  | _ => Some v
  end.

(** A task object as [JSON.parse] reads it back from what [JSON.stringify]
    wrote for it. *)
Definition json_object (o : Obj) : Obj := omap json_value o.

(** ** The methods of TaskManager *)

(** The field initialisers of the constructor: [this.tasks = []] and
    [this.nextId = 1].  The constructor also starts [initialize], which it
    does not await; [initialize] is a method of its own below. *)
Definition constructor : M unit :=
  let! a := new_array [] in
  let! _ := modify (set_tasks a) in
  modify (set_nextId 1).

(** [saveToFile]: the whole state goes to the file; a failed write is
    rethrown. *)
Definition saveToFile : M unit :=
  try_catch
    (let! ts := gets view in
     let! n := gets nextId in
     let! lastSaved := now_ISO in
     fs_writeFile {| doc_tasks := Some (json_object <$> ts);
                     doc_nextId := Some n;
                     doc_lastSaved := Some lastSaved |})
    (fun error => throw error).

(** The objects [JSON.parse] creates for the elements of an array. *)
Fixpoint new_objects (os : list Obj) : M (list loc) :=
  match os with
  | [] => ret []
  | o :: os' =>
      let! l := new_object o in
      let! ls := new_objects os' in
      ret (l :: ls)
  end.

(** [data.nextId || 1]. *)
Definition nextId_or_1 (n : option Z) : Z :=
  match n with
  | Some n => if (n =? 0)%Z then 1%Z else n
  | None => 1%Z
  end.

(** [loadFromFile]: a missing file is tolerated, any other failure is
    rethrown. *)
Definition loadFromFile : M unit :=
  try_catch
    (let! fileContent := fs_readFile in
     let! data := JSON_parse fileContent in
     let! ls := new_objects (default [] (doc_tasks data)) in
     let! a := new_array ls in
     let! _ := modify (set_tasks a) in
     modify (set_nextId (nextId_or_1 (doc_nextId data))))
    (fun error =>
       if bool_decide (code error = Some "ENOENT") then ret tt else throw error).

(** [initialize]: whatever is thrown inside is caught and only logged. *)
Definition initialize : M unit :=
  try_catch
    (let! _ := fs_mkdir in loadFromFile)
    (fun error => ret tt).

(** The double nearest to the integer [z], the one with the even
    significand on a tie (for magnitudes below 2^1024).  The integers up to
    2^53 in magnitude are doubles themselves. *)
Definition nearest_double (z : Z) : Z :=
  let q := (2 ^ Z.max 0 (Z.log2 (Z.abs z) - 52))%Z in
  let k := (z / q)%Z in
  let r := (z mod q)%Z in
  if (2 * r <? q)%Z then (k * q)%Z
  else if (q <? 2 * r)%Z then ((k + 1) * q)%Z
  else if Z.even k then (k * q)%Z
  else ((k + 1) * q)%Z.

(** What [n++] leaves in a property that held the number [n]: the double
    nearest to [n + 1]. *)
Definition plus_one (n : Z) : Z := nearest_double (n + 1).

(** The object literal of [addTask]. *)
Definition task_literal (id : Z) (taskData : Obj) (createdAt updatedAt : string) : Obj :=
  <["id" := VNum id]>
  (<["title" := get taskData "title"]>
  (<["description" := or_else (get taskData "description") (VStr "")]>
  (<["status" := VStr "pending"]>
  (<["priority" := or_else (get taskData "priority") (VStr "medium")]>
  (<["createdAt" := VStr createdAt]>
  (<["updatedAt" := VStr updatedAt]>
  (<["tags" := or_else (get taskData "tags") (VArr [])]>
  (<["dueDate" := or_else (get taskData "dueDate") VNull]> ∅)))))))).

(** [this.tasks.push(task)]. *)
Definition push (l : loc) : M unit :=
  modify (fun s => set_arrs (<[tasks s := (this_tasks s ++ [l])%list]> (arrs s)) s).

(** [addTask]: returns the reference to the new task object. *)
Definition addTask (taskData : Obj) : M loc :=
  if negb (truthy (get taskData "title")) then
    throw (Error_ "任务标题不能为空")
  else
    let! id := gets nextId in
    let! _ := modify (set_nextId (plus_one id)) in
    let! createdAt := now_ISO in
    let! updatedAt := now_ISO in
    let! task := new_object (task_literal id taskData createdAt updatedAt) in
    let! _ := push task in
    let! _ := saveToFile in
    ret task.

(** [task.id === id] for the task at [l]. *)
Definition has_id (s : State) (id : Z) (l : loc) : Prop :=
  get (deref s l) "id" = VNum id.

#[global] Instance has_id_dec s id l : Decision (has_id s id l).
Proof. unfold has_id. apply _. Defined.

(** [this.tasks.findIndex((task) => task.id === id)], with the element
    found there. *)
Definition findIndex (id : Z) (s : State) : option (nat * loc) :=
  list_find (has_id s id) (this_tasks s).

(** [getTaskById]: [this.tasks.find((task) => task.id === id) || null], the
    reference to the first task with that id, or null. *)
Definition getTaskById (id : Z) (s : State) : option loc :=
  List.find (fun l => bool_decide (has_id s id l)) (this_tasks s).

(** The object literal of [updateTask]: the old properties, then those of
    [updates], then [id], [createdAt] and [updatedAt]. *)
Definition merged (old updates : Obj) (updatedAt : string) : Obj :=
  <["updatedAt" := VStr updatedAt]>
  (<["createdAt" := get old "createdAt"]>
  (<["id" := get old "id"]> (updates ∪ old))).

(** [updateTask]: the merged record is a new object that replaces the old
    one in the array. *)
Definition updateTask (id : Z) (updates : Obj) : M loc :=
  let! found := gets (findIndex id) in
  match found with
  | None => throw (Error_ ("任务 ID " ++ pretty id ++ " 不存在"))
  | Some (taskIndex, l) =>
      let! old := gets (fun s => deref s l) in
      let! updatedAt := now_ISO in
      let! l' := new_object (merged old updates updatedAt) in
      let! _ := modify (fun s =>
                  set_arrs (<[tasks s := <[taskIndex := l']> (this_tasks s)]> (arrs s)) s) in
      let! _ := saveToFile in
      ret l'
  end.

(** [task.k = v] through a reference. *)
Definition set_property (l : loc) (k : string) (v : JsValue) : M unit :=
  modify (fun s => set_objs (<[l := <[k := v]> (deref s l)]> (objs s)) s).

(** The loop of [markAsCompleted], with the array [updates] built so far. *)
Fixpoint markLoop (ids : list Z) (updates : list loc) : M (list loc) :=
  match ids with
  | [] => ret updates
  | id :: rest =>
      let! task := gets (getTaskById id) in
      match task with
      | Some l =>
          let! status := gets (fun s => get (deref s l) "status") in
          if bool_decide (status <> VStr "completed") then
            let! _ := set_property l "status" (VStr "completed") in
            let! t := now_ISO in
            let! _ := set_property l "updatedAt" (VStr t) in
            markLoop rest (updates ++ [l])%list
          else markLoop rest updates
      | None => markLoop rest updates
      end
  end.

(** [markAsCompleted]: returns the references pushed to [updates]. *)
Definition markAsCompleted (ids : list Z) : M (list loc) :=
  let! updates := markLoop ids [] in
  let! _ := (if (0 <? length updates)%nat then saveToFile else ret tt) in
  ret updates.

(** [deleteTask]: [this.tasks] becomes the array [filter] returns, removal
    or not; the file is written only after a removal. *)
Definition deleteTask (id : Z) : M bool :=
  let! initialLength := gets (fun s => length (this_tasks s)) in
  let! kept := gets (fun s => filter (fun l => ~ has_id s id l) (this_tasks s)) in
  let! a := new_array kept in
  let! _ := modify (set_tasks a) in
  if (length kept <? initialLength)%nat then
    let! _ := saveToFile in ret true
  else ret false.

(** [clearAll]. *)
Definition clearAll : M unit :=
  let! a := new_array [] in
  let! _ := modify (set_tasks a) in
  let! _ := modify (set_nextId 1) in
  saveToFile.

(** ** Queries: getTasks and getStatistics *)

(** The [filters] argument of [getTasks]: each member absent or a string. *)
Record Filters : Type := {
  f_status : option string;
  f_priority : option string;
  f_tag : option string;
  f_sortBy : option string
}.

(** [if (filters.k)]: the member when it is truthy. *)
Definition given (member : option string) : option string :=
  match member with
  | Some k => if String.eqb k "" then None else Some k
  | None => None
  end.

(** [String.prototype.includes]. *)
Fixpoint is_substring (needle hay : string) : bool :=
  String.prefix needle hay ||
  match hay with
  | EmptyString => false
  | String _ hay' => is_substring needle hay'
  end.

(** [task.tags.includes(tag)]: on an array, membership; on a string, the
    substring test; on anything else the call itself throws. *)
Definition includes (tags : JsValue) (tag : string) : Outcome bool :=
  match tags with
  | VArr l => Return (bool_decide (tag ∈ l))
  | VStr hay => Return (is_substring tag hay)
  | VUndefined | VNull =>
      Throw (TypeError "Cannot read properties of undefined (reading 'includes')")
  | VBool _ | VNum _ | VDate _ =>
      Throw (TypeError "task.tags.includes is not a function")
  end.

(** [Array.prototype.filter] with a callback that may throw. *)
Fixpoint filter_throwing {A} (p : A -> Outcome bool) (l : list A) : Outcome (list A) :=
  match l with
  | [] => Return []
  | x :: l' =>
      match p x with
      | Throw e => Throw e
      | Return b =>
          match filter_throwing p l' with
          | Throw e => Throw e
          | Return r => Return (if b then x :: r else r)
          end
      end
  end.

Definition lift {A} (o : Outcome A) : M A := fun s => (o, s).

(** SortCompare of ECMAScript: a comparator result that is NaN ([None])
    counts as 0. *)
Definition sortCompare {A} (comparefn : A -> A -> option Z) (x y : A) : Z :=
  default 0%Z (comparefn x y).

(** [Array.prototype.sort(comparefn)] as a stable insertion sort: each
    element in turn goes before the first element it compares below. *)
Fixpoint insert_sorted {A} (comparefn : A -> A -> option Z) (x : A) (sorted : list A) : list A :=
  match sorted with
  | [] => [x]
  | y :: ys =>
      if (sortCompare comparefn x y <? 0)%Z then x :: sorted
      else y :: insert_sorted comparefn x ys
  end.

Definition sort {A} (comparefn : A -> A -> option Z) (l : list A) : list A :=
  foldl (fun sorted x => insert_sorted comparefn x sorted) [] l.

(** Subtraction of two numbers, either of which may be NaN. *)
Definition minus (a b : option Z) : option Z :=
  match a, b with
  | Some x, Some y => Some (x - y)%Z
  | _, _ => None
  end.

(** [priorityOrder[v]] for [{ high: 3, medium: 2, low: 1 }] as a number:
    NaN for every other key. *)
Definition priorityOrder (v : JsValue) : option Z :=
  match propertyKey v with
  | Some k =>
      if String.eqb k "high" then Some 3%Z
      else if String.eqb k "medium" then Some 2%Z
      else if String.eqb k "low" then Some 1%Z
      else None
  | None => None
  end.

(** Counters of [getStatistics]: a number, or the NaN that [++] leaves in a
    property that was not a number. *)
Inductive Count : Type :=
| CNum (n : nat)
| CNaN.

(** [counters[v]++]. *)
Definition incr (o : option Count) : Count :=
  match o with
  | Some (CNum n) => CNum (S n)
  | _ => CNaN
  end.

Definition count_up (v : JsValue) (counters : gmap string Count) : gmap string Count :=
  match propertyKey v with
  | Some k => <[k := incr (counters !! k)]> counters
  | None => counters
  end.

(** [completionRate]: the number 0, or the text built with [toFixed]. *)
Inductive Rate : Type :=
| RateNumber (n : Z)
| RateText (text : string).

Record Statistics : Type := {
  total : nat;
  byStatus : gmap string Count;
  byPriority : gmap string Count;
  completionRate : Rate;
  overdue : nat
}.

(** The double nearest to a count (exact below 2^53). *)
Definition float_of_nat (n : nat) : float :=
  PrimFloat.of_uint63 (Uint63.of_Z (Z.of_nat n)).

(** The integer [n] for which [n / 100 - x] is closest to zero, the larger
    one on a tie, for [x = m * 2^e]. *)
Definition hundredths (m : positive) (e : Z) : Z :=
  if (0 <=? e)%Z then (100 * Z.pos m * 2 ^ e)%Z
  else ((200 * Z.pos m + 2 ^ (- e)) / (2 * 2 ^ (- e)))%Z.

(** [Number.prototype.toFixed(2)] (for magnitudes below 10^21). *)
Definition toFixed2 (x : float) : string :=
  match Prim2SF x with
  | S754_zero _ => "0.00"
  | S754_infinity sign => if sign then "-Infinity" else "Infinity"
  | S754_nan => "NaN"
  | S754_finite sign m e =>
      let n := hundredths m e in
      (if sign then "-" else "") ++ pretty (n / 100)%Z ++ "." ++ pad 2 (n mod 100)
  end.

(** [((completed / total) * 100).toFixed(2) + "%"]. *)
Definition rate_text (completed : Count) (total : nat) : string :=
  match completed with
  | CNum c =>
      toFixed2 (PrimFloat.mul (PrimFloat.div (float_of_nat c) (float_of_nat total))
                              (float_of_nat 100)) ++ "%"
  | CNaN => "NaN%"
  end.

Section Runtime.

(** [Date.parse]: the time value a string denotes, [None] for a string
    that is not a date (the time value NaN). *)
Variable Date_parse : string -> option Z.

(** The time value of [new Date(v)]. *)
Definition new_Date (v : JsValue) : option Z :=
  match v with
  | VDate t => Some t
  | VStr text => Date_parse text
  | VArr l => Date_parse (String.concat "," l)
  | VNum n => if (Z.abs n <=? 8640000000000000)%Z then Some n else None
  | VBool b => Some (if b then 1 else 0)%Z
  | VNull => Some 0%Z
  | VUndefined => None
  end.

(** The comparator of [getTasks], on the task records. *)
Definition compareTasks (sortBy : string) (a b : Obj) : option Z :=
  if String.eqb sortBy "createdAt" then
    minus (new_Date (get b "createdAt")) (new_Date (get a "createdAt"))
  else if String.eqb sortBy "priority" then
    minus (priorityOrder (get b "priority")) (priorityOrder (get a "priority"))
  else if String.eqb sortBy "dueDate" then
    if negb (truthy (get a "dueDate")) then Some 1%Z
    else if negb (truthy (get b "dueDate")) then Some (-1)%Z
    else minus (new_Date (get a "dueDate")) (new_Date (get b "dueDate"))
  else Some 0%Z.

(** The stages of [getTasks]: the three filters and the sort, each
applied when its member of [filters] is truthy. *)
Definition by_status (filters : Filters) (result : list loc) : M (list loc) :=
  match given (f_status filters) with
  | Some status =>
      gets (fun s => filter (fun l => get (deref s l) "status" = VStr status) result)
  | None => ret result
  end.

Definition by_priority (filters : Filters) (result : list loc) : M (list loc) :=
  match given (f_priority filters) with
  | Some priority =>
      gets (fun s => filter (fun l => get (deref s l) "priority" = VStr priority) result)
  | None => ret result
  end.

Definition by_tag (filters : Filters) (result : list loc) : M (list loc) :=
  match given (f_tag filters) with
  | Some tag =>
      fun s => lift (filter_throwing (fun l => includes (get (deref s l) "tags") tag) result) s
  | None => ret result
  end.

Definition sorted (filters : Filters) (result : list loc) : M (list loc) :=
  match given (f_sortBy filters) with
  | Some sortBy =>
      gets (fun s => sort (fun a b => compareTasks sortBy (deref s a) (deref s b)) result)
  | None => ret result
  end.

(** [getTasks]: the result is a new array; its elements are references
to the store's own task objects. *)
Definition getTasks (filters : Filters) : M loc :=
  let! result := gets this_tasks in
  let! result := by_status filters result in
  let! result := by_priority filters result in
  let! result := by_tag filters result in
  let! result := sorted filters result in
  new_array result.

(** [new Date(task.dueDate) < now]. *)
Definition before (due : option Z) (now : Z) : bool :=
  match due with
  | Some t => (t <? now)%Z
  | None => false
  end.

(** The overdue test of [getStatistics]. *)
Definition is_overdue (now : Z) (task : Obj) : bool :=
  truthy (get task "dueDate")
  && before (new_Date (get task "dueDate")) now
  && bool_decide (get task "status" <> VStr "completed").

(** One round of the [forEach] of [getStatistics]. *)
Definition tally (now : Z) (stats : Statistics) (task : Obj) : Statistics :=
  {| total := total stats;
     byStatus := count_up (get task "status") (byStatus stats);
     byPriority := count_up (get task "priority") (byPriority stats);
     completionRate := completionRate stats;
     overdue := if is_overdue now task then S (overdue stats) else overdue stats |}.

Definition initial_stats (n : nat) : Statistics :=
  {| total := n;
     byStatus := <["pending" := CNum 0]> (<["in-progress" := CNum 0]> (<["completed" := CNum 0]> ∅));
     byPriority := <["high" := CNum 0]> (<["medium" := CNum 0]> (<["low" := CNum 0]> ∅));
     completionRate := RateNumber 0;
     overdue := 0 |}.

(** The last step: [completionRate] when there are tasks. *)
Definition with_rate (stats : Statistics) : Statistics :=
  if (0 <? total stats)%nat then
    {| total := total stats;
       byStatus := byStatus stats;
       byPriority := byPriority stats;
       completionRate :=
         RateText (rate_text (default CNaN (byStatus stats !! "completed")) (total stats));
       overdue := overdue stats |}
  else stats.

Definition getStatistics : M Statistics :=
  let! ts := gets view in
  let! now := new_Date_now in
  ret (with_rate (foldl (tally now) (initial_stats (length ts)) ts)).

End Runtime.

(** ** Clients of the store *)

(** A client of [getTasks] changes the array it was given (an assignment
    to an index, [push], [pop], [splice], [sort], ...): the array at [a] has
    new elements. *)
Definition write_array (a : loc) (elems : list loc) : M unit :=
  modify (fun s => set_arrs (<[a := elems]> (arrs s)) s).

(** A client runs [result[i].k = v] on the array [result] it was given. *)
Definition assign_through (result : loc) (i : nat) (k : string) (v : JsValue) : M unit :=
  fun s => match array s result !! i with
           | Some l => set_property l k v s
           | None => (Throw (TypeError "Cannot set properties of undefined"), s)
           end.

(** [a > b] on two strings (code units in lexicographic order), false on
    other operands here. *)
Definition later_than (a b : JsValue) : bool :=
  match a, b with
  | VStr x, VStr y => String.ltb y x
  | _, _ => false
  end.

(** ** Vocabulary of the statements *)

(** The values of property [k] across the store's tasks, in order. *)
Definition field (k : string) (s : State) : list JsValue :=
  (fun task : Obj => get task k) <$> view s.

(** The address [new_object] picks. *)
Definition next_object (s : State) : loc := fresh (dom (objs s) ∪ referenced s).

(** The document [saveToFile] writes in state [s]. *)
Definition saved_document (s : State) : Document :=
  {| doc_tasks := Some (json_object <$> view s);
     doc_nextId := Some (nextId s);
     doc_lastSaved := Some (toISOString (clock s (ticks s))) |}.

(** The outcome of a method that ends by saving: the value, unless the
    write fails. *)
Definition after_save {A} (s : State) (a : A) : Outcome A :=
  match writeError s with
  | Some c => Throw (SystemError c)
  | None => Return a
  end.

(** Every task of [ts] has a numeric id below [bound]. *)
Definition ids_below (bound : Z) (ts : list Obj) : Prop :=
  Forall (fun task => exists n, get task "id" = VNum n /\ (n < bound)%Z) ts.

(** The properties [updateTask] sets itself, whatever [updates] holds. *)
Definition protected : list string := ["id"; "createdAt"; "updatedAt"].

(** A record that [JSON.stringify] and [JSON.parse] give back as it is:
    no property holds [undefined] or a [Date] object. *)
Definition json_stable (o : Obj) : Prop :=
  forall k v, o !! k = Some v -> json_value v = Some v.

(** The record of a task that [markAsCompleted] changes when the clock
    reads [t]. *)
Definition completed_at (t : Z) (task : Obj) : Obj :=
  <["updatedAt" := VStr (toISOString t)]> (<["status" := VStr "completed"]> task).

(** The state after the loop of [markAsCompleted] changed the task at [l]. *)
Definition marked (l : loc) (s : State) : State :=
  set_objs (<[l := completed_at (clock s (ticks s)) (deref s l)]> (objs s))
           (set_ticks (S (ticks s)) s).

(** The id [id] refers to the task at [l]: [l] is the first reference in
    [this.tasks] to a task whose id is [id]. *)
Definition refers_to (id : Z) (s : State) (l : loc) : Prop :=
  exists i,
    this_tasks s !! i = Some l
    /\ get (deref s l) "id" = VNum id
    /\ forall j l', (j < i)%nat -> this_tasks s !! j = Some l' ->
          get (deref s l') "id" <> VNum id.

(** [s'] differs from [s] in its task objects and the clock readings taken
    only. *)
Definition same_instance (s s' : State) : Prop :=
  tasks s' = tasks s /\ arrs s' = arrs s /\ nextId s' = nextId s
  /\ file s' = file s /\ writeError s' = writeError s /\ clock s' = clock s.

(** How many tasks of [ts] have in property [k] a value whose property key
    is [name] (for a string value: the string [name] itself). *)
Definition count_key (k name : string) (ts : list Obj) : nat :=
  length (filter (fun task => propertyKey (get task k) = Some name) ts).

(** ** Concrete worlds and stores *)

(** A world before any TaskManager exists: an empty heap, the given data
    file and clock, a file system that accepts [mkdir] and writes. *)
Definition world (f : FileState) (clk : nat -> Z) : State :=
  {| tasks := 0; nextId := 0; objs := ∅; arrs := ∅; file := f;
     mkdirError := None; writeError := None; clock := clk; ticks := 0 |}.

(** The state after [new TaskManager()]'s field initialisers ran in [w]. *)
Definition new_TaskManager (w : State) : State := final (constructor w).

(** A new TaskManager that has loaded what [s] saved. *)
Definition reloaded (s : State) : State :=
  final (loadFromFile (new_TaskManager (final (saveToFile s)))).

(** The argument [{ title: "write" }]. *)
Definition example_taskData : Obj := <["title" := VStr "write"]> ∅.

(** The store after one [addTask({ title: "write" })] on a new store, under
    the given clock and with no data file yet. *)
Definition store_one (clk : nat -> Z) : State :=
  final (addTask example_taskData (new_TaskManager (world Missing clk))).

(** The task [store_one] holds when the clock always reads 0. *)
Definition example_task : Obj :=
  task_literal 1 example_taskData (toISOString 0) (toISOString 0).

(** Updates that name a status, and an id and a creation time. *)
Definition example_updates : Obj :=
  <["status" := VStr "completed"]> (<["id" := VNum 99]> (<["createdAt" := VStr "never"]> ∅)).

(** Updates outside the documented domains. *)
Definition invalid_updates : Obj :=
  <["title" := VStr ""]> (<["status" := VStr "archived"]> ∅).

(** A task as the demo driver creates it, its due date a [Date] object. *)
Definition dated_taskData : Obj := <["title" := VStr "learn"]> (<["dueDate" := VDate 5]> ∅).

(** The store after [addTask(dated_taskData)] on a new store. *)
Definition store_dated : State :=
  final (addTask dated_taskData (new_TaskManager (world Missing (fun _ => 0%Z)))).

(** A store of two tasks, neither with a due date. *)
Definition store_two_dateless : State :=
  let s0 := new_TaskManager (world Missing (fun _ => 0%Z)) in
  let s1 := final (addTask (<["title" := VStr "a"]> ∅) s0) in
  final (addTask (<["title" := VStr "b"]> ∅) s1).

(** A store of two tasks, the first completed, the second pending. *)
Definition store_first_completed : State :=
  let s0 := new_TaskManager (world Missing (fun n => Z.of_nat n)) in
  let s1 := final (addTask (<["title" := VStr "a"]> ∅) s0) in
  let s2 := final (addTask (<["title" := VStr "b"]> ∅) s1) in
  final (markAsCompleted [1%Z] s2).

(** A store of four tasks: two completed, one in progress, one pending. *)
Definition store_four : State :=
  let s0 := new_TaskManager (world Missing (fun n => Z.of_nat n)) in
  let s1 := final (addTask (<["title" := VStr "a"]> ∅) s0) in
  let s2 := final (addTask (<["title" := VStr "b"]> ∅) s1) in
  let s3 := final (addTask (<["title" := VStr "c"]> ∅) s2) in
  let s4 := final (addTask (<["title" := VStr "d"]> ∅) s3) in
  let s5 := final (markAsCompleted [1; 2]%Z s4) in
  final (updateTask 3 (<["status" := VStr "in-progress"]> ∅) s5).

(** [getTasks()] and [getTasks({ sortBy: "dueDate" })]. *)
Definition no_filters : Filters :=
  {| f_status := None; f_priority := None; f_tag := None; f_sortBy := None |}.

Definition by_dueDate : Filters :=
  {| f_status := None; f_priority := None; f_tag := None; f_sortBy := Some "dueDate" |}.

(** [getTasks({ status })]. *)
Definition only_status (status : string) : Filters :=
  {| f_status := Some status; f_priority := None; f_tag := None; f_sortBy := None |}.

(** ** The intended order by due date *)

Section DueOrder.

Variable Date_parse : string -> option Z.

(** The time a task is due, [None] for a task without a due date. *)
Definition due (task : Obj) : option Z :=
  if truthy (get task "dueDate") then new_Date Date_parse (get task "dueDate") else None.

(** A due date that is set denotes a time. *)
Definition well_dated (task : Obj) : Prop :=
  truthy (get task "dueDate") = true -> is_Some (new_Date Date_parse (get task "dueDate")).

(** [a] may stand before [b]: a task with a due date before every task
    without one, two tasks with a due date by time. *)
Definition due_le (a b : Obj) : Prop :=
  match due a, due b with
  | Some ta, Some tb => (ta <= tb)%Z
  | Some _, None => True
  | None, Some _ => False
  | None, None => True
  end.

(** The task is overdue at the time [now]: its due date is set and
    denotes a time before [now], and its status is not completed. *)
Definition overdue_at (now : Z) (task : Obj) : Prop :=
  match due task with
  | Some t => (t < now)%Z
  | None => False
  end
  /\ get task "status" <> VStr "completed".

#[global] Instance overdue_at_dec now task : Decision (overdue_at now task).
Proof. unfold overdue_at. destruct (due task); apply _. Defined.

End DueOrder.


(** ** Invariants of the store *)

(** No two tasks of the store have the same id, and every id is a number
    below [nextId]. *)
Definition unique_ids (s : State) : Prop :=
  NoDup (field "id" s) /\ ids_below (nextId s) (view s).

(** The data file holds the store as it is in memory: the document that
    [saveToFile] would write now, whatever its [lastSaved]. *)
Definition in_sync (s : State) : Prop :=
  exists lastSaved,
    file s = Readable (Json {| doc_tasks := Some (json_object <$> view s);
                               doc_nextId := Some (nextId s);
                               doc_lastSaved := Some lastSaved |}).

(** ** searchTasks *)

Section Search.

(** [String.prototype.toLowerCase], which follows the case mappings of
    Unicode. *)
Variable toLowerCase : string -> string.

(** [task.k.toLowerCase()] for the value of property [k]: only a string has
    the method. *)
Definition lowered (k : string) (v : JsValue) : Outcome string :=
  match v with
  | VStr text => Return (toLowerCase text)
  | VUndefined =>
      Throw (TypeError "Cannot read properties of undefined (reading 'toLowerCase')")
  | VNull => Throw (TypeError "Cannot read properties of null (reading 'toLowerCase')")
  | VBool _ | VNum _ | VDate _ | VArr _ =>
      Throw (TypeError ("task." ++ k ++ ".toLowerCase is not a function"))
  end.

(** [task.tags.some((tag) => tag.toLowerCase().includes(lowerKeyword))]:
    only an array has the method. *)
Definition some_tag (tags : JsValue) (lowerKeyword : string) : Outcome bool :=
  match tags with
  | VArr l => Return (existsb (fun tag => is_substring lowerKeyword (toLowerCase tag)) l)
  | VUndefined => Throw (TypeError "Cannot read properties of undefined (reading 'some')")
  | VNull => Throw (TypeError "Cannot read properties of null (reading 'some')")
  | VBool _ | VNum _ | VStr _ | VDate _ =>
      Throw (TypeError "task.tags.some is not a function")
  end.

(** The callback of [searchTasks]: the three tests joined by [||], each
    evaluated only when those before it were false. *)
Definition matches (lowerKeyword : string) (task : Obj) : Outcome bool :=
  match lowered "title" (get task "title") with
  | Throw e => Throw e
  | Return title =>
      if is_substring lowerKeyword title then Return true
      else
        match lowered "description" (get task "description") with
        | Throw e => Throw e
        | Return description =>
            if is_substring lowerKeyword description then Return true
            else some_tag (get task "tags") lowerKeyword
        end
  end.

(** [searchTasks]: the result is a new array of references to the store's
    task objects. *)
Definition searchTasks (keyword : string) : M loc :=
  let lowerKeyword := toLowerCase keyword in
  let! found :=
    (fun s => lift (filter_throwing (fun l => matches lowerKeyword (deref s l))
                                    (this_tasks s)) s) in
  new_array found.

(** The texts of a task that a search looks at: its title, its
    description, its tags. *)
Definition texts (task : Obj) : list string :=
  (match get task "title" with VStr text => [text] | _ => [] end
   ++ match get task "description" with VStr text => [text] | _ => [] end
   ++ match get task "tags" with VArr l => l | _ => [] end)%list.

(** Some text of the task contains the keyword, case aside. *)
Definition mentions (keyword : string) (task : Obj) : bool :=
  existsb (fun text => is_substring (toLowerCase keyword) (toLowerCase text)) (texts task).

End Search.

(** The value is a string, respectively an array. *)
Definition is_string (v : JsValue) : Prop :=
  match v with VStr _ => True | _ => False end.
Definition is_array (v : JsValue) : Prop :=
  match v with VArr _ => True | _ => False end.

#[global] Instance is_string_dec v : Decision (is_string v).
Proof. destruct v; apply _. Defined.
#[global] Instance is_array_dec v : Decision (is_array v).
Proof. destruct v; apply _. Defined.

(** A task whose title and description are strings and whose tags are an
    array of strings. *)
Definition searchable (task : Obj) : Prop :=
  is_string (get task "title") /\ is_string (get task "description")
  /\ is_array (get task "tags").

#[global] Instance searchable_dec task : Decision (searchable task).
Proof. unfold searchable. apply _. Defined.

(** [toLowerCase] on texts whose letters are those of ASCII. *)
Definition lower_ascii (c : ascii) : ascii :=
  let n := nat_of_ascii c in
  if ((65 <=? n) && (n <=? 90))%nat then ascii_of_nat (n + 32) else c.

Fixpoint toLowerCase_ascii (text : string) : string :=
  match text with
  | EmptyString => EmptyString
  | String c rest => String (lower_ascii c) (toLowerCase_ascii rest)
  end.

(** The store after [addTask({ title: 5 })] on a new store. *)
Definition store_numeric_title : State :=
  final (addTask (<["title" := VNum 5]> ∅) (new_TaskManager (world Missing (fun _ => 0%Z)))).

(** ** The orders and filters of getTasks *)

(** [getTasks({ sortBy })] and [getTasks({ tag })]. *)
Definition only_sortBy (sortBy : string) : Filters :=
  {| f_status := None; f_priority := None; f_tag := None; f_sortBy := Some sortBy |}.

Definition only_tag (tag : string) : Filters :=
  {| f_status := None; f_priority := None; f_tag := Some tag; f_sortBy := None |}.

(** The order by a numeric key, larger keys first, on elements that have
    one. *)
Definition key_ge {A} (key : A -> option Z) (a b : A) : Prop :=
  match key a, key b with
  | Some x, Some y => (y <= x)%Z
  | _, _ => False
  end.

(** The weight of a task's priority: 3, 2, 1 for high, medium, low. *)
Definition weight (task : Obj) : option Z := priorityOrder (get task "priority").

(** The place of a priority in the order high, medium, low; any other
    value comes last. *)
Definition priority_place (v : JsValue) : nat :=
  if decide (v = VStr "high") then 0
  else if decide (v = VStr "medium") then 1
  else if decide (v = VStr "low") then 2
  else 3.

(** [a] may stand before [b] in the order by priority: a high task before
    every task, a medium task before the medium and the low ones, a low
    task before the low ones. *)
Definition priority_before (a b : Obj) : Prop :=
  (priority_place (get a "priority") <= priority_place (get b "priority"))%nat.

(** The priority of the task is one of the strings high, medium and low. *)
Definition has_priority (task : Obj) : Prop :=
  get task "priority" ∈ [VStr "high"; VStr "medium"; VStr "low"].

(** The time a task was created, when its [createdAt] denotes one. *)
Definition created (Date_parse : string -> option Z) (task : Obj) : option Z :=
  new_Date Date_parse (get task "createdAt").

(** The task has [tag] among its tags. *)
Definition tagged (tag : string) (task : Obj) : Prop :=
  match get task "tags" with
  | VArr l => tag ∈ l
  | _ => False
  end.

#[global] Instance tagged_dec tag task : Decision (tagged tag task).
Proof. unfold tagged. destruct (get task "tags"); apply _. Defined.

(** The task passes the filter by status, by priority, by tag, when that
    filter is given. *)
Definition status_ok (filters : Filters) (task : Obj) : Prop :=
  match given (f_status filters) with
  | Some status => get task "status" = VStr status
  | None => True
  end.

Definition priority_ok (filters : Filters) (task : Obj) : Prop :=
  match given (f_priority filters) with
  | Some priority => get task "priority" = VStr priority
  | None => True
  end.

Definition tag_ok (filters : Filters) (task : Obj) : Prop :=
  match given (f_tag filters) with
  | Some tag => tagged tag task
  | None => True
  end.

#[global] Instance status_ok_dec filters task : Decision (status_ok filters task).
Proof. unfold status_ok. destruct (given (f_status filters)); apply _. Defined.
#[global] Instance priority_ok_dec filters task : Decision (priority_ok filters task).
Proof. unfold priority_ok. destruct (given (f_priority filters)); apply _. Defined.
#[global] Instance tag_ok_dec filters task : Decision (tag_ok filters task).
Proof. unfold tag_ok. destruct (given (f_tag filters)); apply _. Defined.

(** The task passes every filter that is given. *)
Definition passes (filters : Filters) (task : Obj) : Prop :=
  status_ok filters task /\ priority_ok filters task /\ tag_ok filters task.

#[global] Instance passes_dec filters task : Decision (passes filters task).
Proof. unfold passes. apply _. Defined.

(** The value of property [k] of the task is, as a property key, one of
    [names]. *)
Definition named (k : string) (names : list string) (task : Obj) : Prop :=
  propertyKey (get task k) ∈ (Some <$> names).

#[global] Instance named_dec k names task : Decision (named k names task).
Proof. unfold named. apply _. Defined.


(** The store holding the task "write" after [updateTask(1, { tags: null })]. *)
Definition store_null_tags : State :=
  final (updateTask 1 (<["tags" := VNull]> ∅) (store_one (fun _ => 0%Z))).

(** A store of three tasks with the priorities low, high and medium, in
    this order. *)
Definition store_three_priorities : State :=
  let s0 := new_TaskManager (world Missing (fun n => Z.of_nat n)) in
  let s1 := final (addTask (<["title" := VStr "a"]> (<["priority" := VStr "low"]> ∅)) s0) in
  let s2 := final (addTask (<["title" := VStr "b"]> (<["priority" := VStr "high"]> ∅)) s1) in
  final (addTask (<["title" := VStr "c"]> ∅) s2).

(** The properties of a task that [addTask] creates. *)
Definition task_keys : gset string :=
  {[ "id"; "title"; "description"; "status"; "priority"; "createdAt"; "updatedAt";
     "tags"; "dueDate" ]}.

(** Task data that reaches for properties [addTask] sets itself, with an
    empty priority. *)
Definition overreaching_taskData : Obj :=
  <["title" := VStr "x"]> (<["status" := VStr "completed"]> (<["id" := VNum 99]>
  (<["priority" := VStr ""]> ∅))).

(** ** The menu of src/cli.js *)

(** What [parseInt] returns: an integer, NaN, or an infinity (for a numeral
    too long for a double). *)
Inductive JsNumber : Type :=
| Finite (n : Z)
| NaN
| Infinite (negative : bool).

(** The text of a number in a template literal. *)
Definition number_text (x : JsNumber) : string :=
  match x with
  | Finite n => pretty n
  | NaN => "NaN"
  | Infinite false => "Infinity"
  | Infinite true => "-Infinity"
  end.

(** [updateTask] and [deleteTask] for any number as id: [task.id === id] is
    false, and [task.id !== id] true, for every task when [id] is NaN or an
    infinity. *)
Definition updateTask_number (id : JsNumber) (updates : Obj) : M loc :=
  match id with
  | Finite n => updateTask n updates
  | NaN | Infinite _ => throw (Error_ ("任务 ID " ++ number_text id ++ " 不存在"))
  end.

Definition deleteTask_number (id : JsNumber) : M bool :=
  match id with
  | Finite n => deleteTask n
  | NaN | Infinite _ =>
      let! kept := gets this_tasks in
      let! a := new_array kept in
      let! _ := modify (set_tasks a) in
      ret false
  end.

(** How a run of [handleChoice] ends: by [process.exit(0)]; pending for
    ever on a question that gets no answer; or rejected, which the top
    level hands to [console.error]. *)
Inductive Session : Type :=
| Exited
| Waiting
| Rejected (e : Error).

(** [await] of a call inside [handleChoice]: when the call throws,
    [handleChoice] is rejected there. *)
Definition awaited {A} (r : Outcome A * State) (next : State -> Session * State) :
    Session * State :=
  match r with
  | (Return _, s') => next s'
  | (Throw e, s') => (Rejected e, s')
  end.

Section Cli.

Variable Date_parse : string -> option Z.
Variable toLowerCase : string -> string.
Variable parseInt : string -> JsNumber.

(** [handleChoice], run on the lines the user will type, each the answer to
    the next [question].  What it writes to the console is not part of
    the state. *)
Fixpoint handleChoice (answers : list string) (s : State) : Session * State :=
  match answers with
  | [] => (Waiting, s)
  | choice :: answers =>
      if String.eqb choice "1" then
        match answers with
        | title :: desc :: priority :: answers =>
            awaited (addTask (<["title" := VStr title]> (<["description" := VStr desc]>
                                (<["priority" := VStr priority]> ∅))) s)
                    (handleChoice answers)
        | _ => (Waiting, s)
        end
      else if String.eqb choice "2" then
        awaited (getTasks Date_parse no_filters s) (handleChoice answers)
      else if String.eqb choice "3" then
        match answers with
        | updateId :: newStatus :: answers =>
            awaited (updateTask_number (parseInt updateId) (<["status" := VStr newStatus]> ∅) s)
                    (handleChoice answers)
        | _ => (Waiting, s)
        end
      else if String.eqb choice "4" then
        match answers with
        | deleteId :: answers =>
            awaited (deleteTask_number (parseInt deleteId) s) (handleChoice answers)
        | _ => (Waiting, s)
        end
      else if String.eqb choice "5" then
        match answers with
        | keyword :: answers =>
            awaited (searchTasks toLowerCase keyword s) (handleChoice answers)
        | _ => (Waiting, s)
        end
      else if String.eqb choice "6" then
        awaited (getStatistics Date_parse s) (handleChoice answers)
      else if String.eqb choice "0" then (Exited, s)
      else handleChoice answers s
  end.

End Cli.

(** [parseInt] on ASCII texts: blanks at the start are skipped, then a
    sign and the prefix 0x are read, then the longest run of digits of the
    radix; without a digit the result is NaN.  (The value is exact below
    2^53.) *)
Definition is_blank (c : ascii) : bool :=
  let n := nat_of_ascii c in
  ((n =? 32) || ((9 <=? n) && (n <=? 13)))%nat.

Fixpoint trim_start (text : string) : string :=
  match text with
  | EmptyString => EmptyString
  | String c rest => if is_blank c then trim_start rest else text
  end.

Definition digit_value (radix : nat) (c : ascii) : option nat :=
  let n := nat_of_ascii c in
  let d := if ((48 <=? n) && (n <=? 57))%nat then Some (n - 48)%nat
           else if ((97 <=? n) && (n <=? 122))%nat then Some (n - 87)%nat
           else if ((65 <=? n) && (n <=? 90))%nat then Some (n - 55)%nat
           else None in
  match d with
  | Some v => if (v <? radix)%nat then Some v else None
  | None => None
  end.

Fixpoint parse_digits (radix : nat) (acc : option Z) (text : string) : option Z :=
  match text with
  | EmptyString => acc
  | String c rest =>
      match digit_value radix c with
      | Some v => parse_digits radix (Some (Z.of_nat radix * default 0 acc + Z.of_nat v)%Z) rest
      | None => acc
      end
  end.

Definition parseInt_ascii (text : string) : JsNumber :=
  let text := trim_start text in
  let '(negative, text) :=
    match text with
    | String "-" rest => (true, rest)
    | String "+" rest => (false, rest)
    | _ => (false, text)
    end in
  let '(radix, text) :=
    match text with
    | String "0" (String "x" rest) | String "0" (String "X" rest) => (16%nat, rest)
    | _ => (10%nat, text)
    end in
  match parse_digits radix None text with
  | Some n => Finite (if negative then - n else n)%Z
  | None => NaN
  end.

(** The day number, counted from 1970-01-01, of a day of the proleptic
    Gregorian calendar (ECMAScript MakeDay). *)
Definition days_from_civil (y m d : Z) : Z :=
  let y := (if (m <=? 2)%Z then y - 1 else y)%Z in
  let era := (y / 400)%Z in
  let yoe := (y - era * 400)%Z in
  let doy := ((153 * (if (2 <? m)%Z then m - 3 else m + 9) + 2) / 5 + d - 1)%Z in
  let doe := (yoe * 365 + yoe / 4 - yoe / 100 + doy)%Z in
  (era * 146097 + doe - 719468)%Z.

(** [Date.parse] on the texts that [toISOString] writes for the years 0 to
    9999 ([YYYY-MM-DDTHH:mm:ss.sssZ]): the time value the text was written
    from.  Every other text is left undated; the store itself only ever
    parses what [JSON.stringify] made of its own dates. *)
Definition Date_parse_ISO (text : string) : option Z :=
  let number start len := parse_digits 10 None (substring start len text) in
  match number 0%nat 4%nat, number 5%nat 2%nat, number 8%nat 2%nat,
        number 11%nat 2%nat, number 14%nat 2%nat, number 17%nat 2%nat,
        number 20%nat 3%nat with
  | Some y, Some mo, Some d, Some h, Some mi, Some sec, Some ms =>
      let t := (days_from_civil y mo d * msPerDay
                + h * 3600000 + mi * 60000 + sec * 1000 + ms)%Z in
      if String.eqb (toISOString t) text then Some t else None
  | _, _, _, _, _, _, _ => None
  end.

(** The errors a session of the menu can be rejected with: the empty title
    of [addTask], the unknown id of [updateTask], a failure of the file
    system. *)
Definition expected_rejection (e : Error) : Prop :=
  e = Error_ "任务标题不能为空"
  \/ (exists id, e = Error_ ("任务 ID " ++ id ++ " 不存在"))
  \/ (exists c, e = SystemError c).

(** A data file that holds one task, with the id 1, and no [nextId]. *)
Definition file_without_nextId : FileState :=
  Readable (Json {| doc_tasks := Some [<["id" := VNum 1]> (<["title" := VStr "old"]> ∅)];
                    doc_nextId := None;
                    doc_lastSaved := None |}).

(** The store of a new TaskManager that has loaded that file. *)
Definition store_without_nextId : State :=
  final (loadFromFile (new_TaskManager (world file_without_nextId (fun _ => 0%Z)))).

(** The store of two tasks, both with a due date: the first due at time 9,
    the second at time 5. *)
Definition store_two_dated : State :=
  let s0 := new_TaskManager (world Missing (fun _ => 0%Z)) in
  let s1 := final (addTask (<["title" := VStr "a"]> (<["dueDate" := VDate 9]> ∅)) s0) in
  final (addTask (<["title" := VStr "b"]> (<["dueDate" := VDate 5]> ∅)) s1).

(** A session of the menu in the store that holds the task "write": the
    user adds the task "Read", searches for "rea" and then updates the
    id 9. *)
Definition session_answers : list string :=
  ["1"; "Read"; ""; "high"; "5"; "rea"; "3"; "9"; "completed"].

Definition session_run : Session * State :=
  handleChoice (fun _ => None) toLowerCase_ascii parseInt_ascii session_answers
    (store_one (fun _ => 0%Z)).

(** * Properties *)

(** ** Dates as ISO text *)

Example toISOString_epoch : toISOString 0 = "1970-01-01T00:00:00.000Z".
Proof. reflexivity. Qed.

Example toISOString_2023 : toISOString 1700000000123 = "2023-11-14T22:13:20.123Z".
Proof. vm_compute. reflexivity. Qed.

Example toISOString_leap : toISOString 1709251199999 = "2024-02-29T23:59:59.999Z".
Proof. vm_compute. reflexivity. Qed.

Example toISOString_before_epoch : toISOString (-1) = "1969-12-31T23:59:59.999Z".
Proof. vm_compute. reflexivity. Qed.

(** ** Running the primitives *)

Lemma try_catch_rethrow {A} (m : M A) (s : State) :
  try_catch m (fun error => throw error) s = m s.
Proof. unfold try_catch, throw. destruct (m s) as [[a|e] s']; reflexivity. Qed.

Lemma saveToFile_run (s : State) :
  saveToFile s =
  match writeError s with
  | Some c => (Throw (SystemError c), set_ticks (S (ticks s)) s)
  | None => (Return tt, set_file (Readable (Json (saved_document s))) (set_ticks (S (ticks s)) s))
  end.
Proof.
  unfold saveToFile. rewrite try_catch_rethrow.
  unfold bind, gets, now_ISO, bind, new_Date_now, ret, fs_writeFile; simpl.
  destruct (writeError s); reflexivity.
Qed.

(** Saving leaves the instance and the heap alone. *)
Lemma saveToFile_frame (s : State) :
  let s' := final (saveToFile s) in
  tasks s' = tasks s /\ nextId s' = nextId s /\ objs s' = objs s /\ arrs s' = arrs s.
Proof. rewrite saveToFile_run. destruct (writeError s); simpl; auto. Qed.

Lemma elem_of_referenced (s : State) (a : loc) (arr : list loc) (l : loc) :
  arrs s !! a = Some arr -> l ∈ arr -> l ∈ referenced s.
Proof.
  intros Ha Hl. unfold referenced. apply elem_of_union_list.
  exists (list_to_set arr). split.
  - apply list_elem_of_fmap. exists (a, arr). split; [reflexivity|].
    by apply elem_of_map_to_list.
  - by apply elem_of_list_to_set.
Qed.

Lemma this_tasks_referenced (s : State) (l : loc) :
  l ∈ this_tasks s -> l ∈ referenced s.
Proof.
  unfold this_tasks, array. destruct (arrs s !! tasks s) as [arr|] eqn:Ha; simpl.
  - by apply elem_of_referenced with (tasks s).
  - intros H. by apply elem_of_nil in H.
Qed.

Lemma next_object_unused (s : State) : objs s !! next_object s = None.
Proof.
  apply not_elem_of_dom. intros H.
  apply (is_fresh (dom (objs s) ∪ referenced s)). apply elem_of_union. by left.
Qed.

Lemma next_object_unreferenced (s : State) : next_object s ∉ this_tasks s.
Proof.
  intros H. apply (is_fresh (dom (objs s) ∪ referenced s)).
  apply elem_of_union. right. by apply this_tasks_referenced.
Qed.

(** Adding an object at an unreferenced address changes no task of the
    store. *)
Lemma fmap_deref_fresh (s s' : State) (l : loc) (o : Obj) (ls : list loc) :
  objs s' = <[l := o]> (objs s) -> l ∉ ls -> deref s' <$> ls = deref s <$> ls.
Proof.
  intros Ho Hl. apply list_fmap_ext. intros i l0 Hi.
  unfold deref. rewrite Ho, lookup_insert_ne; [reflexivity|].
  intros ->. apply Hl. by apply list_elem_of_lookup_2 in Hi.
Qed.

Lemma new_TaskManager_empty (w : State) :
  view (new_TaskManager w) = [] /\ nextId (new_TaskManager w) = 1%Z.
Proof.
  unfold new_TaskManager, constructor, bind, new_array, modify, view, this_tasks, array; simpl.
  by rewrite lookup_insert_eq.
Qed.

(** ** Loading *)

(** [new_objects] allocates one object per element, in order, and keeps
    every object the heap already held. *)
Lemma new_objects_run (os : list Obj) (s : State) :
  exists ls h,
    new_objects os s = (Return ls, set_objs h s)
    /\ objs s ⊆ h
    /\ deref (set_objs h s) <$> ls = os.
Proof.
  revert s. induction os as [|o os IH]; intros s.
  - exists [], (objs s). split; [by destruct s|]. split; reflexivity.
  - destruct (IH (set_objs (<[next_object s := o]> (objs s)) s)) as (ls & h & Hrun & Hsub & Hls).
    exists (next_object s :: ls), h. simpl in Hsub.
    assert (Hl : h !! next_object s = Some o).
    { eapply lookup_weaken; [|exact Hsub]. apply lookup_insert_eq. }
    split; [|split].
    + simpl. unfold bind at 1. unfold new_object at 1. fold (next_object s).
      unfold bind at 1. rewrite Hrun. reflexivity.
    + etrans; [|exact Hsub]. apply insert_subseteq, next_object_unused.
    + rewrite fmap_cons. f_equal; [|exact Hls].
      unfold deref; simpl. by rewrite Hl.
Qed.

(** What [loadFromFile] does, by the state of the file. *)
Lemma loadFromFile_missing (s : State) :
  file s = Missing -> loadFromFile s = (Return tt, s).
Proof.
  intros Hf. unfold loadFromFile, try_catch, bind, fs_readFile. rewrite Hf. reflexivity.
Qed.

Lemma loadFromFile_unreadable (s : State) (c : string) :
  file s = Unreadable c ->
  loadFromFile s = if bool_decide (c = "ENOENT") then (Return tt, s)
                   else (Throw (SystemError c), s).
Proof.
  intros Hf. unfold loadFromFile, try_catch, bind, fs_readFile. rewrite Hf. simpl.
  destruct (decide (c = "ENOENT")) as [->|Hc].
  - reflexivity.
  - rewrite !bool_decide_eq_false_2; [reflexivity|congruence|congruence].
Qed.

Lemma loadFromFile_malformed (s : State) :
  file s = Readable Malformed ->
  loadFromFile s = (Throw (SyntaxError "Unexpected token in JSON"), s).
Proof.
  intros Hf. unfold loadFromFile, try_catch, bind, fs_readFile. rewrite Hf. reflexivity.
Qed.

Lemma loadFromFile_json (s : State) (d : Document) :
  file s = Readable (Json d) ->
  exists s',
    loadFromFile s = (Return tt, s')
    /\ view s' = default [] (doc_tasks d)
    /\ nextId s' = nextId_or_1 (doc_nextId d)
    /\ file s' = file s.
Proof.
  intros Hf. unfold loadFromFile, try_catch, bind at 1, fs_readFile. rewrite Hf. simpl.
  unfold bind at 1, ret. unfold bind at 1.
  destruct (new_objects_run (default [] (doc_tasks d)) s) as (ls & h & Hrun & _ & Hls).
  rewrite Hrun. unfold bind, new_array, modify. simpl.
  eexists. split; [reflexivity|]. split; [|split; [reflexivity|exact Hf]].
  unfold view, this_tasks, array. simpl. rewrite lookup_insert_eq. simpl.
  exact Hls.
Qed.

(** ** C1: initialize *)

(** C1, where the code departs from it: [initialize] never throws.  With a
    readable document it loads it; in every other case (no file, but also
    an unreadable or a malformed file, or a failed mkdir) it completes
    normally and leaves the store as it was, empty for a new store.  A
    missing file never reaches the handler of [initialize], for
    [loadFromFile] returns normally on it: all that the handler catches,
    and reports as a first run, are the failures that C1 wants
    propagated. *)
Theorem initialize_never_throws (s : State) :
  outcome (initialize s) = Return tt
  /\ match mkdirError s, file s with
     | None, Readable (Json d) =>
         view (final (initialize s)) = default [] (doc_tasks d)
         /\ nextId (final (initialize s)) = nextId_or_1 (doc_nextId d)
     | _, _ => final (initialize s) = s
     end.
Proof.
  unfold initialize, try_catch, bind, fs_mkdir.
  destruct (mkdirError s) as [c|] eqn:Hm; [split; reflexivity|].
  destruct (file s) as [|c|[|d]] eqn:Hf.
  - rewrite (loadFromFile_missing s Hf). split; reflexivity.
  - rewrite (loadFromFile_unreadable s c Hf). case_bool_decide; split; reflexivity.
  - rewrite (loadFromFile_malformed s Hf). split; reflexivity.
  - destruct (loadFromFile_json s d Hf) as (s' & -> & Hv & Hn & _). simpl. auto.
Qed.

(** C1 does not hold of the code: on a new store whose data file holds
    malformed text, [loadFromFile] throws the [SyntaxError] of
    [JSON.parse], and [initialize] nevertheless returns normally. *)
Lemma initialize_swallows_malformed_file :
  outcome (loadFromFile (new_TaskManager (world (Readable Malformed) (fun _ => 0%Z))))
    = Throw (SyntaxError "Unexpected token in JSON")
  /\ outcome (initialize (new_TaskManager (world (Readable Malformed) (fun _ => 0%Z))))
    = Return tt.
Proof. split; reflexivity. Qed.

(** ** addTask *)

(** Integers up to 2^53 in magnitude are doubles: nothing is rounded. *)
Lemma nearest_double_exact (z : Z) : (Z.abs z <= 2 ^ 53)%Z -> nearest_double z = z.
Proof.
  intros Hz. destruct (decide (Z.abs z = 2 ^ 53)%Z) as [Heq|Hne].
  - assert (Hcases : (z = 2 ^ 53 \/ z = - 2 ^ 53)%Z) by lia.
    destruct Hcases as [->| ->]; reflexivity.
  - assert (Hlog : (Z.log2 (Z.abs z) - 52 <= 0)%Z).
    { destruct (decide (Z.abs z = 0)%Z) as [H0|H0]; [rewrite H0; simpl; lia|].
      assert (Z.log2 (Z.abs z) < 53)%Z by (apply Z.log2_lt_pow2; lia). lia. }
    unfold nearest_double. rewrite Z.max_l by lia.
    change (2 ^ 0)%Z with 1%Z. rewrite Z.mod_1_r, Z.div_1_r. simpl. lia.
Qed.

(** Below 2^53 the counter grows by one. *)
Lemma plus_one_exact (n : Z) : (Z.abs n < 2 ^ 53)%Z -> plus_one n = (n + 1)%Z.
Proof. intros Hn. apply nearest_double_exact. lia. Qed.

(** At 2^53 it does not move: 2^53 + 1 is no double, and the nearest one
    with an even significand is 2^53. *)
Example plus_one_at_2_53 :
  plus_one 9007199254740991 = 9007199254740992%Z
  /\ plus_one 9007199254740992 = 9007199254740992%Z
  /\ plus_one 9007199254740994 = 9007199254740996%Z.
Proof. repeat split; reflexivity. Qed.

(** Every task of [ts] has a numeric id below [bound], as a test. *)
Lemma ids_below_test (bound : Z) (ts : list Obj) :
  forallb (fun task => match get task "id" with VNum n => (n <? bound)%Z | _ => false end) ts
    = true ->
  ids_below bound ts.
Proof.
  unfold ids_below. intros Hall. apply Forall_forall. intros task Hin.
  rewrite forallb_forall in Hall. specialize (Hall task (proj1 (list_elem_of_In _ _) Hin)).
  simpl in Hall. destruct (get task "id") as [| | |n| | |]; try discriminate.
  exists n. split; [reflexivity|]. by apply Z.ltb_lt.
Qed.

(** What [addTask] does with a truthy title. *)
Lemma addTask_run (taskData : Obj) (s : State) :
  truthy (get taskData "title") = true ->
  exists s',
    addTask taskData s = (after_save s (next_object s), s')
    /\ this_tasks s' = (this_tasks s ++ [next_object s])%list
    /\ deref s' (next_object s)
       = task_literal (nextId s) taskData
           (toISOString (clock s (ticks s))) (toISOString (clock s (S (ticks s))))
    /\ view s'
       = (view s ++ [task_literal (nextId s) taskData
           (toISOString (clock s (ticks s))) (toISOString (clock s (S (ticks s))))])%list
    /\ nextId s' = plus_one (nextId s).
Proof.
  intros Htitle. unfold addTask. rewrite Htitle. simpl.
  unfold bind at 1, gets at 1. unfold bind at 1, modify at 1.
  unfold bind at 1, now_ISO at 1, bind at 1, new_Date_now at 1, ret at 1.
  unfold bind at 1, now_ISO at 1, bind at 1, new_Date_now at 1, ret at 1.
  unfold bind at 1, new_object at 1. simpl. fold (next_object s).
  unfold bind at 1, push, modify at 1. unfold bind. rewrite saveToFile_run. simpl.
  set (new := task_literal (nextId s) taskData
                (toISOString (clock s (ticks s))) (toISOString (clock s (S (ticks s))))).
  assert (Harr : forall s', tasks s' = tasks s ->
            arrs s' = <[tasks s := (this_tasks s ++ [next_object s])%list]> (arrs s) ->
            this_tasks s' = (this_tasks s ++ [next_object s])%list).
  { intros s' Ht Ha. unfold this_tasks at 1, array. rewrite Ht, Ha, lookup_insert_eq. reflexivity. }
  assert (Hobj : forall s', objs s' = <[next_object s := new]> (objs s) ->
            deref s' (next_object s) = new).
  { intros s' Ho. unfold deref. rewrite Ho, lookup_insert_eq. reflexivity. }
  assert (Hview : forall s', tasks s' = tasks s ->
            arrs s' = <[tasks s := (this_tasks s ++ [next_object s])%list]> (arrs s) ->
            objs s' = <[next_object s := new]> (objs s) ->
            view s' = (view s ++ [new])%list).
  { intros s' Ht Ha Ho. unfold view. rewrite (Harr s' Ht Ha), fmap_app. simpl.
    rewrite (Hobj s' Ho). f_equal.
    eapply fmap_deref_fresh; [exact Ho|apply next_object_unreferenced]. }
  unfold after_save.
  destruct (writeError s) as [c|]; eexists; (split; [reflexivity|]);
    (split; [apply Harr; reflexivity|]); (split; [apply Hobj; reflexivity|]);
    (split; [apply Hview; reflexivity|reflexivity]).
Qed.

(** The concrete store [store_one] holds [example_task], whose id is 1. *)
Lemma store_one_task : view (store_one (fun _ => 0%Z)) !! 0%nat = Some example_task.
Proof.
  destruct (addTask_run example_taskData (new_TaskManager (world Missing (fun _ => 0%Z))))
    as (s' & Hrun & _ & _ & Hview & _); [reflexivity|].
  unfold store_one. rewrite Hrun. simpl.
  rewrite Hview. destruct (new_TaskManager_empty (world Missing (fun _ => 0%Z))) as [-> ->].
  reflexivity.
Qed.

Lemma task_literal_fields (id : Z) (taskData : Obj) (createdAt updatedAt : string) :
  get (task_literal id taskData createdAt updatedAt) "id" = VNum id
  /\ get (task_literal id taskData createdAt updatedAt) "title" = get taskData "title"
  /\ get (task_literal id taskData createdAt updatedAt) "status" = VStr "pending"
  /\ get (task_literal id taskData createdAt updatedAt) "createdAt" = VStr createdAt
  /\ get (task_literal id taskData createdAt updatedAt) "updatedAt" = VStr updatedAt.
Proof. unfold task_literal, get at 1 3 4 5 6. by simplify_map_eq. Qed.

(** ** C5: addTask *)




(** ** updateTask *)

Lemma findIndex_Some (id : Z) (s : State) (i : nat) (l : loc) :
  findIndex id s = Some (i, l) ->
  this_tasks s !! i = Some l /\ get (deref s l) "id" = VNum id.
Proof.
  unfold findIndex. intros H. apply list_find_Some in H as (Hi & Hid & _). auto.
Qed.

Lemma findIndex_None (id : Z) (s : State) :
  Forall (fun task => get task "id" <> VNum id) (view s) -> findIndex id s = None.
Proof.
  intros H. unfold findIndex. apply list_find_None.
  unfold view in H. rewrite Forall_fmap in H. exact H.
Qed.

(** What [updateTask] does when the id is found at index [i]: a new object
    holding the merged record takes the place of the old one. *)
Lemma updateTask_found (id : Z) (updates : Obj) (s : State) (i : nat) (l : loc) :
  findIndex id s = Some (i, l) ->
  exists s',
    updateTask id updates s = (after_save s (next_object s), s')
    /\ this_tasks s' = <[i := next_object s]> (this_tasks s)
    /\ deref s' (next_object s)
       = merged (deref s l) updates (toISOString (clock s (ticks s)))
    /\ view s'
       = <[i := merged (deref s l) updates (toISOString (clock s (ticks s)))]> (view s)
    /\ nextId s' = nextId s.
Proof.
  intros Hfind.
  unfold updateTask, bind at 1, gets at 1. rewrite Hfind.
  unfold bind at 1, gets at 1. unfold bind at 1, now_ISO, bind at 1, new_Date_now, ret.
  unfold bind at 1, new_object at 1. fold (next_object s). simpl.
  unfold bind at 1, modify at 1. unfold bind. rewrite saveToFile_run. simpl.
  set (new := merged (deref s l) updates (toISOString (clock s (ticks s)))).
  assert (Harr : forall s', tasks s' = tasks s ->
            arrs s' = <[tasks s := <[i := next_object s]> (this_tasks s)]> (arrs s) ->
            this_tasks s' = <[i := next_object s]> (this_tasks s)).
  { intros s' Ht Ha. unfold this_tasks at 1, array. rewrite Ht, Ha, lookup_insert_eq. reflexivity. }
  assert (Hobj : forall s', objs s' = <[next_object s := new]> (objs s) ->
            deref s' (next_object s) = new).
  { intros s' Ho. unfold deref. rewrite Ho, lookup_insert_eq. reflexivity. }
  assert (Hview : forall s', tasks s' = tasks s ->
            arrs s' = <[tasks s := <[i := next_object s]> (this_tasks s)]> (arrs s) ->
            objs s' = <[next_object s := new]> (objs s) ->
            view s' = <[i := new]> (view s)).
  { intros s' Ht Ha Ho. unfold view. rewrite (Harr s' Ht Ha), list_fmap_insert.
    rewrite (Hobj s' Ho). f_equal.
    eapply fmap_deref_fresh; [exact Ho|apply next_object_unreferenced]. }
  unfold after_save.
  destruct (writeError s) as [c|]; eexists; (split; [reflexivity|]);
    (split; [apply Harr; reflexivity|]); (split; [apply Hobj; reflexivity|]);
    (split; [apply Hview; reflexivity|reflexivity]).
Qed.

(** ** C7: updateTask with an id the store does not hold *)

(** C7: when no task of the store has the given id, [updateTask] throws
    the error "任务 ID <id> 不存在" and the state is exactly the one
    before the call. *)
Theorem updateTask_unknown_id (id : Z) (updates : Obj) (s : State) :
  Forall (fun task => get task "id" <> VNum id) (view s) ->
  updateTask id updates s = (Throw (Error_ ("任务 ID " ++ pretty id ++ " 不存在")), s).
Proof.
  intros H. unfold updateTask, bind, gets. rewrite (findIndex_None id s H). reflexivity.
Qed.

Lemma findIndex_first (id : Z) (s : State) (i : nat) (old : Obj) :
  view s !! i = Some old ->
  get old "id" = VNum id ->
  (forall j task, (j < i)%nat -> view s !! j = Some task -> get task "id" <> VNum id) ->
  exists l, findIndex id s = Some (i, l) /\ deref s l = old.
Proof.
  intros Hi Hid Hfirst. unfold view in Hi. rewrite list_lookup_fmap in Hi.
  apply fmap_Some in Hi as (l & Hl & ->).
  exists l. split; [|reflexivity].
  unfold findIndex. apply list_find_Some. split; [exact Hl|]. split; [exact Hid|].
  intros j l0 Hj Hlt. unfold has_id. apply (Hfirst j (deref s l0) Hlt).
  unfold view. by rewrite list_lookup_fmap, Hj.
Qed.

(** The merged record, property by property. *)
Lemma merged_protected (old updates : Obj) (stamp : string) :
  get (merged old updates stamp) "id" = get old "id"
  /\ get (merged old updates stamp) "createdAt" = get old "createdAt"
  /\ get (merged old updates stamp) "updatedAt" = VStr stamp.
Proof. unfold merged, get. by simplify_map_eq. Qed.

Lemma merged_provided (old updates : Obj) (stamp k : string) (v : JsValue) :
  k ∉ protected -> updates !! k = Some v -> merged old updates stamp !! k = Some v.
Proof.
  intros Hk Hv. unfold protected in Hk.
  rewrite !not_elem_of_cons in Hk. destruct Hk as (H1 & H2 & H3 & _).
  unfold merged. rewrite !lookup_insert_ne by congruence.
  by apply lookup_union_Some_l.
Qed.

Lemma merged_not_provided (old updates : Obj) (stamp k : string) :
  k ∉ protected -> updates !! k = None -> merged old updates stamp !! k = old !! k.
Proof.
  intros Hk Hv. unfold protected in Hk.
  rewrite !not_elem_of_cons in Hk. destruct Hk as (H1 & H2 & H3 & _).
  unfold merged. rewrite !lookup_insert_ne by congruence.
  by rewrite lookup_union_r.
Qed.

(** [updateTask] on the first task with the given id, in terms of the task
    records. *)
Lemma updateTask_at (id : Z) (updates : Obj) (s : State) (i : nat) (old : Obj) :
  view s !! i = Some old ->
  get old "id" = VNum id ->
  (forall j task, (j < i)%nat -> view s !! j = Some task -> get task "id" <> VNum id) ->
  exists l' s',
    updateTask id updates s = (after_save s l', s')
    /\ this_tasks s' !! i = Some l'
    /\ deref s' l' = merged old updates (toISOString (clock s (ticks s)))
    /\ view s' = <[i := merged old updates (toISOString (clock s (ticks s)))]> (view s)
    /\ nextId s' = nextId s.
Proof.
  intros Hi Hid Hfirst.
  destruct (findIndex_first id s i old Hi Hid Hfirst) as (l & Hfind & <-).
  destruct (updateTask_found id updates s i l Hfind) as (s' & Hrun & Harr & Hnew & Hview & Hn).
  exists (next_object s), s'. split; [exact Hrun|]. split; [|auto].
  rewrite Harr. apply list_lookup_insert_eq.
  apply findIndex_Some in Hfind as [Hl _]. by apply lookup_lt_Some in Hl.
Qed.

(** A store that holds a task with the given id holds a first one. *)
Lemma first_with_id (id : Z) (s : State) :
  Exists (fun task => get task "id" = VNum id) (view s) ->
  exists i old,
    view s !! i = Some old
    /\ get old "id" = VNum id
    /\ (forall j task, (j < i)%nat -> view s !! j = Some task -> get task "id" <> VNum id).
Proof.
  intros Hex. apply Exists_exists in Hex as (task & Hin & Hid).
  destruct (list_find_elem_of (fun task => get task "id" = VNum id) (view s) task Hin Hid)
    as [[i old] Hfind].
  apply list_find_Some in Hfind as (Hi & Hold & Hfirst).
  exists i, old. split; [exact Hi|]. split; [exact Hold|].
  intros j t Hj Ht. by apply (Hfirst j t).
Qed.

(** C7 at a concrete input: the store holds task 1 only, the call names
    id 2. *)
Lemma updateTask_unknown_id_witness :
  updateTask 2 (<["status" := VStr "completed"]> ∅) (store_one (fun _ => 0%Z))
  = (Throw (Error_ ("任务 ID " ++ pretty 2%Z ++ " 不存在")), store_one (fun _ => 0%Z)).
Proof.
  apply (updateTask_unknown_id 2 (<["status" := VStr "completed"]> ∅) (store_one (fun _ => 0%Z))).
  apply (bool_decide_unpack _). vm_compute. exact I.
Defined.

(** C7 evaluated: the message names the id. *)
Example updateTask_unknown_id_message :
  outcome (updateTask 2 (<["status" := VStr "completed"]> ∅) (store_one (fun _ => 0%Z)))
  = Throw (Error_ "任务 ID 2 不存在")
  /\ field "status"
       (final (updateTask 2 (<["status" := VStr "completed"]> ∅) (store_one (fun _ => 0%Z))))
     = [VStr "pending"].
Proof. split; vm_compute; reflexivity. Qed.

(** ** C6: what updateTask changes *)

(** C6, as amended: when the store holds a task with the given id,
    [updateTask] replaces the first such task (at index [i]) by the merged
    record and leaves every other task and [nextId] as they were.  The
    merged record keeps [id] and [createdAt] whatever [updates] holds,
    takes every other property that [updates] provides, keeps the old
    value of every property that [updates] does not provide, and has
    [updatedAt] set to the reading of the clock at the call.  (Nothing
    makes that reading later than the previous [updatedAt].) *)
Theorem updateTask_merges (id : Z) (updates : Obj) (s : State) :
  Exists (fun task => get task "id" = VNum id) (view s) ->
  exists i old l' new s',
    view s !! i = Some old
    /\ get old "id" = VNum id
    /\ updateTask id updates s = (after_save s l', s')
    /\ deref s' l' = new
    /\ view s' = <[i := new]> (view s)
    /\ nextId s' = nextId s
    /\ get new "id" = get old "id"
    /\ get new "createdAt" = get old "createdAt"
    /\ get new "updatedAt" = VStr (toISOString (clock s (ticks s)))
    /\ (forall k v, k ∉ protected -> updates !! k = Some v -> new !! k = Some v)
    /\ (forall k, k ∉ protected -> updates !! k = None -> new !! k = old !! k).
Proof.
  intros Hex. destruct (first_with_id id s Hex) as (i & old & Hi & Hid & Hfirst).
  destruct (updateTask_at id updates s i old Hi Hid Hfirst) as (l' & s' & Hrun & _ & Hnew & Hview & Hn).
  exists i, old, l', (merged old updates (toISOString (clock s (ticks s)))), s'.
  destruct (merged_protected old updates (toISOString (clock s (ticks s)))) as (H1 & H2 & H3).
  repeat (split; [assumption|]). split.
  - intros k v. apply merged_provided.
  - intros k. apply merged_not_provided.
Qed.

(** C6 at a concrete input: task 1 is updated with a status, and with an
    id and a creation time that are not taken over. *)
Lemma updateTask_merges_witness :
  exists i old l' new s',
    view (store_one (fun _ => 0%Z)) !! i = Some old
    /\ get old "id" = VNum 1
    /\ updateTask 1 example_updates (store_one (fun _ => 0%Z))
       = (after_save (store_one (fun _ => 0%Z)) l', s')
    /\ deref s' l' = new
    /\ view s' = <[i := new]> (view (store_one (fun _ => 0%Z)))
    /\ nextId s' = nextId (store_one (fun _ => 0%Z))
    /\ get new "id" = get old "id"
    /\ get new "createdAt" = get old "createdAt"
    /\ get new "updatedAt"
       = VStr (toISOString (clock (store_one (fun _ => 0%Z)) (ticks (store_one (fun _ => 0%Z)))))
    /\ (forall k v, k ∉ protected -> example_updates !! k = Some v -> new !! k = Some v)
    /\ (forall k, k ∉ protected -> example_updates !! k = None -> new !! k = old !! k).
Proof.
  apply (updateTask_merges 1 example_updates (store_one (fun _ => 0%Z))).
  apply (bool_decide_unpack _). vm_compute. exact I.
Defined.

(** C6, as stated, fails: a task created and updated within the same
    millisecond (the clock reads 5 each time) has after [updateTask] the
    [updatedAt] it had before, not a strictly greater one. *)
Lemma updateTask_same_millisecond :
  field "updatedAt" (store_one (fun _ => 5%Z)) = [VStr "1970-01-01T00:00:00.005Z"]
  /\ outcome (updateTask 1 (<["status" := VStr "completed"]> ∅) (store_one (fun _ => 5%Z)))
     = Return 1%nat
  /\ field "status"
       (final (updateTask 1 (<["status" := VStr "completed"]> ∅) (store_one (fun _ => 5%Z))))
     = [VStr "completed"]
  /\ field "updatedAt"
       (final (updateTask 1 (<["status" := VStr "completed"]> ∅) (store_one (fun _ => 5%Z))))
     = [VStr "1970-01-01T00:00:00.005Z"]
  /\ later_than (VStr "1970-01-01T00:00:00.005Z") (VStr "1970-01-01T00:00:00.005Z") = false.
Proof. repeat split; vm_compute; reflexivity. Qed.

(** ** C10: updateTask does not validate *)

(** C10: when the store holds a task with the given id, [updateTask]
    throws no validation error (it returns, unless the write to the file
    fails) and the stored task has every property of [updates] verbatim,
    [id], [createdAt] and [updatedAt] apart: an empty [title] is stored,
    although [addTask] rejects it, and so is any [status]. *)
Theorem updateTask_does_not_validate (id : Z) (updates : Obj) (s : State) :
  Exists (fun task => get task "id" = VNum id) (view s) ->
  exists i l' new s',
    updateTask id updates s = (after_save s l', s')
    /\ (writeError s = None -> outcome (updateTask id updates s) = Return l')
    /\ view s' !! i = Some new
    /\ deref s' l' = new
    /\ get new "id" = VNum id
    /\ (forall k v, k ∉ protected -> updates !! k = Some v -> get new k = v)
    /\ (updates !! "title" = Some (VStr "") -> get new "title" = VStr "")
    /\ (forall status, updates !! "status" = Some status -> get new "status" = status)
    /\ (forall taskData, get taskData "title" = VStr "" ->
          addTask taskData s = (Throw (Error_ "任务标题不能为空"), s)).
Proof.
  intros Hex. destruct (first_with_id id s Hex) as (i & old & Hi & Hid & Hfirst).
  destruct (updateTask_at id updates s i old Hi Hid Hfirst) as (l' & s' & Hrun & _ & Hnew & Hview & Hn).
  exists i, l', (merged old updates (toISOString (clock s (ticks s)))), s'.
  assert (Hprovided : forall k v, k ∉ protected -> updates !! k = Some v ->
            get (merged old updates (toISOString (clock s (ticks s)))) k = v).
  { intros k v Hk Hv. unfold get. by rewrite (merged_provided _ _ _ k v Hk Hv). }
  assert (Hnp : forall k, k <> "id" -> k <> "createdAt" -> k <> "updatedAt" -> k ∉ protected).
  { intros k H1 H2 H3. unfold protected. rewrite !not_elem_of_cons.
    repeat split; try assumption. apply not_elem_of_nil. }
  split; [exact Hrun|]. split.
  { intros Hw. rewrite Hrun. unfold after_save. by rewrite Hw. }
  split.
  { rewrite Hview. apply list_lookup_insert_eq. by apply lookup_lt_Some in Hi. }
  split; [exact Hnew|]. split.
  { destruct (merged_protected old updates (toISOString (clock s (ticks s)))) as (-> & _). exact Hid. }
  split; [exact Hprovided|]. split; [|split].
  - apply Hprovided, Hnp; discriminate.
  - intros status. apply Hprovided, Hnp; discriminate.
  - intros taskData Ht. unfold addTask. rewrite Ht. reflexivity.
Qed.

(** C10 at a concrete input: task 1 is given an empty title and a status
    outside the three documented ones. *)
Lemma updateTask_does_not_validate_witness :
  exists i l' new s',
    updateTask 1 invalid_updates (store_one (fun _ => 0%Z))
      = (after_save (store_one (fun _ => 0%Z)) l', s')
    /\ (writeError (store_one (fun _ => 0%Z)) = None ->
        outcome (updateTask 1 invalid_updates (store_one (fun _ => 0%Z))) = Return l')
    /\ view s' !! i = Some new
    /\ deref s' l' = new
    /\ get new "id" = VNum 1
    /\ (forall k v, k ∉ protected -> invalid_updates !! k = Some v -> get new k = v)
    /\ (invalid_updates !! "title" = Some (VStr "") -> get new "title" = VStr "")
    /\ (forall status, invalid_updates !! "status" = Some status -> get new "status" = status)
    /\ (forall taskData, get taskData "title" = VStr "" ->
          addTask taskData (store_one (fun _ => 0%Z))
          = (Throw (Error_ "任务标题不能为空"), store_one (fun _ => 0%Z))).
Proof.
  apply (updateTask_does_not_validate 1 invalid_updates (store_one (fun _ => 0%Z))).
  apply (bool_decide_unpack _). vm_compute. exact I.
Defined.

(** C10 evaluated: the empty title and the status "archived" are in the
    store after the call. *)
Example updateTask_stores_invalid_values :
  outcome (updateTask 1 invalid_updates (store_one (fun _ => 0%Z))) = Return 1%nat
  /\ field "title" (final (updateTask 1 invalid_updates (store_one (fun _ => 0%Z)))) = [VStr ""]
  /\ field "status" (final (updateTask 1 invalid_updates (store_one (fun _ => 0%Z))))
     = [VStr "archived"]
  /\ outcome (addTask (<["title" := VStr ""]> ∅) (store_one (fun _ => 0%Z)))
     = Throw (Error_ "任务标题不能为空").
Proof. repeat split; vm_compute; reflexivity. Qed.

(** ** C4: saving, then loading into a new store *)

Lemma json_object_stable (o : Obj) : json_stable o -> json_object o = o.
Proof.
  intros Ho. apply map_eq. intros k. unfold json_object. rewrite lookup_omap.
  destruct (o !! k) as [v|] eqn:Hk; simpl; [|reflexivity].
  by apply Ho in Hk.
Qed.

(** C4, as amended: when the write succeeds, a new store that loads what
    [s] saved holds the same number of tasks in the same order, each as
    JSON renders it: a property holding a [Date] object (a [dueDate] given
    as a [Date]) comes back as its ISO string, and one holding [undefined]
    is gone; [nextId] is the same, or 1 if it was 0.  For a store whose
    records hold no [Date] object and no [undefined], the task sequence is
    identical. *)
Theorem save_then_load (s : State) :
  writeError s = None ->
  outcome (saveToFile s) = Return tt
  /\ outcome (loadFromFile (new_TaskManager (final (saveToFile s)))) = Return tt
  /\ view (reloaded s) = json_object <$> view s
  /\ nextId (reloaded s) = (if (nextId s =? 0)%Z then 1%Z else nextId s)
  /\ (Forall json_stable (view s) -> view (reloaded s) = view s).
Proof.
  intros Hw. unfold reloaded. rewrite saveToFile_run, Hw. simpl.
  set (saved := set_file _ _).
  destruct (loadFromFile_json (new_TaskManager saved) (saved_document s)) as (s' & Hrun & Hview & Hn & _);
    [reflexivity|].
  rewrite Hrun. simpl. simpl in Hview, Hn.
  split; [reflexivity|]. split; [reflexivity|]. split; [exact Hview|]. split; [exact Hn|].
  intros Hstable. rewrite Hview.
  rewrite <- (list_fmap_id (view s)) at 2. apply Forall_fmap_ext_1.
  eapply Forall_impl; [exact Hstable|]. intros o Ho. by apply json_object_stable.
Qed.

(** C4 at a concrete input: the store holding the task "write". *)
Lemma save_then_load_witness :
  outcome (saveToFile (store_one (fun _ => 0%Z))) = Return tt
  /\ outcome (loadFromFile (new_TaskManager (final (saveToFile (store_one (fun _ => 0%Z)))))) = Return tt
  /\ view (reloaded (store_one (fun _ => 0%Z))) = json_object <$> view (store_one (fun _ => 0%Z))
  /\ nextId (reloaded (store_one (fun _ => 0%Z)))
     = (if (nextId (store_one (fun _ => 0%Z)) =? 0)%Z then 1%Z else nextId (store_one (fun _ => 0%Z)))
  /\ (Forall json_stable (view (store_one (fun _ => 0%Z))) ->
      view (reloaded (store_one (fun _ => 0%Z))) = view (store_one (fun _ => 0%Z))).
Proof. apply (save_then_load (store_one (fun _ => 0%Z))). reflexivity. Defined.

(** C4, as stated, fails: a task created with a [Date] object as its
    [dueDate] (as the demo driver does) has after saving and loading the
    ISO string of that date as its [dueDate], not the [Date] object. *)
Lemma roundtrip_turns_Date_into_string :
  outcome (saveToFile store_dated) = Return tt
  /\ field "dueDate" store_dated = [VDate 5]
  /\ field "dueDate" (reloaded store_dated) = [VStr "1970-01-01T00:00:00.005Z"]
  /\ view (reloaded store_dated) <> view store_dated.
Proof.
  assert (H1 : field "dueDate" store_dated = [VDate 5]) by (vm_compute; reflexivity).
  assert (H2 : field "dueDate" (reloaded store_dated) = [VStr "1970-01-01T00:00:00.005Z"])
    by (vm_compute; reflexivity).
  split; [vm_compute; reflexivity|]. split; [exact H1|]. split; [exact H2|].
  intros Heq. unfold field in H1, H2. rewrite Heq, H1 in H2. discriminate H2.
Qed.

(** ** markAsCompleted *)

(** [find] and [findIndex] agree on the task they find. *)
Lemma getTaskById_findIndex (id : Z) (s : State) :
  getTaskById id s = snd <$> findIndex id s.
Proof.
  unfold getTaskById, findIndex. induction (this_tasks s) as [|l ls IH]; simpl; [reflexivity|].
  destruct (decide (has_id s id l)) as [Hl|Hl].
  - by rewrite bool_decide_eq_true_2.
  - rewrite bool_decide_eq_false_2 by exact Hl. rewrite IH.
    by destruct (list_find (has_id s id) ls) as [[i l']|].
Qed.

Lemma getTaskById_ext (s s' : State) (id : Z) :
  tasks s' = tasks s -> arrs s' = arrs s ->
  (forall l, get (deref s' l) "id" = get (deref s l) "id") ->
  getTaskById id s' = getTaskById id s.
Proof.
  intros Ht Ha Hid. rewrite !getTaskById_findIndex.
  unfold findIndex, this_tasks, array. rewrite Ht, Ha.
  f_equal. apply list_find_ext. intros l. unfold has_id. by rewrite Hid.
Qed.

Lemma deref_marked (l l0 : loc) (s : State) :
  deref (marked l s) l0
  = if decide (l0 = l) then completed_at (clock s (ticks s)) (deref s l) else deref s l0.
Proof.
  unfold deref at 1, marked; simpl. destruct (decide (l0 = l)) as [->|Hne].
  - by rewrite lookup_insert_eq.
  - by rewrite lookup_insert_ne.
Qed.

Lemma getTaskById_marked (l : loc) (s : State) (id : Z) :
  getTaskById id (marked l s) = getTaskById id s.
Proof.
  apply getTaskById_ext; [reflexivity|reflexivity|].
  intros l0. rewrite deref_marked. destruct (decide (l0 = l)) as [->|]; [|reflexivity].
  unfold completed_at, get. by rewrite !lookup_insert_ne.
Qed.

Lemma status_marked (l : loc) (s : State) :
  get (deref (marked l s) l) "status" = VStr "completed".
Proof.
  rewrite deref_marked. rewrite decide_True by reflexivity.
  unfold completed_at, get. by simplify_map_eq.
Qed.

(** One round of the loop, when the task is found and not yet completed. *)
Lemma markLoop_mark (id : Z) (rest : list Z) (acc : list loc) (s : State) (l : loc) :
  getTaskById id s = Some l ->
  get (deref s l) "status" <> VStr "completed" ->
  markLoop (id :: rest) acc s = markLoop rest (acc ++ [l])%list (marked l s).
Proof.
  intros Hfind Hstatus. simpl. unfold bind at 1, gets at 1. rewrite Hfind.
  unfold bind at 1, gets at 1. rewrite bool_decide_eq_true_2 by exact Hstatus.
  unfold bind at 1, set_property at 1, modify at 1.
  unfold bind at 1, now_ISO, bind at 1, new_Date_now, ret.
  unfold bind at 1, set_property at 1, modify at 1.
  f_equal. unfold marked, set_objs, set_ticks; simpl. f_equal.
  rewrite insert_insert_eq. f_equal. unfold completed_at. f_equal.
  unfold deref at 1; simpl. by rewrite lookup_insert_eq.
Qed.

(** One round of the loop, when no task has the id or the task is
    already completed. *)
Lemma markLoop_skip (id : Z) (rest : list Z) (acc : list loc) (s : State) :
  (forall l, getTaskById id s = Some l -> get (deref s l) "status" = VStr "completed") ->
  markLoop (id :: rest) acc s = markLoop rest acc s.
Proof.
  intros Hskip. simpl. unfold bind at 1, gets at 1.
  destruct (getTaskById id s) as [l|]; [|reflexivity].
  unfold bind at 1, gets at 1. rewrite bool_decide_eq_false_2; [reflexivity|].
  intros Hne. apply Hne. by apply Hskip.
Qed.

(** The loop as a whole: which references it appends to [updates], and
    what it does to the heap. *)
Lemma markLoop_run (ids : list Z) (acc : list loc) (s : State) :
  exists new s',
    markLoop ids acc s = (Return (acc ++ new)%list, s')
    /\ same_instance s s'
    /\ ticks s' = (ticks s + length new)%nat
    /\ NoDup new
    /\ (forall l, l ∈ new <->
          (exists id, id ∈ ids /\ getTaskById id s = Some l)
          /\ get (deref s l) "status" <> VStr "completed")
    /\ (forall k l, new !! k = Some l ->
          objs s' !! l = Some (completed_at (clock s (ticks s + k)) (deref s l)))
    /\ (forall l, l ∉ new -> objs s' !! l = objs s !! l).
Proof.
  revert acc s. induction ids as [|id rest IH]; intros acc s.
  - exists [], s. rewrite app_nil_r. split; [reflexivity|].
    split; [unfold same_instance; tauto|]. split; [simpl; lia|].
    split; [constructor|]. split; [|split].
    + intros l. split; [intros H; by apply elem_of_nil in H|].
      intros [(id & Hid & _) _]. by apply elem_of_nil in Hid.
    + intros k l H. by rewrite lookup_nil in H.
    + reflexivity.
  - destruct (getTaskById id s) as [l|] eqn:Hfind;
      [destruct (decide (get (deref s l) "status" = VStr "completed")) as [Hdone|Htodo]|].
    + (* found, already completed *)
      destruct (IH acc s) as (new & s' & Hrun & Hsame & Hticks & Hnodup & Hmem & Hnew & Hold).
      exists new, s'. rewrite markLoop_skip by (intros l0 Hl0; congruence).
      split; [exact Hrun|]. split; [exact Hsame|]. split; [exact Hticks|].
      split; [exact Hnodup|]. split; [|split; assumption].
      intros l0. rewrite Hmem. split.
      * intros [(id' & Hid' & Hl0) Hst]. split; [|exact Hst].
        exists id'. split; [by apply elem_of_cons; right|exact Hl0].
      * intros [(id' & Hid' & Hl0) Hst]. split; [|exact Hst].
        exists id'. split; [|exact Hl0].
        apply elem_of_cons in Hid' as [->|Hin]; [|exact Hin].
        congruence.
    + (* found, to be completed *)
      destruct (IH (acc ++ [l])%list (marked l s))
        as (new & s' & Hrun & Hsame & Hticks & Hnodup & Hmem & Hnew & Hold).
      assert (Hl : l ∉ new).
      { intros Hin. apply Hmem in Hin as [_ Hst]. apply Hst, status_marked. }
      exists (l :: new), s'. rewrite (markLoop_mark id rest acc s l Hfind Htodo).
      split; [by rewrite Hrun, <- app_assoc|].
      split; [unfold same_instance in *; simpl in Hsame; tauto|].
      split; [simpl in *; lia|].
      split; [by apply NoDup_cons|]. split; [|split].
      * intros l0. rewrite elem_of_cons, Hmem. split.
        -- intros [->|[(id' & Hid' & Hl0) Hst]].
           ++ split; [|exact Htodo]. exists id. split; [apply elem_of_cons; by left|exact Hfind].
           ++ rewrite getTaskById_marked in Hl0. rewrite deref_marked in Hst.
              destruct (decide (l0 = l)) as [->|Hne].
              ** exfalso. apply Hst. unfold completed_at, get. by simplify_map_eq.
              ** split; [|exact Hst]. exists id'. split; [apply elem_of_cons; by right|exact Hl0].
        -- intros [(id' & Hid' & Hl0) Hst].
           destruct (decide (l0 = l)) as [->|Hne]; [by left|right].
           split.
           ++ exists id'. split; [|by rewrite getTaskById_marked].
              apply elem_of_cons in Hid' as [->|Hin]; [congruence|exact Hin].
           ++ rewrite deref_marked. by rewrite decide_False.
      * intros k l0 Hk. destruct k as [|k]; simpl in Hk.
        -- injection Hk as <-. rewrite (Hold l Hl). unfold marked; simpl.
           rewrite lookup_insert_eq. by rewrite Nat.add_0_r.
        -- rewrite (Hnew k l0 Hk). simpl.
           assert (Hne : l0 <> l).
           { intros ->. apply Hl. by apply list_elem_of_lookup_2 in Hk. }
           rewrite deref_marked, decide_False by exact Hne.
           by rewrite Nat.add_succ_r.
      * intros l0 Hl0. apply not_elem_of_cons in Hl0 as [Hne Hl0].
        rewrite (Hold l0 Hl0). unfold marked; simpl. by rewrite lookup_insert_ne.
    + (* not found *)
      destruct (IH acc s) as (new & s' & Hrun & Hsame & Hticks & Hnodup & Hmem & Hnew & Hold).
      exists new, s'. rewrite markLoop_skip by (intros l0 Hl0; congruence).
      split; [exact Hrun|]. split; [exact Hsame|]. split; [exact Hticks|].
      split; [exact Hnodup|]. split; [|split; assumption].
      intros l0. rewrite Hmem. split.
      * intros [(id' & Hid' & Hl0) Hst]. split; [|exact Hst].
        exists id'. split; [by apply elem_of_cons; right|exact Hl0].
      * intros [(id' & Hid' & Hl0) Hst]. split; [|exact Hst].
        exists id'. split; [|exact Hl0].
        apply elem_of_cons in Hid' as [->|Hin]; [|exact Hin].
        congruence.
Qed.

(** ** C8: markAsCompleted *)

Lemma getTaskById_refers_to (id : Z) (s : State) (l : loc) :
  getTaskById id s = Some l <-> refers_to id s l.
Proof.
  rewrite getTaskById_findIndex. unfold findIndex, refers_to. split.
  - destruct (list_find _ _) as [[i l0]|] eqn:Hfind; [|discriminate].
    intros [= <-]. apply list_find_Some in Hfind as (Hi & Hid & Hbefore).
    exists i. split; [exact Hi|]. split; [exact Hid|].
    intros j l' Hlt Hj. by apply (Hbefore j l').
  - intros (i & Hi & Hid & Hbefore).
    assert (Hfind : list_find (has_id s id) (this_tasks s) = Some (i, l)); [|by rewrite Hfind].
    apply list_find_Some. split; [exact Hi|]. split; [exact Hid|].
    intros j l' Hj Hlt. by apply (Hbefore j l').
Qed.

(** C8: [markAsCompleted] changes exactly the tasks that some id of [ids]
    refers to (a task of the store with that id, the first one if there
    are several) and whose status is not already completed; each of them
    gets the status completed and the clock reading of its turn as
    [updatedAt]; every other object, the array of the store and [nextId]
    are as before.  The call returns the changed tasks, each once, in the
    order of their turn (unless it had to save and the write failed).  For
    [ids = [id1; id2]] with id1's task completed and id2's not, it returns
    exactly id2's task. *)
Theorem markAsCompleted_marks (ids : list Z) (s : State) :
  exists updates s',
    markAsCompleted ids s
      = (match updates with [] => Return [] | _ => after_save s updates end, s')
    /\ this_tasks s' = this_tasks s
    /\ nextId s' = nextId s
    /\ NoDup updates
    /\ (forall l, l ∈ updates <->
          (exists id, id ∈ ids /\ refers_to id s l)
          /\ get (deref s l) "status" <> VStr "completed")
    /\ (forall k l, updates !! k = Some l ->
          deref s' l = completed_at (clock s (ticks s + k)) (deref s l))
    /\ (forall l, l ∉ updates -> deref s' l = deref s l)
    /\ (forall id1 id2 l1 l2,
          ids = [id1; id2] ->
          refers_to id1 s l1 -> refers_to id2 s l2 ->
          get (deref s l1) "status" = VStr "completed" ->
          get (deref s l2) "status" <> VStr "completed" ->
          updates = [l2]).
Proof.
  destruct (markLoop_run ids [] s)
    as (updates & s1 & Hrun & Hsame & _ & Hnodup & Hfound & Hnew & Hold).
  assert (Hmem : forall l, l ∈ updates <->
            (exists id, id ∈ ids /\ refers_to id s l)
            /\ get (deref s l) "status" <> VStr "completed").
  { intros l. rewrite Hfound. split; intros [(id & Hid & Hl) Hst]; (split; [|exact Hst]);
      exists id; (split; [exact Hid|]); by apply getTaskById_refers_to. }
  simpl in Hrun. destruct Hsame as (Ht & Ha & Hn & _ & Hw & _).
  assert (Harr : forall s', tasks s' = tasks s1 -> arrs s' = arrs s1 ->
                   this_tasks s' = this_tasks s).
  { intros s' Ht' Ha'. unfold this_tasks, array. by rewrite Ht', Ha', Ht, Ha. }
  assert (Hex : exists s',
            markAsCompleted ids s
              = (match updates with [] => Return [] | _ => after_save s updates end, s')
            /\ tasks s' = tasks s1 /\ arrs s' = arrs s1 /\ nextId s' = nextId s1
            /\ objs s' = objs s1).
  { unfold markAsCompleted, bind at 1. rewrite Hrun.
    destruct updates as [|l0 rest]; [eexists; repeat split|].
    unfold bind; simpl. rewrite saveToFile_run. unfold after_save. rewrite Hw.
    destruct (writeError s); eexists; repeat split. }
  destruct Hex as (s' & Hcall & Ht' & Ha' & Hn' & Ho').
  exists updates, s'. split; [exact Hcall|]. split; [by apply Harr|].
  split; [congruence|]. split; [exact Hnodup|]. split; [exact Hmem|].
  split; [|split].
  - intros k l Hk. unfold deref at 1. by rewrite Ho', (Hnew k l Hk).
  - intros l Hl. unfold deref. by rewrite Ho', (Hold l Hl).
  - intros id1 id2 l1 l2 -> H1 H2 Hdone Htodo.
    apply getTaskById_refers_to in H1, H2.
    assert (Hall : forall l, l ∈ updates -> l = l2).
    { intros l Hl. apply Hmem in Hl as [(id & Hid & Hfind) Hst].
      apply getTaskById_refers_to in Hfind.
      apply elem_of_cons in Hid as [->|Hid].
      - congruence.
      - apply list_elem_of_singleton in Hid as ->. congruence. }
    assert (Hin : l2 ∈ updates).
    { apply Hmem. split; [|exact Htodo]. exists id2.
      split; [|by apply getTaskById_refers_to].
      apply elem_of_cons. right. by apply list_elem_of_singleton. }
    destruct updates as [|x [|y rest]].
    + by apply elem_of_nil in Hin.
    + f_equal. apply Hall, list_elem_of_singleton. reflexivity.
    + exfalso. apply NoDup_cons in Hnodup as [Hx _]. apply Hx.
      rewrite (Hall x) by (apply elem_of_cons; by left).
      rewrite <- (Hall y) at 1 by (apply elem_of_cons; right; apply elem_of_cons; by left).
      apply elem_of_cons. by left.
Qed.

(** C8 at a concrete input: the ids 1 and 2 in the store of two tasks of
    which the first is completed and the second pending.  Only the second
    task, at address 1, changes; it is what the call returns. *)
Lemma markAsCompleted_marks_witness :
  field "id" store_first_completed = [VNum 1; VNum 2]
  /\ field "status" store_first_completed = [VStr "completed"; VStr "pending"]
  /\ this_tasks store_first_completed = [0%nat; 1%nat]
  /\ exists s',
       markAsCompleted [1; 2]%Z store_first_completed = (Return [1%nat], s')
       /\ this_tasks s' = this_tasks store_first_completed
       /\ deref s' 0%nat = deref store_first_completed 0%nat
       /\ deref s' 1%nat
          = completed_at (clock store_first_completed (ticks store_first_completed + 0))
              (deref store_first_completed 1%nat).
Proof.
  split; [vm_compute; reflexivity|]. split; [vm_compute; reflexivity|].
  split; [vm_compute; reflexivity|].
  destruct (markAsCompleted_marks [1; 2]%Z store_first_completed)
    as (updates & s' & Hrun & Hthis & _ & _ & _ & Hnew & Hold & Htwo).
  assert (Hupdates : updates = [1%nat]).
  { apply (Htwo 1%Z 2%Z 0%nat 1%nat); [reflexivity| | | |].
    - exists 0%nat. split; [vm_compute; reflexivity|]. split; [vm_compute; reflexivity|].
      intros j l' Hlt. lia.
    - exists 1%nat. split; [vm_compute; reflexivity|]. split; [vm_compute; reflexivity|].
      intros j l' Hlt Hj. assert (j = 0%nat) as -> by lia.
      vm_compute in Hj. injection Hj as <-. vm_compute. discriminate.
    - vm_compute. reflexivity.
    - vm_compute. discriminate. }
  subst updates. exists s'. split; [exact Hrun|]. split; [exact Hthis|]. split.
  - apply Hold. intros Hin. apply list_elem_of_singleton in Hin. discriminate Hin.
  - by apply (Hnew 0%nat).
Defined.

(** The scenario of C8 on a concrete store: tasks 1 and 2 are pending and
    task 1 is completed first; [markAsCompleted([1, 2])] then changes and
    returns task 2 only. *)
Example markAsCompleted_one_of_two :
  let s0 := new_TaskManager (world Missing (fun n => Z.of_nat n)) in
  let s1 := final (addTask (<["title" := VStr "a"]> ∅) s0) in
  let s2 := final (addTask (<["title" := VStr "b"]> ∅) s1) in
  let s3 := final (markAsCompleted [1%Z] s2) in
  field "status" s3 = [VStr "completed"; VStr "pending"]
  /\ outcome (markAsCompleted [1; 2]%Z s3) = Return [1%nat]
  /\ this_tasks s3 = [0%nat; 1%nat]
  /\ field "status" (final (markAsCompleted [1; 2]%Z s3)) = [VStr "completed"; VStr "completed"]
  /\ field "updatedAt" s3 = [VStr "1970-01-01T00:00:00.006Z"; VStr "1970-01-01T00:00:00.004Z"]
  /\ field "updatedAt" (final (markAsCompleted [1; 2]%Z s3))
     = [VStr "1970-01-01T00:00:00.006Z"; VStr "1970-01-01T00:00:00.008Z"].
Proof. repeat split; vm_compute; reflexivity. Qed.

(** ** C9: getStatistics *)

Lemma count_up_lookup (v : JsValue) (m : gmap string Count) (name : string) :
  count_up v m !! name
  = if decide (propertyKey v = Some name) then Some (incr (m !! name)) else m !! name.
Proof.
  unfold count_up. destruct (propertyKey v) as [k|].
  - destruct (decide (Some k = Some name)) as [[= ->]|Hne].
    + by rewrite lookup_insert_eq.
    + rewrite lookup_insert_ne; [reflexivity|congruence].
  - by rewrite decide_False.
Qed.

(** A counter that starts as a number ends as that number plus the number
    of tasks counted under its name. *)
Lemma count_up_fold (k name : string) (ts : list Obj) (m : gmap string Count) (n : nat) :
  m !! name = Some (CNum n) ->
  foldl (fun counters task => count_up (get task k) counters) m ts !! name
  = Some (CNum (n + count_key k name ts)).
Proof.
  revert m n. induction ts as [|task ts IH]; intros m n Hm; simpl.
  - by rewrite Hm, Nat.add_0_r.
  - unfold count_key. rewrite filter_cons.
    destruct (decide (propertyKey (get task k) = Some name)) as [Hk|Hk].
    + rewrite (IH _ (S n)).
      * simpl. unfold count_key. f_equal. f_equal. lia.
      * rewrite count_up_lookup, decide_True by exact Hk. by rewrite Hm.
    + rewrite (IH _ n); [reflexivity|].
      rewrite count_up_lookup, decide_False by exact Hk. exact Hm.
Qed.

(** For a string value the property key is the string. *)
Lemma propertyKey_string (text name : string) :
  propertyKey (VStr text) = Some name <-> text = name.
Proof. simpl. split; congruence. Qed.

(** [hundredths] is the nearest integer to [100 * m * 2^e], the larger one
    on a tie. *)
Lemma hundredths_nearest (m : positive) (e : Z) :
  (e < 0)%Z ->
  (- 2 ^ (- e) < 2 * (hundredths m e * 2 ^ (- e) - 100 * Z.pos m) <= 2 ^ (- e))%Z.
Proof.
  intros He. unfold hundredths. rewrite (proj2 (Z.leb_gt 0 e)) by exact He.
  assert (Hd : (0 < 2 ^ (- e))%Z) by (apply Z.pow_pos_nonneg; lia).
  set (d := (2 ^ (- e))%Z) in *.
  pose proof (Z.div_mod (200 * Z.pos m + d) (2 * d) ltac:(lia)) as Hdm.
  pose proof (Z.mod_pos_bound (200 * Z.pos m + d) (2 * d) ltac:(lia)) as Hb.
  nia.
Qed.

Example toFixed2_examples :
  rate_text (CNum 2) 4 = "50.00%" /\ rate_text (CNum 1) 3 = "33.33%"
  /\ rate_text (CNum 2) 3 = "66.67%" /\ rate_text (CNum 1) 8 = "12.50%"
  /\ rate_text (CNum 1) 32 = "3.13%" /\ rate_text (CNum 5) 5 = "100.00%"
  /\ rate_text (CNum 0) 7 = "0.00%".
Proof. repeat split; vm_compute; reflexivity. Qed.

Section Statistics.

Variable Date_parse : string -> option Z.

(** The loop of [getStatistics], component by component. *)
Lemma tally_fold (now : Z) (ts : list Obj) (stats : Statistics) :
  total (foldl (tally Date_parse now) stats ts) = total stats
  /\ byStatus (foldl (tally Date_parse now) stats ts)
     = foldl (fun counters task => count_up (get task "status") counters) (byStatus stats) ts
  /\ byPriority (foldl (tally Date_parse now) stats ts)
     = foldl (fun counters task => count_up (get task "priority") counters) (byPriority stats) ts
  /\ completionRate (foldl (tally Date_parse now) stats ts) = completionRate stats
  /\ overdue (foldl (tally Date_parse now) stats ts)
     = (overdue stats + length (filter (fun task => is_overdue Date_parse now task = true) ts))%nat.
Proof.
  revert stats. induction ts as [|task ts IH]; intros stats; simpl.
  - repeat split; lia.
  - destruct (IH (tally Date_parse now stats task)) as (H1 & H2 & H3 & H4 & H5).
    rewrite H1, H2, H3, H4, H5. simpl. repeat split.
    rewrite filter_cons. destruct (is_overdue Date_parse now task).
    + rewrite decide_True by reflexivity. simpl. lia.
    + rewrite decide_False by discriminate. lia.
Qed.



End Statistics.


(** The scenario of C9: four tasks, two completed, one pending, one in
    progress. *)
Example getStatistics_four_tasks :
  field "status" store_four
  = [VStr "completed"; VStr "completed"; VStr "in-progress"; VStr "pending"]
  /\ match outcome (getStatistics (fun _ => None) store_four) with
     | Return stats =>
         total stats = 4%nat
         /\ byStatus stats !! "completed" = Some (CNum 2)
         /\ byStatus stats !! "pending" = Some (CNum 1)
         /\ byStatus stats !! "in-progress" = Some (CNum 1)
         /\ byPriority stats !! "medium" = Some (CNum 4)
         /\ byPriority stats !! "high" = Some (CNum 0)
         /\ completionRate stats = RateText "50.00%"
         /\ overdue stats = 0%nat
     | Throw _ => False
     end.
Proof. split; [vm_compute; reflexivity|]. vm_compute. repeat split. Qed.

(** ** getTasks *)

Lemma insert_sorted_perm {A} (comparefn : A -> A -> option Z) (x : A) (l : list A) :
  insert_sorted comparefn x l ≡ₚ x :: l.
Proof.
  induction l as [|y l IH]; simpl; [reflexivity|].
  destruct (sortCompare comparefn x y <? 0)%Z; [reflexivity|].
  rewrite IH. apply Permutation_swap.
Qed.

(** The sort returns a permutation of its input, whatever the comparator. *)
Lemma sort_perm {A} (comparefn : A -> A -> option Z) (l : list A) :
  sort comparefn l ≡ₚ l.
Proof.
  unfold sort.
  assert (H : forall acc, foldl (fun sorted x => insert_sorted comparefn x sorted) acc l
                          ≡ₚ (l ++ acc)%list).
  { induction l as [|x l IH]; intros acc; simpl; [reflexivity|].
    rewrite IH, insert_sorted_perm. by rewrite Permutation_middle. }
  by rewrite H, app_nil_r.
Qed.

Lemma filter_throwing_subseteq {A} (p : A -> Outcome bool) (l r : list A) :
  filter_throwing p l = Return r -> r ⊆ l.
Proof.
  revert r. induction l as [|x l IH]; intros r; simpl.
  - intros [= <-]. reflexivity.
  - destruct (p x) as [b|e]; [|discriminate].
    destruct (filter_throwing p l) as [r'|e]; [|discriminate].
    intros [= <-]. specialize (IH r' eq_refl). destruct b.
    + intros y Hy. apply elem_of_cons in Hy as [->|Hy]; apply elem_of_cons; auto.
    + intros y Hy. apply elem_of_cons. auto.
Qed.

Lemma run_eq {A} (r : Outcome A * State) (a : A) :
  outcome r = Return a -> r = (Return a, final r).
Proof. destruct r as [o s]. simpl. by intros ->. Qed.

Section Queries.

Variable Date_parse : string -> option Z.

Lemma by_status_run (filters : Filters) (result : list loc) (s : State) :
  exists r, by_status filters result s = (Return r, s) /\ r ⊆ result.
Proof.
  unfold by_status. destruct (given (f_status filters)); eexists; (split; [reflexivity|]).
  - intros l. rewrite list_elem_of_filter. tauto.
  - reflexivity.
Qed.

Lemma by_priority_run (filters : Filters) (result : list loc) (s : State) :
  exists r, by_priority filters result s = (Return r, s) /\ r ⊆ result.
Proof.
  unfold by_priority. destruct (given (f_priority filters)); eexists; (split; [reflexivity|]).
  - intros l. rewrite list_elem_of_filter. tauto.
  - reflexivity.
Qed.

Lemma by_tag_run (filters : Filters) (result : list loc) (s : State) :
  (exists e, by_tag filters result s = (Throw e, s) /\ is_Some (given (f_tag filters)))
  \/ (exists r, by_tag filters result s = (Return r, s) /\ r ⊆ result).
Proof.
  unfold by_tag. destruct (given (f_tag filters)) as [tag|].
  - unfold lift.
    destruct (filter_throwing _ result) as [r|e] eqn:Hf.
    + right. exists r. split; [reflexivity|]. by apply filter_throwing_subseteq in Hf.
    + left. exists e. split; [reflexivity|]. by eexists.
  - right. exists result. split; reflexivity.
Qed.

Lemma sorted_run (filters : Filters) (result : list loc) (s : State) :
  exists r, sorted Date_parse filters result s = (Return r, s) /\ r ≡ₚ result.
Proof.
  unfold sorted. destruct (given (f_sortBy filters)); eexists; (split; [reflexivity|]).
  - apply sort_perm.
  - reflexivity.
Qed.

(** What a call of [getTasks] does: it allocates one array, whose elements
    are among the references in [this.tasks]; or the filter by tag throws
    and nothing has changed. *)
Lemma getTasks_run (filters : Filters) (s : State) :
  (exists elems,
     getTasks Date_parse filters s
       = (Return (fresh (dom (arrs s) ∪ {[tasks s]})),
          set_arrs (<[fresh (dom (arrs s) ∪ {[tasks s]}) := elems]> (arrs s)) s)
     /\ elems ⊆ this_tasks s)
  \/ (exists e,
       getTasks Date_parse filters s = (Throw e, s) /\ is_Some (given (f_tag filters))).
Proof.
  destruct (getTasks Date_parse filters s) as [o s'] eqn:Hrun.
  revert Hrun. unfold getTasks. unfold bind at 1, gets at 1.
  destruct (by_status_run filters (this_tasks s) s) as (r1 & H1 & Hs1).
  unfold bind at 1. rewrite H1.
  destruct (by_priority_run filters r1 s) as (r2 & H2 & Hs2).
  unfold bind at 1. rewrite H2.
  unfold bind at 1.
  destruct (by_tag_run filters r2 s) as [(e & H3 & Htag)|(r3 & H3 & Hs3)]; rewrite H3.
  { intros [= <- <-]. right. exists e. split; [reflexivity|exact Htag]. }
  destruct (sorted_run filters r3 s) as (r4 & H4 & Hs4).
  unfold bind at 1. rewrite H4. unfold new_array. intros [= <- <-].
  left. exists r4. split; [reflexivity|].
  intros l Hl. rewrite Hs4 in Hl. auto.
Qed.

(** ** C2: the result of getTasks is a new array of shared records *)

(** C2, as amended: a call of [getTasks] either throws, which only the
    filter by tag can do, and changes nothing; or it returns a new array,
    distinct from [this.tasks] and from every array that existed, and
    leaves the store as it was.  Whatever is then done to the elements of
    that array leaves the store's own sequence and its task records
    unchanged.  The elements, however, are references to the store's own
    task objects: an assignment to a property through one of them changes
    the record in the store. *)
Theorem getTasks_returns_new_array (filters : Filters) (s : State) :
  match getTasks Date_parse filters s with
  | (Throw e, s') => s' = s /\ is_Some (given (f_tag filters))
  | (Return r, s') =>
      r <> tasks s
      /\ arrs s !! r = None
      /\ tasks s' = tasks s /\ objs s' = objs s /\ nextId s' = nextId s
      /\ this_tasks s' = this_tasks s
      /\ view s' = view s
      /\ array s' r ⊆ this_tasks s
      /\ (forall elems,
            this_tasks (final (write_array r elems s')) = this_tasks s
            /\ view (final (write_array r elems s')) = view s)
      /\ (forall i l k v,
            array s' r !! i = Some l ->
            l ∈ this_tasks s
            /\ deref (final (assign_through r i k v s')) l = <[k := v]> (deref s l))
  end.
Proof.
  destruct (getTasks_run filters s) as [(elems & -> & Hsub)|(e & -> & Htag)]; [|auto].
  set (r := fresh (dom (arrs s) ∪ {[tasks s]})).
  assert (Hfresh : r ∉ dom (arrs s) ∪ {[tasks s]}) by apply is_fresh.
  assert (Hne : r <> tasks s) by set_solver.
  assert (Hnone : arrs s !! r = None) by (apply not_elem_of_dom; set_solver).
  assert (Hthis : forall h, this_tasks (set_arrs (<[r := h]> (arrs s)) s) = this_tasks s).
  { intros h. unfold this_tasks, array; simpl. by rewrite lookup_insert_ne. }
  assert (Helems : array (set_arrs (<[r := elems]> (arrs s)) s) r = elems).
  { unfold array; simpl. by rewrite lookup_insert_eq. }
  split; [exact Hne|]. split; [exact Hnone|].
  split; [reflexivity|]. split; [reflexivity|]. split; [reflexivity|].
  split; [apply Hthis|]. split; [unfold view; by rewrite Hthis|].
  split; [by rewrite Helems|]. split.
  - intros elems'.
    assert (Hw : final (write_array r elems' (set_arrs (<[r := elems]> (arrs s)) s))
                 = set_arrs (<[r := elems']> (arrs s)) s).
    { unfold write_array, modify, final, set_arrs; simpl. by rewrite insert_insert_eq. }
    rewrite Hw. split; [apply Hthis|]. unfold view. by rewrite Hthis.
  - intros i l k v Hi. rewrite Helems in Hi. split.
    + apply Hsub. by apply list_elem_of_lookup_2 in Hi.
    + unfold assign_through. rewrite Helems, Hi.
      unfold set_property, modify, deref; simpl. by rewrite lookup_insert_eq.
Qed.

End Queries.

(** C2 evaluated: [getTasks({ sortBy: "dueDate" })] on the store holding
    the task "write" returns the array at address 2, which holds the
    reference that [this.tasks], the array at address 1, holds. *)
Example getTasks_on_store_one :
  outcome (getTasks (fun _ => None) by_dueDate (store_one (fun _ => 0%Z))) = Return 2%nat
  /\ tasks (store_one (fun _ => 0%Z)) = 1%nat
  /\ array (final (getTasks (fun _ => None) by_dueDate (store_one (fun _ => 0%Z)))) 2 = [0%nat]
  /\ this_tasks (final (getTasks (fun _ => None) by_dueDate (store_one (fun _ => 0%Z)))) = [0%nat].
Proof. repeat split; vm_compute; reflexivity. Qed.

(** C2, as stated, fails: an assignment to [title] through the first
    element of the array that [getTasks()] returned changes the title of
    the task in the store. *)
Lemma getTasks_shares_records :
  outcome (getTasks (fun _ => None) no_filters (store_one (fun _ => 0%Z))) = Return 2%nat
  /\ field "title" (final (getTasks (fun _ => None) no_filters (store_one (fun _ => 0%Z))))
     = [VStr "write"]
  /\ field "title"
       (final (assign_through 2 0 "title" (VStr "changed")
                 (final (getTasks (fun _ => None) no_filters (store_one (fun _ => 0%Z))))))
     = [VStr "changed"].
Proof. repeat split; vm_compute; reflexivity. Qed.

(** ** C3: the comparator for dueDate *)

(** Whenever its first argument has no due date, the comparator answers 1,
    whatever the second argument is. *)
Lemma compareTasks_dueDate_first_dateless (Date_parse : string -> option Z) (a b : Obj) :
  truthy (get a "dueDate") = false ->
  compareTasks Date_parse "dueDate" a b = Some 1%Z.
Proof. intros Ha. unfold compareTasks. simpl. by rewrite Ha. Qed.

(** C3 at the failing input: in the store of two tasks without a due date,
    the comparator of [sortBy: "dueDate"] answers 1 for every pair of
    tasks, in both orders and for a task against itself: each task is
    reported to come after the other one, which no ordering does. *)
Theorem dueDate_comparator_on_dateless (Date_parse : string -> option Z) :
  field "dueDate" store_two_dateless = [VNull; VNull]
  /\ Forall (fun a =>
       Forall (fun b => compareTasks Date_parse "dueDate" a b = Some 1%Z)
              (view store_two_dateless))
       (view store_two_dateless).
Proof.
  assert (H : Forall (fun a => truthy (get a "dueDate") = false) (view store_two_dateless)).
  { apply (bool_decide_unpack _). vm_compute. exact I. }
  split; [vm_compute; reflexivity|].
  eapply Forall_impl; [exact H|]. intros a Ha. simpl.
  apply Forall_forall. intros b _. by apply compareTasks_dueDate_first_dateless.
Qed.

(** With the insertion sort of the model, [getTasks({ sortBy: "dueDate" })]
    returns the two tasks of that store in the order of the store. *)
Example getTasks_by_dueDate_two_dateless :
  this_tasks store_two_dateless = [0%nat; 1%nat]
  /\ match getTasks (fun _ => None) by_dueDate store_two_dateless with
     | (Return r, s') => array s' r = [0%nat; 1%nat]
     | (Throw _, _) => False
     end.
Proof. split; vm_compute; reflexivity. Qed.

(** ** What the sort by due date does achieve *)

(** The insertion sort of the model sorts by a relation [R] on the elements
    satisfying [P], provided the comparator agrees with [R] there: where it
    answers below 0 the first argument may stand first, where it does not
    the second may, and [R] is transitive. *)
Lemma sort_sorted {A} (comparefn : A -> A -> option Z) (P : A -> Prop) (R : A -> A -> Prop) :
  (forall x y, P x -> P y -> (sortCompare comparefn x y < 0)%Z -> R x y) ->
  (forall x y, P x -> P y -> ~ (sortCompare comparefn x y < 0)%Z -> R y x) ->
  (forall x y z, P x -> P y -> P z -> R x y -> R y z -> R x z) ->
  forall l, Forall P l -> StronglySorted R (sort comparefn l).
Proof.
  intros Hlt Hge Htrans.
  assert (Hins : forall x sortedl, P x -> Forall P sortedl -> StronglySorted R sortedl ->
            StronglySorted R (insert_sorted comparefn x sortedl)).
  { intros x sortedl Hx. induction sortedl as [|y ys IH]; intros HP Hs; simpl.
    - repeat constructor.
    - apply Forall_cons in HP as [Hy HP]. apply StronglySorted_inv in Hs as [Hs Hall].
      destruct (sortCompare comparefn x y <? 0)%Z eqn:Hc.
      + apply Z.ltb_lt in Hc. constructor; [by constructor|].
        constructor; [by apply Hlt|].
        rewrite Forall_forall in Hall, HP. apply Forall_forall. intros z Hz.
        apply (Htrans x y z); auto.
      + apply Z.ltb_ge in Hc. constructor; [by apply IH|].
        rewrite (insert_sorted_perm comparefn x ys). constructor; [|exact Hall].
        apply Hge; auto. lia. }
  intros l Hl. unfold sort.
  assert (H : forall acc, Forall P acc -> StronglySorted R acc ->
            Forall P (foldl (fun sortedl x => insert_sorted comparefn x sortedl) acc l)
            /\ StronglySorted R (foldl (fun sortedl x => insert_sorted comparefn x sortedl) acc l)).
  { induction Hl as [|x l Hx Hl IH]; intros acc Hacc Hs; simpl; [auto|].
    apply IH.
    - rewrite (insert_sorted_perm comparefn x acc). by constructor.
    - by apply Hins. }
  apply H; constructor.
Qed.

Section DueOrderFacts.

Variable Date_parse : string -> option Z.

(** A task with a due date against one without, from either side: the
    comparator places the dated task first. *)
Lemma compareTasks_dueDate_dated_dateless (a b : Obj) :
  truthy (get a "dueDate") = true ->
  truthy (get b "dueDate") = false ->
  compareTasks Date_parse "dueDate" a b = Some (-1)%Z
  /\ compareTasks Date_parse "dueDate" b a = Some 1%Z.
Proof. intros Ha Hb. unfold compareTasks. simpl. by rewrite Ha, Hb. Qed.

(** With the insertion sort of the model, sorting by dueDate puts tasks
    whose due dates denote times in ascending order of time, and every task
    without a due date after every task with one. *)
Lemma sort_by_dueDate_sorted (ts : list Obj) :
  Forall (well_dated Date_parse) ts ->
  StronglySorted (due_le Date_parse) (sort (compareTasks Date_parse "dueDate") ts).
Proof.
  apply sort_sorted.
  - intros x y Hx Hy. unfold sortCompare, compareTasks, due_le, due, well_dated in *. simpl.
    destruct (truthy (get x "dueDate")); simpl; [|intros H; lia].
    destruct (Hx eq_refl) as [tx ->].
    destruct (truthy (get y "dueDate")); simpl; [|done].
    destruct (Hy eq_refl) as [ty ->]. simpl. lia.
  - intros x y Hx Hy. unfold sortCompare, compareTasks, due_le, due, well_dated in *. simpl.
    destruct (truthy (get x "dueDate")); simpl.
    + destruct (Hx eq_refl) as [tx ->].
      destruct (truthy (get y "dueDate")); simpl; [|intros H; lia].
      destruct (Hy eq_refl) as [ty ->]. simpl. lia.
    + destruct (truthy (get y "dueDate")); simpl; [|done].
      by destruct (Hy eq_refl) as [ty ->].
  - intros x y z _ _ _. unfold due_le.
    destruct (due Date_parse x), (due Date_parse y), (due Date_parse z); try done. lia.
Qed.

End DueOrderFacts.

(** ** Further properties of the methods *)

(** X1: [addTask] rejects a missing or empty title before any change of
    state. *)
Theorem addTask_rejects_falsy_title (taskData : Obj) (s : State) :
  truthy (get taskData "title") = false ->
  addTask taskData s = (Throw (Error_ "任务标题不能为空"), s).
Proof. intros Htitle. unfold addTask. by rewrite Htitle. Qed.

(** X1 at a concrete input: a task without a title. *)
Lemma addTask_rejects_falsy_title_witness :
  addTask (<["description" := VStr "no title"]> ∅) (store_one (fun _ => 0%Z))
  = (Throw (Error_ "任务标题不能为空"), store_one (fun _ => 0%Z)).
Proof.
  apply (addTask_rejects_falsy_title (<["description" := VStr "no title"]> ∅)
           (store_one (fun _ => 0%Z))).
  vm_compute. reflexivity.
Defined.


Lemma fmap_filter {A B} (f : A -> B) (P : B -> Prop) `{forall x, Decision (P x)} (l : list A) :
  f <$> filter (fun x => P (f x)) l = filter P (f <$> l).
Proof.
  induction l as [|x l IH]; [reflexivity|].
  rewrite fmap_cons, !filter_cons. destruct (decide (P (f x))); [|exact IH].
  by rewrite fmap_cons, IH.
Qed.

Lemma length_filter_lt_iff {A} (P : A -> Prop) `{forall x, Decision (P x)} (l : list A) :
  (length (filter P l) < length l)%nat <-> Exists (fun x => ~ P x) l.
Proof.
  split.
  - intros Hlt. apply not_Forall_Exists; [apply _|]. intros Hall.
    assert (Heq : filter P l = l).
    { clear Hlt. induction Hall as [|x l Hx Hall IH]; [reflexivity|].
      by rewrite filter_cons_True, IH. }
    rewrite Heq in Hlt. lia.
  - intros Hex. apply Exists_exists in Hex as (x & Hin & Hx).
    by apply length_filter_lt with x.
Qed.

(** X3: [deleteTask] removes every task with the given id and keeps the others
    in order; it returns true (unless the write fails) when a task was
    removed and false otherwise; [nextId] stays, so that an id is not given
    out again after a deletion. *)
Theorem deleteTask_removes (id : Z) (s : State) :
  exists s',
    deleteTask id s
      = (if decide (Exists (fun task => get task "id" = VNum id) (view s))
         then after_save s true else Return false, s')
    /\ view s' = filter (fun task => get task "id" <> VNum id) (view s)
    /\ nextId s' = nextId s.
Proof.
  unfold deleteTask, bind at 1, gets at 1. unfold bind at 1, gets at 1.
  unfold bind at 1, new_array at 1. unfold bind at 1, modify at 1.
  set (kept := filter (fun l => ~ has_id s id l) (this_tasks s)).
  assert (Hview : forall s', tasks s' = fresh (dom (arrs s) ∪ {[tasks s]}) ->
            arrs s' = <[fresh (dom (arrs s) ∪ {[tasks s]}) := kept]> (arrs s) ->
            objs s' = objs s ->
            view s' = filter (fun task => get task "id" <> VNum id) (view s)).
  { intros s' Ht Ha Ho. unfold view at 1, this_tasks at 1, array.
    rewrite Ht, Ha, lookup_insert_eq. simpl.
    unfold view. rewrite <- (fmap_filter (deref s) (fun task => get task "id" <> VNum id)).
    apply list_fmap_ext. intros i l _. unfold deref. by rewrite Ho. }
  assert (Hlt : (length kept < length (this_tasks s))%nat
                <-> Exists (fun task => get task "id" = VNum id) (view s)).
  { unfold kept. rewrite length_filter_lt_iff. unfold view. rewrite Exists_fmap.
    split; intros Hex; (eapply Exists_impl; [exact Hex|]); intros l Hl; unfold has_id in *.
    - by destruct (decide (get (deref s l) "id" = VNum id)).
    - auto. }
  destruct (decide (Exists (fun task => get task "id" = VNum id) (view s))) as [Hex|Hex].
  - rewrite (proj2 (Nat.ltb_lt _ _)) by (by apply Hlt).
    unfold bind. rewrite saveToFile_run. simpl. unfold after_save.
    destruct (writeError s); eexists; (split; [reflexivity|]);
      (split; [apply Hview; reflexivity|reflexivity]).
  - rewrite (proj2 (Nat.ltb_ge _ _)) by (apply Nat.nlt_ge; intros H; by apply Hex, Hlt).
    eexists. split; [reflexivity|]. split; [apply Hview; reflexivity|reflexivity].
Qed.

Section StatusFilter.

Variable Date_parse : string -> option Z.

(** X4: [getTasks({ status })] returns exactly the tasks with that status,
    in the order of the store. *)
Theorem getTasks_by_status (status : string) (s : State) :
  status <> "" ->
  exists r s',
    getTasks Date_parse (only_status status) s = (Return r, s')
    /\ deref s' <$> array s' r
       = filter (fun task => get task "status" = VStr status) (view s).
Proof.
  intros Hst. unfold getTasks, only_status, by_status, by_priority, by_tag, sorted, given; simpl.
  rewrite (proj2 (String.eqb_neq status "")) by exact Hst.
  unfold bind, gets, ret, new_array. eexists _, _. split; [reflexivity|].
  unfold array; simpl. rewrite lookup_insert_eq. simpl.
  unfold view. rewrite <- (fmap_filter (deref s) (fun task => get task "status" = VStr status)).
  reflexivity.
Qed.

End StatusFilter.

(** X4 at a concrete input: the completed tasks of the store of four. *)
Lemma getTasks_by_status_witness :
  exists r s',
    getTasks (fun _ => None) (only_status "completed") store_four = (Return r, s')
    /\ deref s' <$> array s' r
       = filter (fun task => get task "status" = VStr "completed") (view store_four).
Proof.
  apply (getTasks_by_status (fun _ => None) "completed" store_four). discriminate.
Defined.

(** [getTasks({ status: "completed" })] on the store of four tasks: the two
    completed tasks, ids 1 and 2. *)
Example getTasks_completed_of_four :
  match getTasks (fun _ => None) (only_status "completed") store_four with
  | (Return r, s') => (fun l => get (deref s' l) "id") <$> array s' r = [VNum 1; VNum 2]
  | (Throw _, _) => False
  end.
Proof. vm_compute. reflexivity. Qed.

(** ** Invariants and compositions of the methods *)

Lemma saveToFile_in_sync (s : State) :
  writeError s = None -> in_sync (final (saveToFile s)).
Proof. intros Hw. rewrite saveToFile_run, Hw. simpl. eexists. reflexivity. Qed.

(** The state in which a successful [addTask] ends. *)
Lemma addTask_state (taskData : Obj) (s : State) :
  truthy (get taskData "title") = true ->
  exists s',
    addTask taskData s = (after_save s (next_object s), s')
    /\ tasks s' = tasks s
    /\ arrs s' = <[tasks s := (this_tasks s ++ [next_object s])%list]> (arrs s)
    /\ objs s' = <[next_object s := task_literal (nextId s) taskData
                     (toISOString (clock s (ticks s))) (toISOString (clock s (S (ticks s))))]>
                 (objs s)
    /\ nextId s' = plus_one (nextId s)
    /\ (writeError s = None -> in_sync s').
Proof.
  intros Htitle. unfold addTask. rewrite Htitle. simpl.
  unfold bind at 1, gets at 1. unfold bind at 1, modify at 1.
  unfold bind at 1, now_ISO at 1, bind at 1, new_Date_now at 1, ret at 1.
  unfold bind at 1, now_ISO at 1, bind at 1, new_Date_now at 1, ret at 1.
  unfold bind at 1, new_object at 1. simpl. fold (next_object s).
  unfold bind at 1, push, modify at 1. unfold bind.
  match goal with |- context [saveToFile ?s0] =>
    pose proof (saveToFile_in_sync s0) as Hsync;
    pose proof (saveToFile_frame s0) as (Ht & Hn & Ho & Ha);
    rewrite (saveToFile_run s0) in *
  end.
  simpl in *. unfold after_save.
  destruct (writeError s) as [c|]; eexists; (split; [reflexivity|]);
    repeat (split; [assumption || reflexivity|]); [discriminate|exact Hsync].
Qed.

(** The state in which [updateTask] ends when it found the task. *)
Lemma updateTask_state (id : Z) (updates : Obj) (s : State) (i : nat) (l : loc) :
  findIndex id s = Some (i, l) ->
  exists s',
    updateTask id updates s = (after_save s (next_object s), s')
    /\ tasks s' = tasks s
    /\ arrs s' = <[tasks s := <[i := next_object s]> (this_tasks s)]> (arrs s)
    /\ objs s' = <[next_object s := merged (deref s l) updates (toISOString (clock s (ticks s)))]>
                 (objs s)
    /\ nextId s' = nextId s
    /\ (writeError s = None -> in_sync s').
Proof.
  intros Hfind.
  unfold updateTask, bind at 1, gets at 1. rewrite Hfind.
  unfold bind at 1, gets at 1. unfold bind at 1, now_ISO, bind at 1, new_Date_now, ret.
  unfold bind at 1, new_object at 1. fold (next_object s). simpl.
  unfold bind at 1, modify at 1. unfold bind.
  match goal with |- context [saveToFile ?s0] =>
    pose proof (saveToFile_in_sync s0) as Hsync;
    pose proof (saveToFile_frame s0) as (Ht & Hn & Ho & Ha);
    rewrite (saveToFile_run s0) in *
  end.
  simpl in *. unfold after_save.
  destruct (writeError s) as [c|]; eexists; (split; [reflexivity|]);
    repeat (split; [assumption || reflexivity|]); [discriminate|exact Hsync].
Qed.

Lemma updateTask_not_found (id : Z) (updates : Obj) (s : State) :
  findIndex id s = None ->
  updateTask id updates s = (Throw (Error_ ("任务 ID " ++ pretty id ++ " 不存在")), s).
Proof. intros Hfind. unfold updateTask, bind, gets. by rewrite Hfind. Qed.

Lemma filter_Forall_id {A} (P : A -> Prop) `{forall x, Decision (P x)} (l : list A) :
  Forall P l -> filter P l = l.
Proof.
  induction 1 as [|x l Hx Hall IH]; [reflexivity|]. by rewrite filter_cons_True, IH.
Qed.

(** The state in which [deleteTask] ends. *)
Lemma deleteTask_state (id : Z) (s : State) :
  exists s',
    deleteTask id s
      = (if decide (Exists (fun task => get task "id" = VNum id) (view s))
         then after_save s true else Return false, s')
    /\ this_tasks s' = filter (fun l => ~ has_id s id l) (this_tasks s)
    /\ objs s' = objs s
    /\ nextId s' = nextId s
    /\ view s' = filter (fun task => get task "id" <> VNum id) (view s)
    /\ (writeError s = None ->
        in_sync s \/ Exists (fun task => get task "id" = VNum id) (view s) -> in_sync s').
Proof.
  unfold deleteTask, bind at 1, gets at 1. unfold bind at 1, gets at 1.
  unfold bind at 1, new_array at 1. unfold bind at 1, modify at 1.
  set (kept := filter (fun l => ~ has_id s id l) (this_tasks s)).
  set (a := fresh (dom (arrs s) ∪ {[tasks s]})).
  assert (Hthis : forall s', tasks s' = a -> arrs s' = <[a := kept]> (arrs s) ->
            this_tasks s' = kept).
  { intros s' Ht Ha. unfold this_tasks, array. by rewrite Ht, Ha, lookup_insert_eq. }
  assert (Hview : forall s', tasks s' = a -> arrs s' = <[a := kept]> (arrs s) ->
            objs s' = objs s ->
            view s' = filter (fun task => get task "id" <> VNum id) (view s)).
  { intros s' Ht Ha Ho. unfold view at 1. rewrite (Hthis s' Ht Ha).
    unfold view. rewrite <- (fmap_filter (deref s) (fun task => get task "id" <> VNum id)).
    apply list_fmap_ext. intros i l _. unfold deref. by rewrite Ho. }
  assert (Hlt : (length kept < length (this_tasks s))%nat
                <-> Exists (fun task => get task "id" = VNum id) (view s)).
  { unfold kept. rewrite length_filter_lt_iff. unfold view. rewrite Exists_fmap.
    split; intros Hex; (eapply Exists_impl; [exact Hex|]); intros l Hl; unfold has_id in *.
    - by destruct (decide (get (deref s l) "id" = VNum id)).
    - auto. }
  destruct (decide (Exists (fun task => get task "id" = VNum id) (view s))) as [Hex|Hex].
  - rewrite (proj2 (Nat.ltb_lt _ _)) by (by apply Hlt).
    unfold bind.
    match goal with |- context [saveToFile ?s0] =>
      pose proof (saveToFile_in_sync s0) as Hsync;
      pose proof (saveToFile_frame s0) as (Ht & Hn & Ho & Ha);
      rewrite (saveToFile_run s0) in *
    end.
    simpl in *. unfold after_save.
    destruct (writeError s); eexists; (split; [reflexivity|]);
      (split; [by apply Hthis|]); (split; [assumption|]); (split; [assumption|]);
      (split; [by apply Hview|]); [discriminate|intros _ _; by apply Hsync].
  - rewrite (proj2 (Nat.ltb_ge _ _)) by (apply Nat.nlt_ge; intros H; by apply Hex, Hlt).
    eexists. split; [reflexivity|]. split; [by apply Hthis|].
    split; [reflexivity|]. split; [reflexivity|]. split; [by apply Hview|].
    intros _ [[stamp Hfile]|Hex']; [|done]. exists stamp.
    rewrite Hview by reflexivity. rewrite filter_Forall_id; [exact Hfile|].
    apply Forall_forall. intros task Hin Heq. apply Hex, Exists_exists. eauto.
Qed.

(** The state in which [clearAll] ends. *)
Lemma clearAll_state (s : State) :
  exists s',
    clearAll s = (after_save s tt, s')
    /\ this_tasks s' = []
    /\ objs s' = objs s
    /\ nextId s' = 1%Z
    /\ (writeError s = None -> in_sync s').
Proof.
  unfold clearAll, bind at 1, new_array at 1. unfold bind at 1, modify at 1.
  unfold bind at 1, modify at 1.
  match goal with |- context [saveToFile ?s0] =>
    pose proof (saveToFile_in_sync s0) as Hsync;
    pose proof (saveToFile_frame s0) as (Ht & Hn & Ho & Ha);
    rewrite (saveToFile_run s0) in *
  end.
  simpl in *. unfold after_save.
  destruct (writeError s) as [c|]; eexists; (split; [reflexivity|]);
    (split; [unfold this_tasks, array; simpl; by rewrite lookup_insert_eq|]);
    repeat (split; [assumption || reflexivity|]); [discriminate|exact Hsync].
Qed.

(** The loop of [markAsCompleted] changes nothing when every task it finds
    is completed already. *)
Lemma markLoop_noop (ids : list Z) (acc : list loc) (s : State) :
  (forall id l, id ∈ ids -> getTaskById id s = Some l ->
     get (deref s l) "status" = VStr "completed") ->
  markLoop ids acc s = (Return acc, s).
Proof.
  induction ids as [|id rest IH]; intros Hdone; [reflexivity|].
  rewrite markLoop_skip.
  - apply IH. intros id' l Hin. apply Hdone. apply elem_of_cons. by right.
  - intros l. apply Hdone. apply elem_of_cons. by left.
Qed.

(** The state in which [markAsCompleted] ends. *)
Lemma markAsCompleted_state (ids : list Z) (s : State) :
  exists updates s',
    markAsCompleted ids s
      = (match updates with [] => Return [] | _ => after_save s updates end, s')
    /\ tasks s' = tasks s /\ arrs s' = arrs s /\ nextId s' = nextId s
    /\ (forall l, l ∈ updates <->
          (exists id, id ∈ ids /\ getTaskById id s = Some l)
          /\ get (deref s l) "status" <> VStr "completed")
    /\ (forall l, l ∈ updates -> exists t, objs s' !! l = Some (completed_at t (deref s l)))
    /\ (forall l, l ∉ updates -> objs s' !! l = objs s !! l)
    /\ (updates = [] -> s' = s)
    /\ (writeError s = None -> in_sync s \/ updates <> [] -> in_sync s').
Proof.
  destruct (markLoop_run ids [] s)
    as (updates & s1 & Hrun & Hsame & _ & _ & Hmem & Hnew & Hold).
  simpl in Hrun. destruct Hsame as (Ht & Ha & Hn & _ & Hw & _).
  exists updates. unfold markAsCompleted, bind at 1. rewrite Hrun.
  destruct updates as [|l0 rest].
  - assert (Hs1 : s1 = s).
    { rewrite markLoop_noop in Hrun; [congruence|].
      intros id l Hid Hfind.
      destruct (decide (get (deref s l) "status" = VStr "completed")) as [|Hne]; [done|].
      exfalso. eapply elem_of_nil, Hmem. split; [eauto|exact Hne]. }
    subst s1. exists s. split; [reflexivity|]. repeat (split; [done|]).
    split; [intros l Hl; by apply elem_of_nil in Hl|].
    split; [done|]. split; [done|]. by intros _ [Hsync|Hne].
  - unfold bind; simpl.
    pose proof (saveToFile_in_sync s1) as Hsync.
    pose proof (saveToFile_frame s1) as (Ht' & Hn' & Ho' & Ha').
    rewrite (saveToFile_run s1) in *. unfold after_save. rewrite Hw in *.
    destruct (writeError s); simpl in *; eexists; (split; [reflexivity|]);
      (split; [simpl; congruence|]); (split; [simpl; congruence|]);
      (split; [simpl; congruence|]); (split; [exact Hmem|]);
      (split; [intros l Hl; apply list_elem_of_lookup_1 in Hl as [k Hk];
               simpl; eauto|]);
      (split; [intros l Hl; simpl; by apply Hold|]);
      (split; [discriminate|]); [discriminate|intros _ _; by apply Hsync].
Qed.

Lemma view_lookup (s : State) (i : nat) (l : loc) :
  this_tasks s !! i = Some l -> view s !! i = Some (deref s l).
Proof. intros H. unfold view. by rewrite list_lookup_fmap, H. Qed.

Lemma reloaded_view (s : State) :
  writeError s = None ->
  view (reloaded s) = json_object <$> view s
  /\ nextId (reloaded s) = (if (nextId s =? 0)%Z then 1%Z else nextId s).
Proof.
  intros Hw. unfold reloaded. rewrite saveToFile_run, Hw. simpl.
  set (saved := set_file _ _).
  destruct (loadFromFile_json (new_TaskManager saved) (saved_document s))
    as (s' & Hrun & Hview & Hn & _); [reflexivity|].
  rewrite Hrun. simpl. simpl in Hview, Hn. auto.
Qed.

Lemma json_object_id (task : Obj) (n : Z) :
  get task "id" = VNum n -> get (json_object task) "id" = VNum n.
Proof.
  unfold get, json_object. rewrite lookup_omap.
  destruct (task !! "id") as [v|]; simpl; [|discriminate]. by intros ->.
Qed.

(** X6: the ids of the store stay unique.  If no two tasks have the same
    id and every id is a number below [nextId], the same holds after
    [updateTask], [deleteTask], [markAsCompleted] and [clearAll], whatever
    their arguments and whether or not they throw; after [addTask] as long
    as [nextId] is below 2^53 in magnitude (where the counter grows by
    one); and in a new TaskManager that loads what the store saved. *)
Theorem unique_ids_kept (s : State) :
  unique_ids s ->
  (forall taskData,
     (Z.abs (nextId s) < 2 ^ 53)%Z -> unique_ids (final (addTask taskData s)))
  /\ (forall id updates, unique_ids (final (updateTask id updates s)))
  /\ (forall id, unique_ids (final (deleteTask id s)))
  /\ (forall ids, unique_ids (final (markAsCompleted ids s)))
  /\ unique_ids (final (clearAll s))
  /\ (writeError s = None -> unique_ids (reloaded s)).
Proof.
  intros [Hnodup Hbelow]. unfold ids_below in Hbelow.
  split; [|split; [|split; [|split; [|split]]]].
  - intros taskData Hsafe. destruct (truthy (get taskData "title")) eqn:Htitle.
    + destruct (addTask_run taskData s Htitle) as (s' & -> & _ & _ & Hview & Hn).
      rewrite plus_one_exact in Hn by exact Hsafe.
      simpl. unfold unique_ids, field, ids_below. rewrite Hview, Hn, fmap_app. simpl.
      destruct (task_literal_fields (nextId s) taskData
                  (toISOString (clock s (ticks s))) (toISOString (clock s (S (ticks s)))))
        as (Hid & _).
      rewrite Hid. split.
      * apply NoDup_app. split; [exact Hnodup|]. split; [|apply NoDup_singleton].
        intros v Hv Hnew. apply list_elem_of_singleton in Hnew as ->.
        apply list_elem_of_fmap in Hv as (task & Heq & Hin).
        rewrite Forall_forall in Hbelow. destruct (Hbelow task Hin) as (n & Hn' & Hlt).
        rewrite Hn' in Heq. injection Heq as Heq. lia.
      * apply Forall_app. split.
        -- eapply Forall_impl; [exact Hbelow|]. intros task (n & ? & ?). exists n. split; [done|lia].
        -- apply Forall_singleton. exists (nextId s). split; [exact Hid|lia].
    + unfold addTask. rewrite Htitle. simpl. by split.
  - intros id updates. destruct (findIndex id s) as [[i l]|] eqn:Hfind.
    + destruct (updateTask_found id updates s i l Hfind) as (s' & -> & _ & _ & Hview & Hn).
      simpl. apply findIndex_Some in Hfind as [Hi _]. apply view_lookup in Hi.
      destruct (merged_protected (deref s l) updates (toISOString (clock s (ticks s))))
        as (Hid & _).
      unfold unique_ids, field, ids_below. rewrite Hview, Hn, list_fmap_insert, Hid. split.
      * rewrite list_insert_id; [exact Hnodup|]. by rewrite list_lookup_fmap, Hi.
      * apply Forall_insert; [exact Hbelow|]. rewrite Hid.
        rewrite Forall_forall in Hbelow. apply Hbelow. by eapply list_elem_of_lookup_2.
    + rewrite (updateTask_not_found id updates s Hfind). simpl. by split.
  - intros id. destruct (deleteTask_state id s) as (s' & -> & _ & _ & Hn & Hview & _).
    simpl. unfold unique_ids, field, ids_below. rewrite Hview, Hn. split.
    + eapply sublist_NoDup; [exact Hnodup|apply fmap_sublist, sublist_filter].
    + rewrite Forall_forall in Hbelow. apply Forall_forall. intros task Hin.
      apply list_elem_of_filter in Hin as [_ Hin]. by apply Hbelow.
  - intros ids.
    destruct (markAsCompleted_state ids s)
      as (updates & s' & -> & Ht & Ha & Hn & _ & Hnew & Hold & _).
    simpl.
    assert (Hids : forall l, get (deref s' l) "id" = get (deref s l) "id").
    { intros l. unfold deref at 1. destruct (decide (l ∈ updates)) as [Hin|Hout].
      - destruct (Hnew l Hin) as [t ->]. simpl. unfold completed_at, get.
        by rewrite !lookup_insert_ne.
      - by rewrite (Hold l Hout). }
    assert (Hthis : this_tasks s' = this_tasks s).
    { unfold this_tasks, array. by rewrite Ht, Ha. }
    assert (Hfield : field "id" s' = field "id" s).
    { unfold field, view. rewrite Hthis, <- !list_fmap_compose.
      apply list_fmap_ext. intros i l _. simpl. apply Hids. }
    unfold unique_ids. rewrite Hfield, Hn. split; [exact Hnodup|].
    unfold ids_below, view. rewrite Hthis, Forall_fmap.
    unfold view in Hbelow. rewrite Forall_fmap in Hbelow.
    eapply Forall_impl; [exact Hbelow|]. intros l (n & Hl & Hlt). simpl in *.
    exists n. by rewrite Hids.
  - destruct (clearAll_state s) as (s' & -> & Hthis & _ & Hn & _). simpl.
    unfold unique_ids, field, ids_below, view. rewrite Hthis. simpl.
    split; [apply NoDup_nil_2|apply Forall_nil_2].
  - intros Hw. destruct (reloaded_view s Hw) as [Hview Hn].
    assert (Hfield : field "id" (reloaded s) = field "id" s).
    { unfold field. rewrite Hview, <- list_fmap_compose. apply Forall_fmap_ext_1.
      eapply Forall_impl; [exact Hbelow|]. intros task (n & Hid & _). simpl.
      rewrite Hid. by apply json_object_id. }
    unfold unique_ids. rewrite Hfield. split; [exact Hnodup|].
    unfold ids_below. rewrite Hview, Hn, Forall_fmap.
    eapply Forall_impl; [exact Hbelow|]. intros task (n & Hid & Hlt). simpl.
    exists n. split; [by apply json_object_id|]. destruct (nextId s =? 0)%Z eqn:E; lia.
Qed.

(** X6 at a concrete input: the store of four tasks, with the ids 1 to 4. *)
Lemma unique_ids_kept_witness :
  field "id" store_four = [VNum 1; VNum 2; VNum 3; VNum 4]
  /\ unique_ids (final (addTask example_taskData store_four))
  /\ unique_ids (final (updateTask 2 example_updates store_four))
  /\ unique_ids (final (deleteTask 3 store_four))
  /\ unique_ids (final (markAsCompleted [3; 4]%Z store_four))
  /\ unique_ids (final (clearAll store_four))
  /\ unique_ids (reloaded store_four).
Proof.
  destruct (unique_ids_kept store_four) as (Hadd & Hupdate & Hdelete & Hmark & Hclear & Hload).
  - split; [apply (bool_decide_unpack _); vm_compute; exact I|].
    apply ids_below_test. vm_compute. reflexivity.
  - split; [vm_compute; reflexivity|].
    split; [apply Hadd; vm_compute; reflexivity|].
    split; [apply Hupdate|]. split; [apply Hdelete|]. split; [apply Hmark|].
    split; [apply Hclear|]. apply Hload. reflexivity.
Defined.

(** X7: memory and file agree after every call that writes.  With a file
    system that accepts writes, the data file holds exactly the tasks and
    the [nextId] of the store (as JSON renders them) after [addTask] with a
    title, [updateTask] of an existing id, [deleteTask] of an existing id,
    [markAsCompleted] that changed a task, and [clearAll]; after any other
    call of these methods it does if it did before. *)
Theorem mutations_keep_in_sync (s : State) :
  writeError s = None ->
  (forall taskData,
     in_sync s \/ truthy (get taskData "title") = true ->
     in_sync (final (addTask taskData s)))
  /\ (forall id updates,
        in_sync s \/ Exists (fun task => get task "id" = VNum id) (view s) ->
        in_sync (final (updateTask id updates s)))
  /\ (forall id,
        in_sync s \/ Exists (fun task => get task "id" = VNum id) (view s) ->
        in_sync (final (deleteTask id s)))
  /\ (forall ids,
        in_sync s \/ outcome (markAsCompleted ids s) <> Return [] ->
        in_sync (final (markAsCompleted ids s)))
  /\ in_sync (final (clearAll s)).
Proof.
  intros Hw. split; [|split; [|split; [|split]]].
  - intros taskData Hor. destruct (truthy (get taskData "title")) eqn:Htitle.
    + destruct (addTask_state taskData s Htitle) as (s' & -> & _ & _ & _ & _ & Hsync). auto.
    + unfold addTask. rewrite Htitle. simpl. by destruct Hor.
  - intros id updates Hor. destruct (findIndex id s) as [[i l]|] eqn:Hfind.
    + destruct (updateTask_state id updates s i l Hfind) as (s' & -> & _ & _ & _ & _ & Hsync).
      auto.
    + rewrite (updateTask_not_found id updates s Hfind). simpl.
      destruct Hor as [Hsync|Hex]; [exact Hsync|].
      apply first_with_id in Hex as (i & old & Hi & Hid & Hfirst).
      destruct (findIndex_first id s i old Hi Hid Hfirst) as (l & Hl & _). congruence.
  - intros id Hor. destruct (deleteTask_state id s) as (s' & -> & _ & _ & _ & _ & Hsync).
    auto.
  - intros ids.
    destruct (markAsCompleted_state ids s) as (updates & s' & -> & _ & _ & _ & _ & _ & _ & _ & Hsync).
    simpl. intros [Hs|Hne]; [auto|]. apply Hsync; [exact Hw|]. right. by intros ->.
  - destruct (clearAll_state s) as (s' & -> & _ & _ & _ & Hsync). auto.
Qed.

(** X7 at a concrete input: the store of four tasks, which its last
    [updateTask] left in agreement with the file.  Calls that write (a new
    task, an update of task 2, the deletion of task 3, the completion of
    tasks 3 and 4, [clearAll]) and calls that do not (an update and a
    deletion of the unknown id 9, the completion of task 1, which is
    completed). *)
Lemma mutations_keep_in_sync_witness :
  in_sync store_four
  /\ in_sync (final (addTask example_taskData store_four))
  /\ in_sync (final (updateTask 2 example_updates store_four))
  /\ in_sync (final (deleteTask 3 store_four))
  /\ in_sync (final (markAsCompleted [3; 4]%Z store_four))
  /\ in_sync (final (clearAll store_four))
  /\ in_sync (final (updateTask 9 example_updates store_four))
  /\ in_sync (final (deleteTask 9 store_four))
  /\ in_sync (final (markAsCompleted [1%Z] store_four)).
Proof.
  assert (Hsync : in_sync store_four).
  { pose proof (fun s Hw => proj1 (proj2 (mutations_keep_in_sync s Hw))) as Hupdate.
    unfold store_four. cbv zeta. apply Hupdate; [reflexivity|]. right.
    apply (bool_decide_unpack _). vm_compute. exact I. }
  destruct (mutations_keep_in_sync store_four eq_refl)
    as (Hadd & Hupdate & Hdelete & Hmark & Hclear).
  split; [exact Hsync|].
  split; [apply Hadd; right; reflexivity|].
  split; [apply Hupdate; right; apply (bool_decide_unpack _); vm_compute; exact I|].
  split; [apply Hdelete; right; apply (bool_decide_unpack _); vm_compute; exact I|].
  split; [apply Hmark; right; intros Hnone; vm_compute in Hnone; discriminate Hnone|].
  split; [exact Hclear|].
  split; [apply Hupdate; by left|]. split; [apply Hdelete; by left|]. apply Hmark. by left.
Defined.

(** X8: a restart reads back the store.  When the data file agrees with the
    store and the data directory can be created, [initialize] on a new
    TaskManager returns normally and loads the same tasks, as JSON renders
    them, and the same [nextId] (1 for a [nextId] of 0). *)
Theorem restart_restores (s : State) :
  in_sync s -> mkdirError s = None ->
  outcome (initialize (new_TaskManager s)) = Return tt
  /\ view (final (initialize (new_TaskManager s))) = json_object <$> view s
  /\ nextId (final (initialize (new_TaskManager s)))
     = (if (nextId s =? 0)%Z then 1%Z else nextId s).
Proof.
  intros [stamp Hfile] Hm.
  unfold initialize, try_catch, bind, fs_mkdir.
  assert (Hm' : mkdirError (new_TaskManager s) = None) by exact Hm.
  rewrite Hm'.
  destruct (loadFromFile_json (new_TaskManager s) _ Hfile) as (s' & -> & Hv & Hn & _).
  simpl. auto.
Qed.

Lemma restart_restores_witness :
  outcome (initialize (new_TaskManager (store_one (fun _ => 0%Z)))) = Return tt
  /\ view (final (initialize (new_TaskManager (store_one (fun _ => 0%Z)))))
     = json_object <$> view (store_one (fun _ => 0%Z))
  /\ nextId (final (initialize (new_TaskManager (store_one (fun _ => 0%Z)))))
     = (if (nextId (store_one (fun _ => 0%Z)) =? 0)%Z then 1%Z
        else nextId (store_one (fun _ => 0%Z))).
Proof.
  apply (restart_restores (store_one (fun _ => 0%Z))).
  - exists "1970-01-01T00:00:00.000Z". vm_compute. reflexivity.
  - reflexivity.
Defined.

(** [Array.prototype.find] on lists. *)
Lemma find_app {A} (p : A -> bool) (l1 l2 : list A) :
  List.find p (l1 ++ l2)
  = match List.find p l1 with Some x => Some x | None => List.find p l2 end.
Proof. induction l1 as [|x l1 IH]; [reflexivity|]. simpl. by destruct (p x). Qed.

Lemma find_ext_in {A} (p q : A -> bool) (l : list A) :
  (forall x, x ∈ l -> q x = p x) -> List.find q l = List.find p l.
Proof.
  induction l as [|x l IH]; intros Heq; [reflexivity|]. simpl.
  rewrite (Heq x) by (apply elem_of_cons; by left).
  destruct (p x); [reflexivity|]. apply IH. intros y Hy. apply Heq, elem_of_cons. by right.
Qed.

Lemma find_insert_false {A} (p q : A -> bool) (l : list A) (i : nat) (x y : A) :
  l !! i = Some x -> p x = false -> q y = false ->
  (forall z, z ∈ l -> q z = p z) ->
  List.find q (<[i := y]> l) = List.find p l.
Proof.
  revert i. induction l as [|z l IH]; intros i Hi Hx Hy Heq; [done|].
  destruct i as [|i]; simpl in *.
  - injection Hi as ->. rewrite Hx, Hy. apply find_ext_in.
    intros w Hw. apply Heq, elem_of_cons. by right.
  - rewrite (Heq z) by (apply elem_of_cons; by left).
    destruct (p z); [reflexivity|]. apply (IH i Hi Hx Hy).
    intros w Hw. apply Heq, elem_of_cons. by right.
Qed.

Lemma find_filter {A} (p : A -> bool) (Q : A -> Prop) `{forall x, Decision (Q x)} (l : list A) :
  (forall x, p x = true -> Q x) -> List.find p (filter Q l) = List.find p l.
Proof.
  intros HpQ. induction l as [|x l IH]; [reflexivity|].
  rewrite filter_cons. simpl. destruct (p x) eqn:Hp.
  - rewrite decide_True by auto. simpl. by rewrite Hp.
  - destruct (decide (Q x)); [simpl; by rewrite Hp|exact IH].
Qed.

Lemma find_none {A} (p : A -> bool) (l : list A) :
  Forall (fun x => p x = false) l -> List.find p l = None.
Proof. induction 1 as [|x l Hx _ IH]; [reflexivity|]. simpl. by rewrite Hx. Qed.

Lemma has_id_ext (s s' : State) (id : Z) (l : loc) :
  deref s' l = deref s l -> bool_decide (has_id s' id l) = bool_decide (has_id s id l).
Proof. intros H. apply bool_decide_ext. unfold has_id. by rewrite H. Qed.

Lemma deref_insert_ne (s s' : State) (l l0 : loc) (o : Obj) :
  objs s' = <[l := o]> (objs s) -> l0 <> l -> deref s' l0 = deref s l0.
Proof. intros Ho Hne. unfold deref. by rewrite Ho, lookup_insert_ne. Qed.

Lemma deref_insert_eq (s s' : State) (l : loc) (o : Obj) :
  objs s' = <[l := o]> (objs s) -> deref s' l = o.
Proof. intros Ho. unfold deref. by rewrite Ho, lookup_insert_eq. Qed.

(** X9: a task that was added is found by its id.  When the ids of the
    store are below [nextId], [getTaskById] with the id given to the new
    task returns that task; every other id finds what it found before, and
    the existing task objects are unchanged. *)
Theorem addTask_then_getTaskById (taskData : Obj) (s : State) :
  truthy (get taskData "title") = true ->
  ids_below (nextId s) (view s) ->
  exists l s',
    addTask taskData s = (after_save s l, s')
    /\ getTaskById (nextId s) s' = Some l
    /\ (forall id, id <> nextId s -> getTaskById id s' = getTaskById id s)
    /\ (forall l0, l0 ∈ this_tasks s -> deref s' l0 = deref s l0).
Proof.
  intros Htitle Hbelow.
  destruct (addTask_state taskData s Htitle) as (s' & Hrun & Ht & Ha & Ho & _ & _).
  exists (next_object s), s'. split; [exact Hrun|].
  assert (Hthis : this_tasks s' = (this_tasks s ++ [next_object s])%list).
  { unfold this_tasks at 1, array. by rewrite Ht, Ha, lookup_insert_eq. }
  assert (Hold : forall l0, l0 ∈ this_tasks s -> deref s' l0 = deref s l0).
  { intros l0 Hl0. eapply deref_insert_ne; [exact Ho|].
    intros ->. by apply (next_object_unreferenced s). }
  assert (Hnew : get (deref s' (next_object s)) "id" = VNum (nextId s)).
  { rewrite (deref_insert_eq s s' _ _ Ho). apply task_literal_fields. }
  assert (Hfind : forall id,
            getTaskById id s'
            = match getTaskById id s with
              | Some l => Some l
              | None => if bool_decide (id = nextId s) then Some (next_object s) else None
              end).
  { intros id. unfold getTaskById. rewrite Hthis, find_app.
    rewrite (find_ext_in (fun l => bool_decide (has_id s id l))
               (fun l => bool_decide (has_id s' id l)))
      by (intros l0 Hl0; by apply has_id_ext, Hold).
    destruct (List.find _ (this_tasks s)); [reflexivity|]. simpl.
    repeat case_bool_decide; unfold has_id in *; rewrite Hnew in *; congruence. }
  split; [|split; [|exact Hold]].
  - rewrite Hfind. rewrite bool_decide_eq_true_2 by reflexivity.
    unfold getTaskById. rewrite find_none; [reflexivity|].
    unfold ids_below, view in Hbelow. rewrite Forall_fmap in Hbelow.
    eapply Forall_impl; [exact Hbelow|]. intros l0 (n & Hn & Hlt). simpl in *.
    apply bool_decide_eq_false_2. unfold has_id. rewrite Hn. intros [= ->]. lia.
  - intros id Hne. rewrite Hfind. rewrite bool_decide_eq_false_2 by exact Hne.
    by destruct (getTaskById id s).
Qed.

(** X9 at a concrete input: the first task of a new store. *)
Lemma addTask_then_getTaskById_witness :
  exists l s',
    addTask example_taskData (new_TaskManager (world Missing (fun _ => 0%Z)))
      = (after_save (new_TaskManager (world Missing (fun _ => 0%Z))) l, s')
    /\ getTaskById (nextId (new_TaskManager (world Missing (fun _ => 0%Z)))) s' = Some l
    /\ (forall id, id <> nextId (new_TaskManager (world Missing (fun _ => 0%Z))) ->
          getTaskById id s' = getTaskById id (new_TaskManager (world Missing (fun _ => 0%Z))))
    /\ (forall l0, l0 ∈ this_tasks (new_TaskManager (world Missing (fun _ => 0%Z))) ->
          deref s' l0 = deref (new_TaskManager (world Missing (fun _ => 0%Z))) l0).
Proof.
  apply (addTask_then_getTaskById example_taskData
           (new_TaskManager (world Missing (fun _ => 0%Z)))).
  - reflexivity.
  - apply Forall_nil_2.
Defined.

(** X10: [updateTask] puts a new object into the store and leaves the old one
    alone.  The object it returns did not exist before and is the one
    [getTaskById] finds afterwards; every object that existed, the task's
    old object included, has the properties it had, so a reference obtained
    before the call shows the record before the update.  Other ids find
    what they found before. *)
Theorem updateTask_replaces_object (id : Z) (updates : Obj) (s : State) :
  Exists (fun task => get task "id" = VNum id) (view s) ->
  exists l l' s',
    getTaskById id s = Some l
    /\ updateTask id updates s = (after_save s l', s')
    /\ l' <> l
    /\ objs s !! l' = None
    /\ getTaskById id s' = Some l'
    /\ (forall l0, l0 <> l' -> deref s' l0 = deref s l0)
    /\ (forall id', id' <> id -> getTaskById id' s' = getTaskById id' s).
Proof.
  intros Hex. apply first_with_id in Hex as (i & old & Hi & Hid & Hfirst).
  destruct (findIndex_first id s i old Hi Hid Hfirst) as (l & Hfind & Hold).
  destruct (updateTask_state id updates s i l Hfind) as (s' & Hrun & Ht & Ha & Ho & _ & _).
  exists l, (next_object s), s'.
  pose proof Hfind as Hfind'. apply list_find_Some in Hfind' as (Hl & Hhas & Hbefore).
  assert (Hin : l ∈ this_tasks s) by (by eapply list_elem_of_lookup_2).
  assert (Hthis : this_tasks s' = <[i := next_object s]> (this_tasks s)).
  { unfold this_tasks at 1, array. by rewrite Ht, Ha, lookup_insert_eq. }
  assert (Hrest : forall l0, l0 <> next_object s -> deref s' l0 = deref s l0).
  { intros l0 Hne. by eapply deref_insert_ne. }
  assert (Hmember : forall l0, l0 ∈ this_tasks s -> deref s' l0 = deref s l0).
  { intros l0 Hl0. apply Hrest. intros ->. by apply (next_object_unreferenced s). }
  assert (Hnew : get (deref s' (next_object s)) "id" = VNum id).
  { rewrite (deref_insert_eq s s' _ _ Ho).
    destruct (merged_protected (deref s l) updates (toISOString (clock s (ticks s))))
      as (-> & _).
    exact Hhas. }
  split; [by rewrite getTaskById_findIndex, Hfind|]. split; [exact Hrun|].
  split; [intros Heq; apply (next_object_unreferenced s); by rewrite Heq|].
  split; [apply next_object_unused|]. split; [|split; [exact Hrest|]].
  - rewrite getTaskById_findIndex.
    assert (Hfind2 : findIndex id s' = Some (i, next_object s)); [|by rewrite Hfind2].
    apply list_find_Some. rewrite Hthis. split; [|split; [exact Hnew|]].
    + apply list_lookup_insert_eq. by eapply lookup_lt_Some.
    + intros j y Hj Hlt. rewrite list_lookup_insert_ne in Hj by lia.
      unfold has_id. rewrite Hmember by (by eapply list_elem_of_lookup_2).
      by apply (Hbefore j y).
  - intros id' Hne. unfold getTaskById. rewrite Hthis.
    apply (find_insert_false _ _ _ i l); [exact Hl| | |].
    + apply bool_decide_eq_false_2. unfold has_id in *. rewrite Hhas. congruence.
    + apply bool_decide_eq_false_2. unfold has_id. rewrite Hnew. congruence.
    + intros z Hz. by apply has_id_ext, Hmember.
Qed.

(** X10 at a concrete input: an update of the task "write". *)
Lemma updateTask_replaces_object_witness :
  exists l l' s',
    getTaskById 1 (store_one (fun _ => 0%Z)) = Some l
    /\ updateTask 1 example_updates (store_one (fun _ => 0%Z))
       = (after_save (store_one (fun _ => 0%Z)) l', s')
    /\ l' <> l
    /\ objs (store_one (fun _ => 0%Z)) !! l' = None
    /\ getTaskById 1 s' = Some l'
    /\ (forall l0, l0 <> l' -> deref s' l0 = deref (store_one (fun _ => 0%Z)) l0)
    /\ (forall id', id' <> 1%Z ->
          getTaskById id' s' = getTaskById id' (store_one (fun _ => 0%Z))).
Proof.
  apply (updateTask_replaces_object 1 example_updates (store_one (fun _ => 0%Z))).
  apply (bool_decide_unpack _). vm_compute. exact I.
Defined.

(** X11: after [deleteTask(id)], whether or not it removed a task or the
    write failed, the id is gone: [getTaskById(id)] returns null,
    [updateTask(id, ...)] throws the error for an unknown id, and a second
    [deleteTask(id)] returns false.  Every other id finds what it found
    before. *)
Theorem deleteTask_then_lookup (id : Z) (s : State) :
  getTaskById id (final (deleteTask id s)) = None
  /\ (forall updates,
        outcome (updateTask id updates (final (deleteTask id s)))
        = Throw (Error_ ("任务 ID " ++ pretty id ++ " 不存在")))
  /\ outcome (deleteTask id (final (deleteTask id s))) = Return false
  /\ (forall id', id' <> id ->
        getTaskById id' (final (deleteTask id s)) = getTaskById id' s).
Proof.
  destruct (deleteTask_state id s) as (s' & -> & Hthis & Ho & _ & Hview & _). simpl.
  assert (Hgone : Forall (fun task => get task "id" <> VNum id) (view s')).
  { rewrite Hview. apply Forall_forall. intros task Hin.
    by apply list_elem_of_filter in Hin as [Hne _]. }
  assert (Hnone : findIndex id s' = None) by (by apply findIndex_None).
  split; [by rewrite getTaskById_findIndex, Hnone|].
  split; [intros updates; by rewrite (updateTask_not_found id updates s' Hnone)|].
  split.
  - destruct (deleteTask_state id s') as (s'' & -> & _). simpl.
    rewrite decide_False; [reflexivity|].
    intros Hex. apply Exists_exists in Hex as (task & Hin & Hid).
    rewrite Forall_forall in Hgone. by apply (Hgone task Hin).
  - intros id' Hne. unfold getTaskById. rewrite Hthis.
    rewrite (find_ext_in (fun l => bool_decide (has_id s id' l))
               (fun l => bool_decide (has_id s' id' l)))
      by (intros l _; apply has_id_ext; unfold deref; by rewrite Ho).
    apply find_filter. intros l Hl. apply bool_decide_eq_true_1 in Hl.
    unfold has_id in *. rewrite Hl. congruence.
Qed.

(** X12: [markAsCompleted] is idempotent.  A second call with the same ids
    directly after the first returns the empty array and changes nothing:
    no task, no clock reading, no write to the file. *)
Theorem markAsCompleted_twice (ids : list Z) (s : State) :
  markAsCompleted ids (final (markAsCompleted ids s))
  = (Return [], final (markAsCompleted ids s)).
Proof.
  destruct (markAsCompleted_state ids s)
    as (updates & s1 & -> & Ht & Ha & _ & Hmem & Hnew & Hold & _).
  simpl.
  assert (Hids : forall l, get (deref s1 l) "id" = get (deref s l) "id").
  { intros l. unfold deref at 1. destruct (decide (l ∈ updates)) as [Hin|Hout].
    - destruct (Hnew l Hin) as [t ->]. simpl. unfold completed_at, get.
      by rewrite !lookup_insert_ne.
    - by rewrite (Hold l Hout). }
  assert (Hdone : forall id l, id ∈ ids -> getTaskById id s1 = Some l ->
            get (deref s1 l) "status" = VStr "completed").
  { intros id l Hid Hfind. rewrite (getTaskById_ext s s1 id Ht Ha Hids) in Hfind.
    unfold deref at 1. destruct (decide (l ∈ updates)) as [Hin|Hout].
    - destruct (Hnew l Hin) as [t ->]. simpl. unfold completed_at, get.
      rewrite lookup_insert_ne by done. by rewrite lookup_insert_eq.
    - rewrite (Hold l Hout). fold (deref s l).
      destruct (decide (get (deref s l) "status" = VStr "completed")) as [|Hne]; [done|].
      exfalso. apply Hout, Hmem. eauto. }
  unfold markAsCompleted, bind at 1. by rewrite (markLoop_noop ids [] s1 Hdone).
Qed.

(** X13: [clearAll] empties the store and restarts the ids, also when the
    write fails: afterwards no id finds a task, [nextId] is 1, and the next
    task added gets the id 1 again. *)
Theorem clearAll_resets (s : State) :
  exists s',
    clearAll s = (after_save s tt, s')
    /\ view s' = []
    /\ nextId s' = 1%Z
    /\ (forall id, getTaskById id s' = None)
    /\ (forall taskData, truthy (get taskData "title") = true ->
          field "id" (final (addTask taskData s')) = [VNum 1]).
Proof.
  destruct (clearAll_state s) as (s' & Hrun & Hthis & _ & Hn & _).
  assert (Hview : view s' = []) by (unfold view; by rewrite Hthis).
  exists s'. split; [exact Hrun|]. split; [exact Hview|]. split; [exact Hn|]. split.
  - intros id. unfold getTaskById. by rewrite Hthis.
  - intros taskData Htitle.
    destruct (addTask_run taskData s' Htitle) as (s'' & -> & _ & _ & Hview' & _).
    simpl. unfold field. rewrite Hview', Hview, Hn. simpl.
    f_equal; apply task_literal_fields.
Qed.

(** ** searchTasks *)

Lemma filter_throwing_total {A} (p : A -> Outcome bool) (q : A -> bool) (l : list A) :
  Forall (fun x => p x = Return (q x)) l ->
  filter_throwing p l = Return (filter (fun x => q x = true) l).
Proof.
  induction 1 as [|x l Hx _ IH]; [reflexivity|]. simpl. rewrite Hx, IH.
  rewrite filter_cons. destruct (q x); [by rewrite decide_True|by rewrite decide_False].
Qed.

Lemma is_substring_empty (hay : string) : is_substring "" hay = true.
Proof. by destruct hay. Qed.

Section SearchFacts.

Variable toLowerCase : string -> string.

Lemma matches_searchable (keyword : string) (task : Obj) :
  searchable task ->
  matches toLowerCase (toLowerCase keyword) task = Return (mentions toLowerCase keyword task).
Proof.
  intros (Ht & Hd & Hg). unfold matches, mentions, texts.
  destruct (get task "title") as [| | | |title| |]; try done.
  destruct (get task "description") as [| | | |description| |]; try done.
  destruct (get task "tags") as [| | | | | |tags]; try done. simpl.
  destruct (is_substring _ (toLowerCase title)); [reflexivity|].
  destruct (is_substring _ (toLowerCase description)); reflexivity.
Qed.

(** What a call of [searchTasks] that returns leaves behind. *)
Lemma searchTasks_returns (keyword : string) (s : State) (found : list loc) :
  filter_throwing (fun l => matches toLowerCase (toLowerCase keyword) (deref s l)) (this_tasks s)
    = Return found ->
  exists r s',
    searchTasks toLowerCase keyword s = (Return r, s')
    /\ array s' r = found
    /\ arrs s !! r = None
    /\ this_tasks s' = this_tasks s
    /\ objs s' = objs s.
Proof.
  intros Hfound. unfold searchTasks, bind, lift. rewrite Hfound. unfold new_array.
  set (r := fresh (dom (arrs s) ∪ {[tasks s]})).
  assert (Hfresh : r ∉ dom (arrs s) ∪ {[tasks s]}) by apply is_fresh.
  exists r, (set_arrs (<[r := found]> (arrs s)) s). split; [reflexivity|].
  split; [unfold array; simpl; by rewrite lookup_insert_eq|].
  split; [apply not_elem_of_dom; set_solver|].
  split; [|reflexivity].
  unfold this_tasks, array; simpl. rewrite lookup_insert_ne; [reflexivity|set_solver].
Qed.

(** X14: in a store whose tasks all have a string as title and as
    description and an array as tags, [searchTasks] returns, in the order
    of the store, exactly the tasks of which some text (the title, the
    description or a tag) contains the keyword, both in lower case.  The
    result is a new array; the store is as before. *)
Theorem searchTasks_finds (keyword : string) (s : State) :
  Forall searchable (view s) ->
  exists r s',
    searchTasks toLowerCase keyword s = (Return r, s')
    /\ deref s' <$> array s' r
       = filter (fun task => mentions toLowerCase keyword task = true) (view s)
    /\ arrs s !! r = None
    /\ view s' = view s.
Proof.
  intros Hall.
  destruct (searchTasks_returns keyword s
              (filter (fun l => mentions toLowerCase keyword (deref s l) = true) (this_tasks s)))
    as (r & s' & Hrun & Harr & Hnew & Hthis & Ho).
  { apply (filter_throwing_total _ (fun l => mentions toLowerCase keyword (deref s l))).
    unfold view in Hall. rewrite Forall_fmap in Hall.
    eapply Forall_impl; [exact Hall|]. intros l Hl. by apply matches_searchable. }
  assert (Hderef : forall ls : list loc, deref s' <$> ls = deref s <$> ls).
  { intros ls. apply list_fmap_ext. intros i l _. unfold deref. by rewrite Ho. }
  exists r, s'. split; [exact Hrun|]. split; [|split; [exact Hnew|]].
  - rewrite Harr, Hderef. unfold view.
    by rewrite <- (fmap_filter (deref s) (fun task => mentions toLowerCase keyword task = true)).
  - unfold view. by rewrite Hthis, Hderef.
Qed.

(** X15: one task whose title is not a string breaks the search: whatever
    the keyword, and wherever in the store that task is, [searchTasks]
    throws a [TypeError], with the state unchanged. *)
Theorem searchTasks_needs_string_titles (keyword : string) (s : State) :
  Exists (fun task => ~ is_string (get task "title")) (view s) ->
  exists message, searchTasks toLowerCase keyword s = (Throw (TypeError message), s).
Proof.
  intros Hex. unfold searchTasks, bind, lift.
  assert (Hthrow : exists message,
            filter_throwing (fun l => matches toLowerCase (toLowerCase keyword) (deref s l))
              (this_tasks s) = Throw (TypeError message)).
  { unfold view in Hex. rewrite Exists_fmap in Hex. revert Hex.
    generalize (this_tasks s). intros ls. induction ls as [|l ls IH]; intros Hex.
    - by apply Exists_nil in Hex.
    - simpl. unfold matches at 1.
      destruct (get (deref s l) "title") as [| |b|n|text|t|tags] eqn:Htitle; simpl; eauto.
      apply Exists_cons in Hex as [Hl|Hex]; [exfalso; apply Hl; by rewrite Htitle|].
      destruct (IH Hex) as (message & Hrest).
      destruct (is_substring _ _).
      + rewrite Hrest. eauto.
      + destruct (lowered _ _ _) as [description|e] eqn:Hd.
        * destruct (is_substring _ description); [rewrite Hrest; eauto|].
          destruct (some_tag _ _ _) as [b|e] eqn:Hs; [rewrite Hrest; eauto|].
          revert Hs. unfold some_tag. destruct (get (deref s l) "tags"); intros [= <-]; eauto.
        * revert Hd. unfold lowered.
          destruct (get (deref s l) "description"); intros [= <-]; eauto. }
  destruct Hthrow as (message & ->). eauto.
Qed.

(** X16: the empty keyword, whose lower case is the empty string, matches
    every task by its title alone: when all titles are strings,
    [searchTasks("")] returns all the tasks in the order of the store,
    whatever their descriptions and tags hold. *)
Theorem searchTasks_empty_keyword (s : State) :
  toLowerCase "" = "" ->
  Forall (fun task => is_string (get task "title")) (view s) ->
  exists r s',
    searchTasks toLowerCase "" s = (Return r, s')
    /\ array s' r = this_tasks s
    /\ arrs s !! r = None.
Proof.
  intros Hlower Hall.
  destruct (searchTasks_returns "" s (this_tasks s)) as (r & s' & Hrun & Harr & Hnew & _).
  { rewrite (filter_throwing_total _ (fun _ => true)).
    - f_equal. apply filter_Forall_id. by apply Forall_forall.
    - unfold view in Hall. rewrite Forall_fmap in Hall.
      eapply Forall_impl; [exact Hall|]. intros l Htext. simpl in Htext.
      unfold matches. destruct (get (deref s l) "title"); try done.
      simpl. by rewrite Hlower, is_substring_empty. }
  eauto.
Qed.

End SearchFacts.

(** X14 at a concrete input: a search for "WRI" in the store holding the
    task "write". *)
Lemma searchTasks_finds_witness :
  exists r s',
    searchTasks toLowerCase_ascii "WRI" (store_one (fun _ => 0%Z)) = (Return r, s')
    /\ deref s' <$> array s' r
       = filter (fun task => mentions toLowerCase_ascii "WRI" task = true)
                (view (store_one (fun _ => 0%Z)))
    /\ arrs (store_one (fun _ => 0%Z)) !! r = None
    /\ view s' = view (store_one (fun _ => 0%Z)).
Proof.
  apply (searchTasks_finds toLowerCase_ascii "WRI" (store_one (fun _ => 0%Z))).
  apply (bool_decide_unpack _). vm_compute. exact I.
Defined.

(** The search for "WRI" finds the task "write", the search for "read"
    nothing. *)
Example searchTasks_on_store_one :
  match searchTasks toLowerCase_ascii "WRI" (store_one (fun _ => 0%Z)) with
  | (Return r, s') => (fun l => get (deref s' l) "title") <$> array s' r = [VStr "write"]
  | (Throw _, _) => False
  end
  /\ match searchTasks toLowerCase_ascii "read" (store_one (fun _ => 0%Z)) with
     | (Return r, s') => array s' r = []
     | (Throw _, _) => False
     end.
Proof. split; vm_compute; reflexivity. Qed.

(** X15 at a concrete input: a search in the store whose task has the
    title 5. *)
Lemma searchTasks_needs_string_titles_witness :
  exists message,
    searchTasks toLowerCase_ascii "x" store_numeric_title
    = (Throw (TypeError message), store_numeric_title).
Proof.
  apply (searchTasks_needs_string_titles toLowerCase_ascii "x" store_numeric_title).
  apply (bool_decide_unpack _). vm_compute. exact I.
Defined.

(** X16 at a concrete input: the empty keyword in the store holding the
    task "write". *)
Lemma searchTasks_empty_keyword_witness :
  exists r s',
    searchTasks toLowerCase_ascii "" (store_one (fun _ => 0%Z)) = (Return r, s')
    /\ array s' r = this_tasks (store_one (fun _ => 0%Z))
    /\ arrs (store_one (fun _ => 0%Z)) !! r = None.
Proof.
  apply (searchTasks_empty_keyword toLowerCase_ascii (store_one (fun _ => 0%Z))).
  - reflexivity.
  - apply (bool_decide_unpack _). vm_compute. exact I.
Defined.

(** ** The orders of getTasks *)

Lemma insert_sorted_fmap {A B} (f : A -> B) (comparefn : B -> B -> option Z) (x : A) (l : list A) :
  f <$> insert_sorted (fun a b => comparefn (f a) (f b)) x l
  = insert_sorted comparefn (f x) (f <$> l).
Proof.
  induction l as [|y l IH]; [reflexivity|]. simpl. unfold sortCompare.
  destruct (default 0%Z (comparefn (f x) (f y)) <? 0)%Z; [reflexivity|].
  by rewrite fmap_cons, IH.
Qed.

(** Sorting references by a comparator on the records they point to sorts
    the records. *)
Lemma sort_fmap {A B} (f : A -> B) (comparefn : B -> B -> option Z) (l : list A) :
  f <$> sort (fun a b => comparefn (f a) (f b)) l = sort comparefn (f <$> l).
Proof.
  unfold sort.
  assert (H : forall acc,
            f <$> foldl (fun sortedl x => insert_sorted (fun a b => comparefn (f a) (f b)) x sortedl)
                    acc l
            = foldl (fun sortedl x => insert_sorted comparefn x sortedl) (f <$> acc) (f <$> l)).
  { induction l as [|x l IH]; intros acc; [reflexivity|]. simpl.
    by rewrite IH, insert_sorted_fmap. }
  apply (H []).
Qed.

(** A comparator that subtracts keys sorts by key, larger keys first. *)
Lemma sort_by_key {A} (key : A -> option Z) (comparefn : A -> A -> option Z) (l : list A) :
  (forall x y, comparefn x y = minus (key y) (key x)) ->
  Forall (fun x => is_Some (key x)) l ->
  StronglySorted (key_ge key) (sort comparefn l).
Proof.
  intros Hcmp. apply sort_sorted.
  - intros x y [kx Hx] [ky Hy]. unfold sortCompare, key_ge. rewrite Hcmp, Hx, Hy. simpl. lia.
  - intros x y [kx Hx] [ky Hy]. unfold sortCompare, key_ge. rewrite Hcmp, Hx, Hy. simpl. lia.
  - intros x y z [kx Hx] [ky Hy] [kz Hz]. unfold key_ge. rewrite Hx, Hy, Hz. lia.
Qed.

Lemma filter_none {A} (P : A -> Prop) `{forall x, Decision (P x)} (l : list A) :
  Forall (fun x => ~ P x) l -> filter P l = [].
Proof. induction 1 as [|x l Hx _ IH]; [reflexivity|]. by rewrite filter_cons_False. Qed.

Lemma sort_snoc {A} (comparefn : A -> A -> option Z) (l : list A) (x : A) :
  sort comparefn (l ++ [x]) = insert_sorted comparefn x (sort comparefn l).
Proof. unfold sort. by rewrite foldl_app. Qed.

(** The insertion sort is stable: under such a comparator the elements
    with one and the same key keep their order. *)
Lemma sort_by_key_stable {A} (key : A -> option Z) (comparefn : A -> A -> option Z)
    (k : Z) (l : list A) :
  (forall x y, comparefn x y = minus (key y) (key x)) ->
  Forall (fun x => is_Some (key x)) l ->
  filter (fun x => key x = Some k) (sort comparefn l) = filter (fun x => key x = Some k) l.
Proof.
  intros Hcmp.
  assert (Hins : forall x acc, is_Some (key x) -> Forall (fun y => is_Some (key y)) acc ->
            StronglySorted (key_ge key) acc ->
            filter (fun y => key y = Some k) (insert_sorted comparefn x acc)
            = (filter (fun y => key y = Some k) acc ++ filter (fun y => key y = Some k) [x])%list).
  { intros x acc [kx Hx]. induction acc as [|y ys IH]; intros Hacc Hs; [reflexivity|].
    apply Forall_cons in Hacc as [[ky Hy] Hacc]. apply StronglySorted_inv in Hs as [Hs Hall].
    simpl. unfold sortCompare. rewrite Hcmp, Hx, Hy. simpl.
    destruct (ky - kx <? 0)%Z eqn:Hlt.
    - apply Z.ltb_lt in Hlt. rewrite (filter_cons _ x), (filter_cons _ x []), filter_nil.
      destruct (decide (key x = Some k)) as [Hk|Hk]; [|by rewrite app_nil_r].
      rewrite (filter_none _ (y :: ys)); [reflexivity|].
      assert (Hkx : kx = k) by congruence. subst kx.
      constructor; [rewrite Hy; intros [= ->]; lia|].
      eapply Forall_impl; [exact Hall|]. intros z Hz Hkz. unfold key_ge in Hz.
      rewrite Hy, Hkz in Hz. lia.
    - rewrite !(filter_cons _ y), (IH Hacc Hs).
      by destruct (decide (key y = Some k)). }
  induction l as [|x l IH] using rev_ind; intros Hl; [reflexivity|].
  apply Forall_app in Hl as [Hl Hx]. rewrite Forall_singleton in Hx.
  rewrite sort_snoc, Hins, (IH Hl), filter_app; [reflexivity|exact Hx| |].
  - by rewrite (sort_perm comparefn l).
  - by apply sort_by_key.
Qed.

Section Orders.

Variable Date_parse : string -> option Z.

(** What [getTasks] with only [sortBy] returns: the references of the
    store, sorted by the comparator on their records. *)
Lemma getTasks_only_sortBy (sortBy : string) (s : State) :
  sortBy <> "" ->
  exists r s',
    getTasks Date_parse (only_sortBy sortBy) s = (Return r, s')
    /\ deref s' <$> array s' r = sort (compareTasks Date_parse sortBy) (view s).
Proof.
  intros Hne. unfold getTasks, only_sortBy, by_status, by_priority, by_tag, sorted, given; simpl.
  rewrite (proj2 (String.eqb_neq sortBy "")) by exact Hne.
  unfold bind, gets, ret, new_array. eexists _, _. split; [reflexivity|].
  unfold array; simpl. rewrite lookup_insert_eq. simpl.
  apply (sort_fmap (deref s) (compareTasks Date_parse sortBy)).
Qed.

Lemma StronglySorted_impl_in {A} (R R' : A -> A -> Prop) (P : A -> Prop) (l : list A) :
  (forall x y, P x -> P y -> R x y -> R' x y) ->
  Forall P l -> StronglySorted R l -> StronglySorted R' l.
Proof.
  intros Himpl HP Hsorted. induction Hsorted as [|x l Hsorted IH Hall]; [constructor|].
  apply Forall_cons in HP as [Hx HP]. constructor; [by apply IH|].
  rewrite Forall_forall in Hall, HP. apply Forall_forall. intros y Hy.
  apply Himpl; auto.
Qed.

Lemma filter_ext_in {A} (P Q : A -> Prop) `{forall x, Decision (P x)} `{forall x, Decision (Q x)}
    (l : list A) :
  (forall x, x ∈ l -> P x <-> Q x) -> filter P l = filter Q l.
Proof.
  induction l as [|x l IH]; intros Hiff; [reflexivity|].
  rewrite !filter_cons.
  assert (Hx : P x <-> Q x) by (apply Hiff, elem_of_cons; by left).
  rewrite IH by (intros y Hy; apply Hiff, elem_of_cons; by right).
  destruct (decide (P x)), (decide (Q x)); tauto || reflexivity.
Qed.

(** The weights of the comparator, for a task with one of the three
    priorities. *)
Lemma weight_place (task : Obj) :
  has_priority task ->
  weight task = Some (3 - Z.of_nat (priority_place (get task "priority")))%Z.
Proof.
  unfold has_priority, weight. rewrite !elem_of_cons, elem_of_nil.
  intros [->|[->|[->|[]]]]; reflexivity.
Qed.

(** X17: when the priority of every task is one of the strings high, medium
    and low, [getTasks({ sortBy: "priority" })] returns all the tasks, the
    high ones first, then the medium ones, then the low ones, and the
    tasks of one and the same priority in the order they have in the
    store. *)
Theorem getTasks_sorted_by_priority (s : State) :
  Forall has_priority (view s) ->
  exists r s',
    getTasks Date_parse (only_sortBy "priority") s = (Return r, s')
    /\ deref s' <$> array s' r ≡ₚ view s
    /\ StronglySorted priority_before (deref s' <$> array s' r)
    /\ (forall priority,
          filter (fun task => get task "priority" = VStr priority) (deref s' <$> array s' r)
          = filter (fun task => get task "priority" = VStr priority) (view s)).
Proof.
  intros Hall.
  assert (Hweights : Forall (fun task => is_Some (weight task)) (view s)).
  { eapply Forall_impl; [exact Hall|]. intros task Htask. simpl.
    rewrite (weight_place task Htask). by eexists. }
  destruct (getTasks_only_sortBy "priority" s) as (r & s' & Hrun & Heq); [done|].
  exists r, s'. rewrite Heq. split; [exact Hrun|]. split; [apply sort_perm|].
  set (result := sort (compareTasks Date_parse "priority") (view s)).
  assert (Hresult : Forall has_priority result).
  { unfold result. by rewrite (sort_perm (compareTasks Date_parse "priority") (view s)). }
  split.
  - apply (StronglySorted_impl_in (key_ge weight) priority_before has_priority);
      [|exact Hresult|by apply sort_by_key].
    intros a b Ha Hb. unfold key_ge, priority_before.
    rewrite (weight_place a Ha), (weight_place b Hb). lia.
  - intros priority.
    destruct (decide (VStr priority ∈ [VStr "high"; VStr "medium"; VStr "low"])) as [Hin|Hout].
    + set (k := (3 - Z.of_nat (priority_place (VStr priority)))%Z).
      assert (Hsame : forall l : list Obj, Forall has_priority l ->
                filter (fun task => get task "priority" = VStr priority) l
                = filter (fun task => weight task = Some k) l).
      { intros l Hl. apply filter_ext_in. intros task Htask.
        rewrite Forall_forall in Hl. specialize (Hl task Htask).
        rewrite (weight_place task Hl). unfold k. split; [by intros ->|].
        intros [= Hplace]. revert Hl Hin Hplace. unfold has_priority.
        rewrite !elem_of_cons, !elem_of_nil.
        intros [->|[->|[->|[]]]] [[= ->]|[[= ->]|[[= ->]|[]]]] Hplace;
          vm_compute in Hplace; congruence. }
      rewrite !Hsame by assumption. unfold result. by apply sort_by_key_stable.
    + assert (Hnone : forall l : list Obj, Forall has_priority l ->
                filter (fun task => get task "priority" = VStr priority) l = []).
      { intros l Hl. apply filter_none. eapply Forall_impl; [exact Hl|].
        intros task Htask Heq'. apply Hout. unfold has_priority in Htask. by rewrite <- Heq'. }
      by rewrite !Hnone.
Qed.

(** X18: when the [createdAt] of every task denotes a time,
    [getTasks({ sortBy: "createdAt" })] returns all the tasks, the later
    created first, and the tasks created at one and the same time in the
    order they have in the store. *)
Theorem getTasks_sorted_by_createdAt (s : State) :
  Forall (fun task => is_Some (created Date_parse task)) (view s) ->
  exists r s',
    getTasks Date_parse (only_sortBy "createdAt") s = (Return r, s')
    /\ deref s' <$> array s' r ≡ₚ view s
    /\ StronglySorted (key_ge (created Date_parse)) (deref s' <$> array s' r)
    /\ (forall t, filter (fun task => created Date_parse task = Some t) (deref s' <$> array s' r)
                  = filter (fun task => created Date_parse task = Some t) (view s)).
Proof.
  intros Hall.
  destruct (getTasks_only_sortBy "createdAt" s) as (r & s' & Hrun & Heq); [done|].
  exists r, s'. rewrite Heq. split; [exact Hrun|]. split; [apply sort_perm|].
  split; [by apply sort_by_key|]. intros k. by apply sort_by_key_stable.
Qed.

Lemma sort_constant {A} (comparefn : A -> A -> option Z) (l : list A) :
  (forall x y, comparefn x y = Some 0%Z) -> sort comparefn l = l.
Proof.
  intros Hzero.
  assert (Hins : forall x acc, insert_sorted comparefn x acc = (acc ++ [x])%list).
  { intros x acc. induction acc as [|y ys IH]; [reflexivity|]. simpl.
    unfold sortCompare. rewrite Hzero. simpl. by rewrite IH. }
  induction l as [|x l IH] using rev_ind; [reflexivity|].
  by rewrite sort_snoc, IH, Hins.
Qed.

(** X19: a [sortBy] other than createdAt, priority and dueDate leaves the
    order alone: [getTasks] returns the tasks in the order of the store. *)
Theorem getTasks_unknown_sortBy (sortBy : string) (s : State) :
  sortBy ∉ ["createdAt"; "priority"; "dueDate"] ->
  exists r s',
    getTasks Date_parse (only_sortBy sortBy) s = (Return r, s')
    /\ array s' r = this_tasks s
    /\ deref s' <$> array s' r = view s.
Proof.
  intros Hunknown.
  assert (Hcmp : forall a b, compareTasks Date_parse sortBy a b = Some 0%Z).
  { intros a b. unfold compareTasks.
    rewrite !(proj2 (String.eqb_neq _ _)); [reflexivity| | |];
      intros ->; apply Hunknown; set_solver. }
  unfold getTasks, only_sortBy, by_status, by_priority, by_tag, sorted, given; simpl.
  unfold bind, gets, ret, new_array.
  destruct (String.eqb sortBy ""); eexists _, _; (split; [reflexivity|]);
    unfold array; simpl; rewrite lookup_insert_eq; simpl;
    rewrite ?sort_constant by (intros a b; apply Hcmp); done.
Qed.

End Orders.

(** ** The filters of getTasks *)

Lemma filter_throwing_TypeError {A} (p : A -> Outcome bool) (l : list A) :
  (forall x e, p x = Throw e -> exists message, e = TypeError message) ->
  Exists (fun x => exists e, p x = Throw e) l ->
  exists message, filter_throwing p l = Throw (TypeError message).
Proof.
  intros Htype. induction l as [|x l IH]; intros Hex; [by apply Exists_nil in Hex|].
  simpl. destruct (p x) as [b|e] eqn:Hp.
  - apply Exists_cons in Hex as [(e & He)|Hex]; [congruence|].
    destruct (IH Hex) as (message & ->). eauto.
  - destruct (Htype x e Hp) as (message & ->). eauto.
Qed.

Lemma includes_throws (tags : JsValue) (tag : string) (e : Error) :
  includes tags tag = Throw e -> exists message, e = TypeError message.
Proof. destruct tags; simpl; intros [= <-]; eauto. Qed.

Section Filtering.

Variable Date_parse : string -> option Z.





(** X21: the filter by tag alone throws a [TypeError], with the state
    unchanged, as soon as the store holds a task whose tags are neither an
    array nor a string (null after [updateTask(id, { tags: null })], or
    missing in a file that was loaded). *)
Theorem getTasks_by_tag_throws (tag : string) (s : State) :
  tag <> "" ->
  Exists (fun task => ~ is_array (get task "tags") /\ ~ is_string (get task "tags")) (view s) ->
  exists message, getTasks Date_parse (only_tag tag) s = (Throw (TypeError message), s).
Proof.
  intros Hne Hex.
  unfold getTasks, only_tag, by_status, by_priority, by_tag, sorted, given; simpl.
  rewrite (proj2 (String.eqb_neq tag "")) by exact Hne.
  unfold bind, gets, ret, lift.
  destruct (filter_throwing_TypeError
              (fun l => includes (get (deref s l) "tags") tag) (this_tasks s))
    as (message & ->); [| |eauto].
  - intros l e. apply includes_throws.
  - unfold view in Hex. rewrite Exists_fmap in Hex.
    eapply Exists_impl; [exact Hex|]. intros l [Harray Hstring]. simpl in *.
    destruct (get (deref s l) "tags"); simpl in *; try tauto; eauto.
Qed.

End Filtering.

(** ** The counters of getStatistics *)

Lemma count_key_sum (k a b c : string) (ts : list Obj) :
  a <> b -> a <> c -> b <> c ->
  (count_key k a ts + count_key k b ts + count_key k c ts)%nat
  = length (filter (named k [a; b; c]) ts).
Proof.
  intros Hab Hac Hbc. unfold count_key.
  induction ts as [|task ts IH]; [reflexivity|].
  rewrite !filter_cons.
  assert (Hnamed : named k [a; b; c] task
            <-> propertyKey (get task k) = Some a \/ propertyKey (get task k) = Some b
                \/ propertyKey (get task k) = Some c).
  { unfold named. simpl. rewrite !elem_of_cons, elem_of_nil. intuition congruence. }
  destruct (decide (named k [a; b; c] task)) as [Hn|Hn];
    destruct (decide (propertyKey (get task k) = Some a)) as [Ha|Ha];
    destruct (decide (propertyKey (get task k) = Some b)) as [Hb|Hb];
    destruct (decide (propertyKey (get task k) = Some c)) as [Hc|Hc];
    simpl; try lia; try congruence; exfalso; tauto.
Qed.

Lemma length_filter_all {A} (P : A -> Prop) `{forall x, Decision (P x)} (l : list A) :
  length (filter P l) = length l <-> Forall P l.
Proof.
  split.
  - intros Hlen. apply Forall_forall. intros x Hx.
    destruct (decide (P x)) as [|Hn]; [done|].
    pose proof (length_filter_lt P l x Hx Hn). lia.
  - intros Hall. by rewrite filter_Forall_id.
Qed.

Section Counters.

Variable Date_parse : string -> option Z.

(** X22: the three counters of [byStatus] add up to at most [total], and to
    [total] exactly when the status of every task is one of pending,
    in-progress and completed; likewise the three counters of [byPriority]
    for high, medium and low. *)
Theorem getStatistics_partition (s : State) :
  exists stats pending inProgress completed high medium low,
    outcome (getStatistics Date_parse s) = Return stats
    /\ byStatus stats !! "pending" = Some (CNum pending)
    /\ byStatus stats !! "in-progress" = Some (CNum inProgress)
    /\ byStatus stats !! "completed" = Some (CNum completed)
    /\ byPriority stats !! "high" = Some (CNum high)
    /\ byPriority stats !! "medium" = Some (CNum medium)
    /\ byPriority stats !! "low" = Some (CNum low)
    /\ (pending + inProgress + completed <= total stats)%nat
    /\ (high + medium + low <= total stats)%nat
    /\ ((pending + inProgress + completed)%nat = total stats
        <-> Forall (named "status" ["pending"; "in-progress"; "completed"]) (view s))
    /\ ((high + medium + low)%nat = total stats
        <-> Forall (named "priority" ["high"; "medium"; "low"]) (view s)).
Proof.
  unfold getStatistics, bind, gets, new_Date_now, ret.
  set (now := clock s (ticks s)).
  set (stats := foldl (tally Date_parse now) (initial_stats (length (view s))) (view s)).
  destruct (tally_fold Date_parse now (view s) (initial_stats (length (view s))))
    as (Htotal & Hstatus & Hpriority & _ & _).
  fold stats in Htotal, Hstatus, Hpriority. simpl in Htotal, Hstatus, Hpriority.
  assert (Htotal' : total (with_rate stats) = length (view s)).
  { unfold with_rate. by destruct (0 <? total stats)%nat. }
  assert (Hs : forall name, name ∈ ["pending"; "in-progress"; "completed"] ->
            byStatus (with_rate stats) !! name
            = Some (CNum (count_key "status" name (view s)))).
  { intros name Hname.
    assert (Hby : byStatus (with_rate stats) = byStatus stats)
      by (unfold with_rate; by destruct (0 <? total stats)%nat).
    rewrite Hby, Hstatus.
    rewrite (count_up_fold "status" name (view s) _ 0); [reflexivity|].
    rewrite !elem_of_cons in Hname.
    destruct Hname as [->|[->|[->|Hname]]]; [reflexivity..|by apply elem_of_nil in Hname]. }
  assert (Hp : forall name, name ∈ ["high"; "medium"; "low"] ->
            byPriority (with_rate stats) !! name
            = Some (CNum (count_key "priority" name (view s)))).
  { intros name Hname.
    assert (Hby : byPriority (with_rate stats) = byPriority stats)
      by (unfold with_rate; by destruct (0 <? total stats)%nat).
    rewrite Hby, Hpriority.
    rewrite (count_up_fold "priority" name (view s) _ 0); [reflexivity|].
    rewrite !elem_of_cons in Hname.
    destruct Hname as [->|[->|[->|Hname]]]; [reflexivity..|by apply elem_of_nil in Hname]. }
  exists (with_rate stats), (count_key "status" "pending" (view s)),
    (count_key "status" "in-progress" (view s)), (count_key "status" "completed" (view s)),
    (count_key "priority" "high" (view s)), (count_key "priority" "medium" (view s)),
    (count_key "priority" "low" (view s)).
  split; [reflexivity|].
  do 3 (split; [apply Hs; set_solver|]). do 3 (split; [apply Hp; set_solver|]).
  rewrite Htotal', !count_key_sum by done.
  split; [apply length_filter|]. split; [apply length_filter|].
  split; apply length_filter_all.
Qed.

End Counters.

(** X17 at a concrete input: the store of three tasks with the priorities
    low, high and medium. *)
Lemma getTasks_sorted_by_priority_witness :
  exists r s',
    getTasks (fun _ => None) (only_sortBy "priority") store_three_priorities = (Return r, s')
    /\ deref s' <$> array s' r ≡ₚ view store_three_priorities
    /\ StronglySorted priority_before (deref s' <$> array s' r)
    /\ (forall priority,
          filter (fun task => get task "priority" = VStr priority) (deref s' <$> array s' r)
          = filter (fun task => get task "priority" = VStr priority)
              (view store_three_priorities)).
Proof.
  apply (getTasks_sorted_by_priority (fun _ => None) store_three_priorities).
  apply (bool_decide_unpack _). vm_compute. exact I.
Defined.

(** [getTasks({ sortBy: "priority" })] on that store: the tasks with the
    ids 2, 3 and 1. *)
Example getTasks_by_priority_of_three :
  field "priority" store_three_priorities = [VStr "low"; VStr "high"; VStr "medium"]
  /\ match getTasks (fun _ => None) (only_sortBy "priority") store_three_priorities with
     | (Return r, s') =>
         (fun l => get (deref s' l) "id") <$> array s' r = [VNum 2; VNum 3; VNum 1]
     | (Throw _, _) => False
     end.
Proof. split; vm_compute; reflexivity. Qed.

(** [Date_parse_ISO] reads back what [toISOString] writes. *)
Example Date_parse_ISO_reads :
  Date_parse_ISO (toISOString 1700000000123) = Some 1700000000123%Z
  /\ Date_parse_ISO "1970-01-01T00:00:00.009Z" = Some 9%Z
  /\ Date_parse_ISO "2024-02-29T12:00:00.000Z" = Some 1709208000000%Z
  /\ Date_parse_ISO "2023-02-29T12:00:00.000Z" = None
  /\ Date_parse_ISO "tomorrow" = None.
Proof. repeat split; vm_compute; reflexivity. Qed.

(** X18 at a concrete input: the store of four tasks, created at the times
    0, 3, 6 and 9, with the [Date.parse] that reads the texts of
    [toISOString]. *)
Lemma getTasks_sorted_by_createdAt_witness :
  created Date_parse_ISO <$> view store_four = [Some 0%Z; Some 3%Z; Some 6%Z; Some 9%Z]
  /\ exists r s',
    getTasks Date_parse_ISO (only_sortBy "createdAt") store_four = (Return r, s')
    /\ deref s' <$> array s' r ≡ₚ view store_four
    /\ StronglySorted (key_ge (created Date_parse_ISO)) (deref s' <$> array s' r)
    /\ (forall t, filter (fun task => created Date_parse_ISO task = Some t)
                    (deref s' <$> array s' r)
                  = filter (fun task => created Date_parse_ISO task = Some t)
                      (view store_four)).
Proof.
  split; [vm_compute; reflexivity|].
  apply (getTasks_sorted_by_createdAt Date_parse_ISO store_four).
  apply (bool_decide_unpack _). vm_compute. exact I.
Defined.

(** On that store the tasks come back in the order 4, 3, 2, 1: the one
    created last comes first. *)
Example getTasks_by_createdAt_of_four :
  field "id" store_four = [VNum 1; VNum 2; VNum 3; VNum 4]
  /\ match getTasks Date_parse_ISO (only_sortBy "createdAt") store_four with
     | (Return r, s') =>
         (fun l => get (deref s' l) "id") <$> array s' r = [VNum 4; VNum 3; VNum 2; VNum 1]
         /\ created Date_parse_ISO <$> (deref s' <$> array s' r)
            = [Some 9%Z; Some 6%Z; Some 3%Z; Some 0%Z]
     | (Throw _, _) => False
     end.
Proof. split; vm_compute; [reflexivity|split; reflexivity]. Qed.

(** X19 at a concrete input: [getTasks({ sortBy: "title" })]. *)
Lemma getTasks_unknown_sortBy_witness :
  exists r s',
    getTasks (fun _ => None) (only_sortBy "title") store_four = (Return r, s')
    /\ array s' r = this_tasks store_four
    /\ deref s' <$> array s' r = view store_four.
Proof.
  apply (getTasks_unknown_sortBy (fun _ => None) "title" store_four).
  apply (bool_decide_unpack _). vm_compute. exact I.
Defined.


(** X21 at a concrete input: a filter by tag on the store whose task has
    the tags null. *)
Lemma getTasks_by_tag_throws_witness :
  exists message,
    getTasks (fun _ => None) (only_tag "home") store_null_tags
    = (Throw (TypeError message), store_null_tags).
Proof.
  apply (getTasks_by_tag_throws (fun _ => None) "home" store_null_tags).
  - discriminate.
  - apply (bool_decide_unpack _). vm_compute. exact I.
Defined.

(** ** The object literal of addTask *)

(** X23: the task [addTask] creates has exactly the nine properties of the
    object literal.  The description, priority, tags and due date are
    those of the task data when they are truthy, and otherwise the empty
    string, medium, the empty array and null; a status or an id in the
    task data is ignored, and no other property of the task data is
    copied. *)
Theorem addTask_fills_defaults (taskData : Obj) (s : State) :
  truthy (get taskData "title") = true ->
  exists l s',
    addTask taskData s = (after_save s l, s')
    /\ dom (deref s' l) = task_keys
    /\ get (deref s' l) "title" = get taskData "title"
    /\ get (deref s' l) "description"
       = (if truthy (get taskData "description") then get taskData "description" else VStr "")
    /\ get (deref s' l) "priority"
       = (if truthy (get taskData "priority") then get taskData "priority" else VStr "medium")
    /\ get (deref s' l) "tags"
       = (if truthy (get taskData "tags") then get taskData "tags" else VArr [])
    /\ get (deref s' l) "dueDate"
       = (if truthy (get taskData "dueDate") then get taskData "dueDate" else VNull)
    /\ get (deref s' l) "status" = VStr "pending"
    /\ get (deref s' l) "id" = VNum (nextId s).
Proof.
  intros Htitle.
  destruct (addTask_run taskData s Htitle) as (s' & Hrun & _ & Hnew & _).
  exists (next_object s), s'. split; [exact Hrun|]. rewrite Hnew.
  split; [unfold task_literal, task_keys; rewrite !dom_insert_L, dom_empty_L; set_solver|].
  unfold task_literal, get, or_else. by simplify_map_eq.
Qed.

(** X23 at a concrete input: task data with a status, an id and an empty
    priority. *)
Lemma addTask_fills_defaults_witness :
  exists l s',
    addTask overreaching_taskData (new_TaskManager (world Missing (fun _ => 0%Z)))
      = (after_save (new_TaskManager (world Missing (fun _ => 0%Z))) l, s')
    /\ dom (deref s' l) = task_keys
    /\ get (deref s' l) "title" = get overreaching_taskData "title"
    /\ get (deref s' l) "description"
       = (if truthy (get overreaching_taskData "description")
          then get overreaching_taskData "description" else VStr "")
    /\ get (deref s' l) "priority"
       = (if truthy (get overreaching_taskData "priority")
          then get overreaching_taskData "priority" else VStr "medium")
    /\ get (deref s' l) "tags"
       = (if truthy (get overreaching_taskData "tags")
          then get overreaching_taskData "tags" else VArr [])
    /\ get (deref s' l) "dueDate"
       = (if truthy (get overreaching_taskData "dueDate")
          then get overreaching_taskData "dueDate" else VNull)
    /\ get (deref s' l) "status" = VStr "pending"
    /\ get (deref s' l) "id" = VNum (nextId (new_TaskManager (world Missing (fun _ => 0%Z)))).
Proof.
  apply (addTask_fills_defaults overreaching_taskData
           (new_TaskManager (world Missing (fun _ => 0%Z)))).
  reflexivity.
Defined.

(** The task that [addTask(overreaching_taskData)] creates in a new store. *)
Example addTask_overreaching :
  let s := final (addTask overreaching_taskData (new_TaskManager (world Missing (fun _ => 0%Z)))) in
  field "id" s = [VNum 1] /\ field "status" s = [VStr "pending"]
  /\ field "priority" s = [VStr "medium"] /\ field "tags" s = [VArr []]
  /\ field "dueDate" s = [VNull] /\ field "description" s = [VStr ""].
Proof. repeat split; vm_compute; reflexivity. Qed.

(** ** The menu of src/cli.js *)

Example parseInt_ascii_examples :
  parseInt_ascii "42" = Finite 42 /\ parseInt_ascii " 7 " = Finite 7
  /\ parseInt_ascii "12abc" = Finite 12 /\ parseInt_ascii "-3" = Finite (-3)
  /\ parseInt_ascii "0x1F" = Finite 31 /\ parseInt_ascii "abc" = NaN
  /\ parseInt_ascii "" = NaN.
Proof. repeat split; reflexivity. Qed.

Section CliFacts.

Variable Date_parse : string -> option Z.
Variable toLowerCase : string -> string.
Variable parseInt : string -> JsNumber.

Lemma awaited_settled {A} (r : Outcome A * State) (next next' : State -> Session * State)
    (session : Session) (s' : State) :
  (forall s0, next s0 = (session, s') -> next' s0 = (session, s')) ->
  awaited r next = (session, s') -> awaited r next' = (session, s').
Proof. intros Hnext. destruct r as [[a|e] s0]; simpl; auto. Qed.

(** X24: once [handleChoice] has been rejected, or has exited, nothing the
    user types afterwards has any effect: the run ends the same way, in the
    same state, whatever lines follow. *)
Theorem handleChoice_settled (answers more : list string) (s : State)
    (session : Session) (s' : State) :
  handleChoice Date_parse toLowerCase parseInt answers s = (session, s') ->
  session <> Waiting ->
  handleChoice Date_parse toLowerCase parseInt (answers ++ more) s = (session, s').
Proof.
  intros Hrun Hsettled. revert s Hrun.
  induction answers as [answers IH] using (induction_ltof1 _ (@length string)).
  unfold ltof in IH. intros s.
  destruct answers as [|choice answers]; [simpl; congruence|].
  rewrite <- app_comm_cons. cbn [handleChoice].
  destruct (String.eqb choice "1").
  { destruct answers as [|title [|desc [|priority answers]]]; try (simpl; congruence).
    cbn [app]. apply awaited_settled. intros s0. apply IH. simpl. lia. }
  destruct (String.eqb choice "2").
  { apply awaited_settled. intros s0. apply IH. simpl. lia. }
  destruct (String.eqb choice "3").
  { destruct answers as [|updateId [|newStatus answers]]; try (simpl; congruence).
    cbn [app]. apply awaited_settled. intros s0. apply IH. simpl. lia. }
  destruct (String.eqb choice "4").
  { destruct answers as [|deleteId answers]; try (simpl; congruence).
    cbn [app]. apply awaited_settled. intros s0. apply IH. simpl. lia. }
  destruct (String.eqb choice "5").
  { destruct answers as [|keyword answers]; try (simpl; congruence).
    cbn [app]. apply awaited_settled. intros s0. apply IH. simpl. lia. }
  destruct (String.eqb choice "6").
  { apply awaited_settled. intros s0. apply IH. simpl. lia. }
  destruct (String.eqb choice "0"); [done|].
  apply IH. simpl. lia.
Qed.

Lemma view_new_array (s : State) (elems : list loc) :
  view (set_arrs (<[fresh (dom (arrs s) ∪ {[tasks s]}) := elems]> (arrs s)) s) = view s.
Proof.
  unfold view, this_tasks, array; simpl.
  rewrite lookup_insert_ne; [reflexivity|].
  pose proof (is_fresh (dom (arrs s) ∪ {[tasks s]})). set_solver.
Qed.

(** The calls of the menu keep the tasks searchable, and throw nothing but
    the expected errors. *)
Definition kept {A} (r : Outcome A * State) : Prop :=
  Forall searchable (view (final r))
  /\ forall e, outcome r = Throw e -> expected_rejection e.

Lemma after_save_expected {A} (s : State) (a : A) (e : Error) :
  after_save s a = Throw e -> expected_rejection e.
Proof.
  unfold after_save. destruct (writeError s) as [c|]; [|discriminate].
  intros [= <-]. right. right. eauto.
Qed.

Lemma addTask_kept (title desc priority : string) (s : State) :
  Forall searchable (view s) ->
  kept (addTask (<["title" := VStr title]> (<["description" := VStr desc]>
                   (<["priority" := VStr priority]> ∅))) s).
Proof.
  intros Hall. set (taskData := <["title" := VStr title]> _).
  destruct (truthy (get taskData "title")) eqn:Htitle.
  - destruct (addTask_run taskData s Htitle) as (s' & -> & _ & _ & Hview & _).
    split; [|intros e; apply after_save_expected].
    simpl. rewrite Hview. apply Forall_app. split; [exact Hall|].
    apply Forall_singleton. unfold searchable, task_literal, taskData, get, or_else.
    simplify_map_eq. by destruct (negb (String.eqb desc "")).
  - unfold addTask. rewrite Htitle. simpl. split; [exact Hall|].
    intros e [= <-]. by left.
Qed.

Lemma getTasks_kept (s : State) :
  Forall searchable (view s) -> kept (getTasks Date_parse no_filters s).
Proof.
  intros Hall.
  destruct (getTasks_run Date_parse no_filters s) as [(elems & -> & _)|(e & _ & Htag)].
  - split; [|discriminate]. simpl. by rewrite (view_new_array s elems).
  - by destruct Htag.
Qed.

Lemma updateTask_kept (id : JsNumber) (status : string) (s : State) :
  Forall searchable (view s) ->
  kept (updateTask_number id (<["status" := VStr status]> ∅) s).
Proof.
  intros Hall.
  assert (Hunknown : forall text,
            kept (@throw loc (Error_ ("任务 ID " ++ text ++ " 不存在")) s)).
  { intros text. split; [exact Hall|]. intros e [= <-]. right. left. eauto. }
  destruct id as [n| |negative]; simpl; [|apply Hunknown..].
  destruct (findIndex n s) as [[i l]|] eqn:Hfind.
  - destruct (updateTask_found n (<["status" := VStr status]> ∅) s i l Hfind)
      as (s' & -> & _ & _ & Hview & _).
    split; [|intros e; apply after_save_expected].
    simpl. rewrite Hview. apply Forall_insert; [exact Hall|].
    apply findIndex_Some in Hfind as [Hi _]. apply view_lookup in Hi.
    rewrite Forall_forall in Hall. specialize (Hall _ (list_elem_of_lookup_2 _ _ _ Hi)).
    unfold searchable, get in *.
    rewrite !merged_not_provided; [exact Hall|..];
      solve [by rewrite lookup_insert_ne|apply (bool_decide_unpack _); exact I].
  - rewrite (updateTask_not_found n _ s Hfind). apply Hunknown.
Qed.

Lemma deleteTask_kept (id : JsNumber) (s : State) :
  Forall searchable (view s) -> kept (deleteTask_number id s).
Proof.
  intros Hall.
  assert (Hcopy : kept ((let! kept := gets this_tasks in
                         let! a := new_array kept in
                         let! _ := modify (set_tasks a) in
                         ret false) s)).
  { unfold bind, gets, new_array, modify, ret. split; [|discriminate]. simpl.
    set (a := fresh (dom (arrs s) ∪ {[tasks s]})).
    assert (Hthis : this_tasks (set_tasks a (set_arrs (<[a := this_tasks s]> (arrs s)) s))
                    = this_tasks s).
    { unfold this_tasks at 1, array; simpl. by rewrite lookup_insert_eq. }
    unfold view. rewrite Hthis. exact Hall. }
  destruct id as [n| |negative]; simpl; [|exact Hcopy..].
  destruct (deleteTask_state n s) as (s' & -> & _ & _ & _ & Hview & _).
  split.
  - simpl. rewrite Hview. rewrite Forall_forall in Hall. apply Forall_forall.
    intros task Hin. apply list_elem_of_filter in Hin as [_ Hin]. by apply Hall.
  - simpl. destruct (decide _) as [Hex|Hex]; [|discriminate].
    intros e0. apply after_save_expected.
Qed.

Lemma searchTasks_kept (keyword : string) (s : State) :
  Forall searchable (view s) -> kept (searchTasks toLowerCase keyword s).
Proof.
  intros Hall.
  destruct (searchTasks_returns toLowerCase keyword s
              (filter (fun l => mentions toLowerCase keyword (deref s l) = true) (this_tasks s)))
    as (r & s' & -> & _ & _ & Hthis & Ho).
  { apply (filter_throwing_total _ (fun l => mentions toLowerCase keyword (deref s l))).
    unfold view in Hall. rewrite Forall_fmap in Hall.
    eapply Forall_impl; [exact Hall|]. intros l Hl. by apply matches_searchable. }
  split; [|discriminate]. simpl.
  assert (Hview : view s' = view s); [|by rewrite Hview].
  unfold view. rewrite Hthis. apply list_fmap_ext. intros i l _. unfold deref. by rewrite Ho.
Qed.

Lemma getStatistics_kept (s : State) :
  Forall searchable (view s) -> kept (getStatistics Date_parse s).
Proof. intros Hall. split; [exact Hall|discriminate]. Qed.

Lemma awaited_kept {A} (r : Outcome A * State) (next : State -> Session * State)
    (session : Session) (s' : State) :
  kept r ->
  (forall s0, Forall searchable (view s0) -> next s0 = (session, s') ->
     Forall searchable (view s') /\ forall e, session = Rejected e -> expected_rejection e) ->
  awaited r next = (session, s') ->
  Forall searchable (view s') /\ forall e, session = Rejected e -> expected_rejection e.
Proof.
  destruct r as [[a|e] s0]; simpl; intros [Hall Hthrow] Hnext; [by apply Hnext|].
  intros [= <- <-]. split; [exact Hall|]. intros e0 [= <-]. by apply Hthrow.
Qed.

(** X25: what can end a session of the menu.  When every task of the store
    has strings as title and description and an array of strings as tags,
    every task still has after any sequence of answers, and a session is
    rejected only
    with the error for an empty title, the error for an unknown id, or a
    failure of the file system: never with a [TypeError]. *)
Theorem handleChoice_rejections (answers : list string) (s : State)
    (session : Session) (s' : State) :
  Forall searchable (view s) ->
  handleChoice Date_parse toLowerCase parseInt answers s = (session, s') ->
  Forall searchable (view s')
  /\ forall e, session = Rejected e -> expected_rejection e.
Proof.
  revert s. induction answers as [answers IH] using (induction_ltof1 _ (@length string)).
  unfold ltof in IH. intros s Hall.
  destruct answers as [|choice answers]; [by intros [= <- <-]|].
  cbn [handleChoice].
  destruct (String.eqb choice "1").
  { destruct answers as [|title [|desc [|priority answers]]]; try by intros [= <- <-].
    apply awaited_kept; [by apply addTask_kept|]. intros s0. apply IH. simpl. lia. }
  destruct (String.eqb choice "2").
  { apply awaited_kept; [by apply getTasks_kept|]. intros s0. apply IH. simpl. lia. }
  destruct (String.eqb choice "3").
  { destruct answers as [|updateId [|newStatus answers]]; try by intros [= <- <-].
    apply awaited_kept; [by apply updateTask_kept|]. intros s0. apply IH. simpl. lia. }
  destruct (String.eqb choice "4").
  { destruct answers as [|deleteId answers]; try by intros [= <- <-].
    apply awaited_kept; [by apply deleteTask_kept|]. intros s0. apply IH. simpl. lia. }
  destruct (String.eqb choice "5").
  { destruct answers as [|keyword answers]; try by intros [= <- <-].
    apply awaited_kept; [by apply searchTasks_kept|]. intros s0. apply IH. simpl. lia. }
  destruct (String.eqb choice "6").
  { apply awaited_kept; [by apply getStatistics_kept|]. intros s0. apply IH. simpl. lia. }
  destruct (String.eqb choice "0"); [by intros [= <- <-]|].
  apply IH; [simpl; lia|exact Hall].
Qed.

Lemma matches_throws (lowerKeyword : string) (task : Obj) (e : Error) :
  matches toLowerCase lowerKeyword task = Throw e -> exists message, e = TypeError message.
Proof.
  unfold matches, lowered, some_tag.
  destruct (get task "title"); try (intros [= <-]; eauto).
  destruct (is_substring _ _); [discriminate|].
  destruct (get task "description"); try (intros [= <-]; eauto).
  destruct (is_substring _ _); [discriminate|].
  destruct (get task "tags"); intros [= <-]; eauto.
Qed.

(** X26: the answers that end a session.  Choice 1 with an empty title,
    choice 3 with an id that is not a number or that no task has, and
    choice 5 in a store holding a task whose title is not a string are
    rejected, with the store unchanged, whatever is typed after them. *)
Theorem handleChoice_rejected_calls (s : State) (rest : list string) :
  (forall desc priority,
     handleChoice Date_parse toLowerCase parseInt ("1" :: "" :: desc :: priority :: rest) s
     = (Rejected (Error_ "任务标题不能为空"), s))
  /\ (forall updateId newStatus,
        match parseInt updateId with
        | Finite n => Forall (fun task => get task "id" <> VNum n) (view s)
        | NaN | Infinite _ => True
        end ->
        handleChoice Date_parse toLowerCase parseInt ("3" :: updateId :: newStatus :: rest) s
        = (Rejected (Error_ ("任务 ID " ++ number_text (parseInt updateId) ++ " 不存在")), s))
  /\ (forall keyword,
        Exists (fun task => ~ is_string (get task "title")) (view s) ->
        exists message,
          handleChoice Date_parse toLowerCase parseInt ("5" :: keyword :: rest) s
          = (Rejected (TypeError message), s)).
Proof.
  split; [|split].
  - intros desc priority. reflexivity.
  - intros updateId newStatus Hid. cbn [handleChoice String.eqb Ascii.eqb Bool.eqb].
    destruct (parseInt updateId) as [n| |negative]; [|reflexivity..].
    simpl. by rewrite (updateTask_not_found n _ s (findIndex_None n s Hid)).
  - intros keyword Hex. cbn [handleChoice String.eqb Ascii.eqb Bool.eqb].
    destruct (filter_throwing_TypeError
                (fun l => matches toLowerCase (toLowerCase keyword) (deref s l)) (this_tasks s))
      as (message & Hthrow).
    + intros l e. apply matches_throws.
    + unfold view in Hex. rewrite Exists_fmap in Hex.
      eapply Exists_impl; [exact Hex|]. intros l Hl. simpl in Hl.
      unfold matches, lowered. destruct (get (deref s l) "title"); simpl in *; eauto.
      by destruct Hl.
    + exists message. unfold searchTasks, bind, lift. by rewrite Hthrow.
Qed.

End CliFacts.

(** X24 at a concrete input: a task without a title as the first choice in
    a new store, followed by the choices 2 and 0. *)
Lemma handleChoice_settled_witness :
  handleChoice (fun _ => None) toLowerCase_ascii parseInt_ascii
    (["1"; ""; "d"; "high"] ++ ["2"; "0"]) (new_TaskManager (world Missing (fun _ => 0%Z)))
  = (Rejected (Error_ "任务标题不能为空"), new_TaskManager (world Missing (fun _ => 0%Z))).
Proof.
  apply (handleChoice_settled (fun _ => None) toLowerCase_ascii parseInt_ascii
           ["1"; ""; "d"; "high"] ["2"; "0"] (new_TaskManager (world Missing (fun _ => 0%Z)))
           (Rejected (Error_ "任务标题不能为空"))
           (new_TaskManager (world Missing (fun _ => 0%Z)))).
  - reflexivity.
  - discriminate.
Defined.

(** X25 at a concrete input: in the store that holds the task "write", the
    user adds the task "Read", searches for "rea", which finds it, and then
    updates the id 9, which no task has. *)
Lemma handleChoice_rejections_witness :
  field "title" (store_one (fun _ => 0%Z)) = [VStr "write"]
  /\ Forall searchable (view (store_one (fun _ => 0%Z)))
  /\ session_run.1 = Rejected (Error_ "任务 ID 9 不存在")
  /\ field "title" session_run.2 = [VStr "write"; VStr "Read"]
  /\ field "tags" session_run.2 = [VArr []; VArr []]
  /\ Forall searchable (view session_run.2)
  /\ expected_rejection (Error_ "任务 ID 9 不存在").
Proof.
  assert (Hstore : Forall searchable (view (store_one (fun _ => 0%Z))))
    by (apply (bool_decide_unpack _); vm_compute; exact I).
  assert (Hsession : session_run.1 = Rejected (Error_ "任务 ID 9 不存在"))
    by (vm_compute; reflexivity).
  destruct (handleChoice_rejections (fun _ => None) toLowerCase_ascii parseInt_ascii
              session_answers (store_one (fun _ => 0%Z)) session_run.1 session_run.2 Hstore
              (surjective_pairing session_run)) as [Hall Hexpected].
  split; [vm_compute; reflexivity|]. split; [exact Hstore|].
  split; [exact Hsession|]. split; [vm_compute; reflexivity|].
  split; [vm_compute; reflexivity|]. split; [exact Hall|].
  exact (Hexpected _ Hsession).
Defined.

(** In that session the search of choice 5 runs over both tasks and finds
    the one that was added. *)
Example handleChoice_session_searches :
  match handleChoice (fun _ => None) toLowerCase_ascii parseInt_ascii
          ["1"; "Read"; ""; "high"; "5"; "rea"] (store_one (fun _ => 0%Z)) with
  | (session, s') =>
      session = Waiting
      /\ match searchTasks toLowerCase_ascii "rea" s' with
         | (Return r, s'') =>
             (fun l => get (deref s'' l) "title") <$> array s'' r = [VStr "Read"]
         | (Throw _, _) => False
         end
  end.
Proof. vm_compute. split; reflexivity. Qed.

(** A session in a new store: a task is added, listed, marked completed
    through choice 3 and found by a search; then the user leaves. *)
Example handleChoice_session :
  match handleChoice (fun _ => None) toLowerCase_ascii parseInt_ascii
          ["1"; "Write"; ""; ""; "2"; "3"; "1"; "completed"; "5"; "WRI"; "9"; "6"; "0"; "1"]
          (new_TaskManager (world Missing (fun _ => 0%Z))) with
  | (session, s') =>
      session = Exited
      /\ field "title" s' = [VStr "Write"] /\ field "priority" s' = [VStr "medium"]
      /\ field "status" s' = [VStr "completed"] /\ nextId s' = 2%Z
  end.
Proof. vm_compute. repeat split; reflexivity. Qed.

(** ** More on markAsCompleted, loading and the order by due date *)

(** X27: [markAsCompleted] passes over the ids it can do nothing for.  When
    every id of [ids] either refers to no task or to a task that is
    completed already, the call returns the empty array and changes
    nothing: it throws no error for an unknown id (as [updateTask] does) and
    does not write the file. *)
Theorem markAsCompleted_ignores (ids : list Z) (s : State) :
  (forall id l, id ∈ ids -> getTaskById id s = Some l ->
     get (deref s l) "status" = VStr "completed") ->
  markAsCompleted ids s = (Return [], s).
Proof.
  intros Hdone. unfold markAsCompleted, bind at 1.
  by rewrite (markLoop_noop ids [] s Hdone).
Qed.

(** X28: the default for a missing [nextId] can give an id out twice.  After
    [loadFromFile] has read a file without [nextId] that holds a task with
    the id 1, [addTask] gives the new task the id 1 as well: the ids of the
    store are no longer unique, and [getTaskById(1)] does not return the
    new task. *)
Theorem addTask_after_load_without_nextId (d : Document) (taskData : Obj) (s : State) :
  file s = Readable (Json d) ->
  doc_nextId d = None ->
  Exists (fun task => get task "id" = VNum 1) (default [] (doc_tasks d)) ->
  truthy (get taskData "title") = true ->
  exists s1 l s2,
    loadFromFile s = (Return tt, s1)
    /\ addTask taskData s1 = (after_save s1 l, s2)
    /\ get (deref s2 l) "id" = VNum 1
    /\ getTaskById 1 s2 <> Some l
    /\ ~ NoDup (field "id" s2).
Proof.
  intros Hfile Hnone Hex Htitle.
  destruct (loadFromFile_json s d Hfile) as (s1 & Hload & Hview1 & Hn1 & _).
  rewrite Hnone in Hn1. simpl in Hn1.
  destruct (addTask_state taskData s1 Htitle) as (s2 & Hadd & Ht & Ha & Ho & _ & _).
  destruct (addTask_run taskData s1 Htitle) as (s2' & Hadd' & Hthis & Hnew & Hview2 & _).
  assert (s2' = s2) by congruence. subst s2'.
  exists s1, (next_object s1), s2. split; [exact Hload|]. split; [exact Hadd|].
  assert (Hid : get (deref s2 (next_object s1)) "id" = VNum 1).
  { rewrite Hnew, <- Hn1. apply task_literal_fields. }
  split; [exact Hid|]. rewrite <- Hview1 in Hex. split.
  - apply first_with_id in Hex as (i & old & Hi & Hold & Hfirst).
    destruct (findIndex_first 1 s1 i old Hi Hold Hfirst) as (l0 & Hfind & Hderef).
    apply list_find_Some in Hfind as (Hl0 & Hhas & Hbefore).
    assert (Hin : l0 ∈ this_tasks s1) by (by eapply list_elem_of_lookup_2).
    assert (Hne : l0 <> next_object s1).
    { intros ->. by apply (next_object_unreferenced s1). }
    assert (Hfind2 : findIndex 1 s2 = Some (i, l0)).
    { apply list_find_Some. rewrite Hthis. split; [|split].
      - by apply lookup_app_l_Some.
      - unfold has_id. by rewrite (deref_insert_ne s1 s2 _ _ _ Ho Hne).
      - intros j y Hj Hlt. 
        assert (Hj1 : this_tasks s1 !! j = Some y).
        { rewrite lookup_app_l in Hj; [exact Hj|]. apply lookup_lt_Some in Hl0. lia. }
        unfold has_id. rewrite (deref_insert_ne s1 s2 _ y _ Ho).
        + by apply (Hbefore j y).
        + intros ->. apply (next_object_unreferenced s1). by eapply list_elem_of_lookup_2. }
    rewrite getTaskById_findIndex, Hfind2. simpl. congruence.
  - unfold field. rewrite Hview2, fmap_app. simpl.
    destruct (task_literal_fields (nextId s1) taskData
                (toISOString (clock s1 (ticks s1))) (toISOString (clock s1 (S (ticks s1)))))
      as (-> & _).
    rewrite Hn1. intros Hnodup. apply NoDup_app in Hnodup as (_ & Hdisjoint & _).
    apply Exists_exists in Hex as (task & Hin & Htask).
    apply (Hdisjoint (VNum 1)); [|by apply list_elem_of_singleton].
    apply list_elem_of_fmap. exists task. by split.
Qed.

Lemma insert_sorted_ext_in {A} (c1 c2 : A -> A -> option Z) (x : A) (l : list A) :
  (forall y, y ∈ l -> c1 x y = c2 x y) -> insert_sorted c1 x l = insert_sorted c2 x l.
Proof.
  induction l as [|y l IH]; intros Heq; [reflexivity|]. simpl. unfold sortCompare.
  rewrite (Heq y) by (apply elem_of_cons; by left).
  rewrite IH; [reflexivity|]. intros z Hz. apply Heq, elem_of_cons. by right.
Qed.

(** The sort looks at the comparator on the elements of the list only. *)
Lemma sort_ext_in {A} (c1 c2 : A -> A -> option Z) (l : list A) :
  (forall x y, x ∈ l -> y ∈ l -> c1 x y = c2 x y) -> sort c1 l = sort c2 l.
Proof.
  induction l as [|x l IH] using rev_ind; intros Heq; [reflexivity|].
  rewrite !sort_snoc, IH.
  - apply insert_sorted_ext_in. intros y Hy. rewrite (sort_perm c2 l) in Hy.
    apply Heq; apply elem_of_app; [right; by apply list_elem_of_singleton|by left].
  - intros y z Hy Hz. apply Heq; apply elem_of_app; by left.
Qed.

Section DueDates.

Variable Date_parse : string -> option Z.

(** X5: when every task has a due date that denotes a time,
    [getTasks({ sortBy: "dueDate" })] returns all the tasks, those due
    earlier first, and the tasks due at one and the same time in the order
    they have in the store. *)
Theorem getTasks_sorted_by_dueDate (s : State) :
  Forall (fun task => is_Some (due Date_parse task)) (view s) ->
  exists r s',
    getTasks Date_parse (only_sortBy "dueDate") s = (Return r, s')
    /\ deref s' <$> array s' r ≡ₚ view s
    /\ StronglySorted (due_le Date_parse) (deref s' <$> array s' r)
    /\ (forall t, filter (fun task => due Date_parse task = Some t) (deref s' <$> array s' r)
                  = filter (fun task => due Date_parse task = Some t) (view s)).
Proof.
  intros Hall.
  destruct (getTasks_only_sortBy Date_parse "dueDate" s) as (r & s' & Hrun & Heq); [done|].
  exists r, s'. rewrite Heq. split; [exact Hrun|]. split; [apply sort_perm|]. split.
  - apply sort_by_dueDate_sorted. eapply Forall_impl; [exact Hall|].
    intros task [t Ht] Htruthy. unfold due in Ht. rewrite Htruthy in Ht. by exists t.
  - intros t.
    set (key := fun task : Obj => Z.opp <$> due Date_parse task).
    assert (Hcmp : sort (compareTasks Date_parse "dueDate") (view s)
                   = sort (fun a b => minus (key b) (key a)) (view s)).
    { apply sort_ext_in. intros a b Ha Hb. rewrite Forall_forall in Hall.
      destruct (Hall a Ha) as [ta Hta], (Hall b Hb) as [tb Htb].
      unfold key. rewrite Hta, Htb. unfold due in Hta, Htb. unfold compareTasks. simpl.
      destruct (truthy (get a "dueDate")); [|discriminate].
      destruct (truthy (get b "dueDate")); [|discriminate].
      simpl. rewrite Hta, Htb. simpl. f_equal. lia. }
    assert (Hfilter : forall l : list Obj,
              filter (fun task => due Date_parse task = Some t) l
              = filter (fun task => key task = Some (- t)%Z) l).
    { intros l. apply list_filter_iff. intros task. unfold key.
      destruct (due Date_parse task) as [t0|]; simpl; [|split; discriminate].
      split; intros [= H]; f_equal; lia. }
    rewrite Hcmp, !Hfilter. apply sort_by_key_stable; [reflexivity|].
    eapply Forall_impl; [exact Hall|]. intros task [t0 Ht0]. unfold key. rewrite Ht0. by eexists.
Qed.

End DueDates.

(** X27 at a concrete input: an id that the store does not hold. *)
Lemma markAsCompleted_ignores_witness :
  markAsCompleted [7%Z] (new_TaskManager (world Missing (fun _ => 0%Z)))
  = (Return [], new_TaskManager (world Missing (fun _ => 0%Z))).
Proof.
  apply (markAsCompleted_ignores [7%Z] (new_TaskManager (world Missing (fun _ => 0%Z)))).
  intros id l _ Hfind. discriminate Hfind.
Defined.

(** X28 at a concrete input: a file that holds the task 1 and no [nextId]. *)
Lemma addTask_after_load_without_nextId_witness :
  exists s1 l s2,
    loadFromFile (new_TaskManager (world file_without_nextId (fun _ => 0%Z))) = (Return tt, s1)
    /\ addTask example_taskData s1 = (after_save s1 l, s2)
    /\ get (deref s2 l) "id" = VNum 1
    /\ getTaskById 1 s2 <> Some l
    /\ ~ NoDup (field "id" s2).
Proof.
  apply (addTask_after_load_without_nextId
           {| doc_tasks := Some [<["id" := VNum 1]> (<["title" := VStr "old"]> ∅)];
              doc_nextId := None;
              doc_lastSaved := None |}
           example_taskData (new_TaskManager (world file_without_nextId (fun _ => 0%Z)))).
  - reflexivity.
  - reflexivity.
  - apply (bool_decide_unpack _). vm_compute. exact I.
  - reflexivity.
Defined.

(** After loading that file, the task that [addTask] creates has the id of
    the task in the file; [getTaskById(1)] finds the old task. *)
Example addTask_duplicates_id :
  let s := final (addTask example_taskData store_without_nextId) in
  field "id" s = [VNum 1; VNum 1]
  /\ field "title" s = [VStr "old"; VStr "write"]
  /\ (fun l => get (deref s l) "title") <$> getTaskById 1 s = Some (VStr "old").
Proof. repeat split; vm_compute; reflexivity. Qed.

(** X5 at a concrete input: the store of two tasks due at the times 9
    and 5. *)
Lemma getTasks_sorted_by_dueDate_witness :
  exists r s',
    getTasks (fun _ => None) (only_sortBy "dueDate") store_two_dated = (Return r, s')
    /\ deref s' <$> array s' r ≡ₚ view store_two_dated
    /\ StronglySorted (due_le (fun _ => None)) (deref s' <$> array s' r)
    /\ (forall t, filter (fun task => due (fun _ => None) task = Some t)
                    (deref s' <$> array s' r)
                  = filter (fun task => due (fun _ => None) task = Some t)
                      (view store_two_dated)).
Proof.
  apply (getTasks_sorted_by_dueDate (fun _ => None) store_two_dated).
  apply (bool_decide_unpack _). vm_compute. exact I.
Defined.

(** [getTasks({ sortBy: "dueDate" })] on that store: the task due at time 5
    first. *)
Example getTasks_by_dueDate_of_two :
  field "dueDate" store_two_dated = [VDate 9; VDate 5]
  /\ match getTasks (fun _ => None) (only_sortBy "dueDate") store_two_dated with
     | (Return r, s') =>
         (fun l => get (deref s' l) "dueDate") <$> array s' r = [VDate 5; VDate 9]
     | (Throw _, _) => False
     end.
Proof. split; vm_compute; reflexivity. Qed.
